(** * jpyc-payment-qr: the payment identifier codec

    A shallow embedding of [src/src/checksum.ts], [src/src/encoder.ts],
    [src/src/validator.ts], [src/src/uri-generator.ts] and the constants they
    use, with the JavaScript built-ins they call.

    Conventions.
    - A JavaScript string is the list of its UTF-16 code units ([JSString]).
    - A JavaScript number is an IEEE 754 double, kept by its exact rational
      value ([Finite q], [q] in lowest terms), or [NaN], or an infinity.
      The sign of zero is not kept: no function below can observe it.
    - A BigInt is a [Z].
    - A function that can throw returns a [Result]; what is thrown is a
      [Thrown]: a [JPYCPaymentError] or a native error. *)

From Stdlib Require Import ZArith NArith QArith Qround Qabs Qreduction Qpower.
From Stdlib Require Qcanon.
From Stdlib Require Import List Bool Lia Ascii.
From Stdlib Require String.
Import ListNotations String.StringSyntax.

Delimit Scope string_scope with string.

Close Scope Q_scope.
Local Open Scope list_scope.

(* ================================================================== *)
(** * Strings *)

Definition CodeUnit := N.
Definition JSString := list CodeUnit.

Bind Scope N_scope with CodeUnit.

Definition JSString_eqb (a b : JSString) : bool :=
  if list_eq_dec N.eq_dec a b then true else false.

(** [s.startsWith(p)] *)
Fixpoint startsWith (s p : JSString) {struct p} : bool :=
  match p, s with
  | [], _ => true
  | c :: p', d :: s' => (c =? d)%N && startsWith s' p'
  | _ :: _, [] => false
  end.

(** [s.padEnd(n, '0')], [s.padStart(n, '0')] and [s.slice(0, n)] for a
    length [n] that the caller has checked to be a non-negative integer. *)
Definition padEnd (s : JSString) (n : nat) (c : CodeUnit) : JSString :=
  s ++ repeat c (n - length s).

Definition padStart (s : JSString) (n : nat) (c : CodeUnit) : JSString :=
  repeat c (n - length s) ++ s.

Definition slice0 (s : JSString) (n : nat) : JSString := firstn n s.

(** Character classes. *)
Definition is_digit (c : CodeUnit) : bool := ((48 <=? c) && (c <=? 57))%N.

Definition is_hex (c : CodeUnit) : bool :=
  (is_digit c || ((97 <=? c) && (c <=? 102)) || ((65 <=? c) && (c <=? 70)))%N.

(** White space and line terminators of ECMAScript ([StrWhiteSpaceChar]):
    what [parseFloat], [parseInt] and [BigInt] skip around a literal. *)
Definition is_whitespace (c : CodeUnit) : bool :=
  ((9 <=? c) && (c <=? 13) || (c =? 32) || (c =? 160) || (c =? 5760)
   || ((8192 <=? c) && (c <=? 8202)) || (c =? 8232) || (c =? 8233)
   || (c =? 8239) || (c =? 8287) || (c =? 12288) || (c =? 65279))%N.

Fixpoint trimStart (s : JSString) : JSString :=
  match s with
  | c :: s' => if is_whitespace c then trimStart s' else s
  | [] => []
  end.

Definition trim (s : JSString) : JSString :=
  rev (trimStart (rev (trimStart s))).

(** The longest prefix of [s] in the class [p], and what follows it. *)
Fixpoint span (p : CodeUnit -> bool) (s : JSString) : JSString * JSString :=
  match s with
  | c :: s' =>
      if p c then let (a, b) := span p s' in (c :: a, b) else ([], s)
  | [] => ([], [])
  end.

(** [s.toLowerCase()] and [s.toUpperCase()] on the letters A-Z and a-z; the
    source applies them to hexadecimal digits only. *)
Definition toLowerCase_unit (c : CodeUnit) : CodeUnit :=
  if ((65 <=? c) && (c <=? 90))%N then (c + 32)%N else c.

Definition toUpperCase_unit (c : CodeUnit) : CodeUnit :=
  if ((97 <=? c) && (c <=? 122))%N then (c - 32)%N else c.

Definition toLowerCase (s : JSString) : JSString := map toLowerCase_unit s.

(* ================================================================== *)
(** * UTF-8 encoding *)

Definition is_high_surrogate (c : CodeUnit) : bool := ((55296 <=? c) && (c <=? 56319))%N.
Definition is_low_surrogate (c : CodeUnit) : bool := ((56320 <=? c) && (c <=? 57343))%N.

(** The code points of a string: a surrogate pair is one code point, a lone
    surrogate is replaced by U+FFFD. *)
Fixpoint code_points (s : JSString) : list N :=
  match s with
  | [] => []
  | c :: s' =>
      if is_high_surrogate c then
        match s' with
        | d :: s'' =>
            if is_low_surrogate d
            then (65536 + (c - 55296) * 1024 + (d - 56320))%N :: code_points s''
            else 65533%N :: code_points s'
        | [] => [65533%N]
        end
      else if is_low_surrogate c then 65533%N :: code_points s'
      else c :: code_points s'
  end.

Definition utf8_of_code_point (p : N) : list N :=
  if (p <? 128)%N then [p]
  else if (p <? 2048)%N then [192 + p / 64; 128 + p mod 64]%N
  else if (p <? 65536)%N then
    [224 + p / 4096; 128 + (p / 64) mod 64; 128 + p mod 64]%N
  else
    [240 + p / 262144; 128 + (p / 4096) mod 64; 128 + (p / 64) mod 64;
     128 + p mod 64]%N.

(** The UTF-8 bytes of a string ([TextEncoder.encode]). *)
Definition utf8ToBytes (s : JSString) : list N :=
  flat_map utf8_of_code_point (code_points s).

(* ================================================================== *)
(** * UTF-8 decoding and source literals *)

Inductive utf8_state : Type :=
| Start
| Continuation (code_point : N) (remaining : nat) (lower upper : N).

(** A byte read where a sequence starts. *)
Definition utf8_lead (b : N) : list N * utf8_state :=
  if (b <? 128)%N then ([b], Start)
  else if ((194 <=? b) && (b <=? 223))%N then ([], Continuation (b - 192) 1 128 191)
  else if ((224 <=? b) && (b <=? 239))%N then
    ([], Continuation (b - 224) 2 (if (b =? 224)%N then 160%N else 128%N)
                      (if (b =? 237)%N then 159%N else 191%N))
  else if ((240 <=? b) && (b <=? 244))%N then
    ([], Continuation (b - 240) 3 (if (b =? 240)%N then 144%N else 128%N)
                      (if (b =? 244)%N then 143%N else 191%N))
  else ([65533%N], Start).

(** One byte of the UTF-8 decoder of the Encoding standard: a byte that
    cannot continue a sequence ends it with U+FFFD and is read again as the
    start of the next one. *)
Definition utf8_step (st : utf8_state) (b : N) : list N * utf8_state :=
  match st with
  | Continuation cp (S r) lower upper =>
      if ((lower <=? b) && (b <=? upper))%N then
        let cp' := (cp * 64 + (b - 128))%N in
        match r with
        | O => ([cp'], Start)
        | _ => ([], Continuation cp' r 128 191)
        end
      else let (out, st') := utf8_lead b in (65533%N :: out, st')
  | _ => utf8_lead b
  end.

Fixpoint utf8_decode_from (st : utf8_state) (bs : list N) : list N :=
  match bs with
  | [] => match st with Start => [] | _ => [65533%N] end
  | b :: bs' => let (out, st') := utf8_step st b in out ++ utf8_decode_from st' bs'
  end.

Definition utf16_of_code_point (p : N) : JSString :=
  if (p <? 65536)%N then [p]
  else [55296 + (p - 65536) / 1024; 56320 + (p - 65536) mod 1024]%N.

(** "UTF-8 decode without BOM": bytes to a string, U+FFFD for what is not
    UTF-8. *)
Definition utf8_decode (bs : list N) : JSString :=
  flat_map utf16_of_code_point (utf8_decode_from Start bs).

(** A string literal of the source (this file is UTF-8), as code units. *)
Definition str (s : String.string) : JSString :=
  utf8_decode (map N_of_ascii (String.list_ascii_of_string s)).

Arguments str s%_string.

(* ================================================================== *)
(** * Decimal digits and BigInt *)

(** The value of a string of decimal digits, most significant first. *)
Fixpoint digits_value_from (acc : N) (s : JSString) : N :=
  match s with
  | [] => acc
  | c :: s' => digits_value_from (acc * 10 + (c - 48)) s'
  end.

Definition digits_value (s : JSString) : N := digits_value_from 0 s.

(** The decimal digits of [n], most significant first, by repeated division;
    [fuel] bounds the number of digits. *)
Fixpoint N_digits (fuel : nat) (n : N) (acc : JSString) : JSString :=
  match fuel with
  | O => acc
  | S fuel' =>
      let acc' := (48 + n mod 10)%N :: acc in
      if (n <? 10)%N then acc' else N_digits fuel' (n / 10) acc'
  end.

Definition N_toString (n : N) : JSString :=
  N_digits (S (N.to_nat (N.log2 n))) n [].

(** [BigInt.prototype.toString()] *)
Definition BigInt_toString (z : Z) : JSString :=
  match z with
  | Zneg p => 45%N :: N_toString (Npos p)
  | _ => N_toString (Z.to_N z)
  end.

(** The value of a digit in radix 2, 8 or 16, if it is one. *)
Definition radix_digit (radix c : N) : option N :=
  let v := if is_digit c then Some (c - 48)%N
           else if ((97 <=? c) && (c <=? 102))%N then Some (c - 87)%N
           else if ((65 <=? c) && (c <=? 70))%N then Some (c - 55)%N
           else None in
  match v with
  | Some d => if (d <? radix)%N then Some d else None
  | None => None
  end.

Fixpoint radix_value_from (radix acc : N) (s : JSString) : option N :=
  match s with
  | [] => Some acc
  | c :: s' =>
      match radix_digit radix c with
      | Some d => radix_value_from radix (acc * radix + d) s'
      | None => None
      end
  end.

Definition radix_value (radix : N) (s : JSString) : option N :=
  match s with
  | [] => None
  | _ => radix_value_from radix 0 s
  end.

Definition decimal_value (s : JSString) : option N :=
  match s with
  | [] => None
  | _ => if forallb is_digit s then Some (digits_value s) else None
  end.

(** [BigInt(s)] for a string [s] ([StringToBigInt]): white space is trimmed
    at both ends, the empty string is zero, a decimal literal may carry a
    sign, a literal in radix 16, 8 or 2 may not; [None] is a [SyntaxError]. *)
Definition StringToBigInt (s : JSString) : option Z :=
  match trim s with
  | [] => Some 0%Z
  | 48%N :: 120%N :: t | 48%N :: 88%N :: t => option_map Z.of_N (radix_value 16 t)
  | 48%N :: 111%N :: t | 48%N :: 79%N :: t => option_map Z.of_N (radix_value 8 t)
  | 48%N :: 98%N :: t | 48%N :: 66%N :: t => option_map Z.of_N (radix_value 2 t)
  | 43%N :: t => option_map Z.of_N (decimal_value t)
  | 45%N :: t => option_map (fun n => Z.opp (Z.of_N n)) (decimal_value t)
  | t => option_map Z.of_N (decimal_value t)
  end.

(* ================================================================== *)
(** * Numbers *)

Inductive JSNumber : Type :=
| NaN
| Infinity (negative : bool)
| Finite (value : Q).

(** A number literal of the source with an integer value. *)
Definition num (z : Z) : JSNumber := Finite (inject_Z z).

Definition Number_isNaN (x : JSNumber) : bool :=
  match x with NaN => true | _ => false end.

Definition Number_isFinite (x : JSNumber) : bool :=
  match x with Finite _ => true | _ => false end.

Definition Number_isInteger (x : JSNumber) : bool :=
  match x with
  | Finite q => Qeq_bool q (inject_Z (Qfloor q))
  | _ => false
  end.

(** The order of two numbers; [None] when one of them is [NaN], which makes
    every comparison of the source false. *)
Definition Number_compare (a b : JSNumber) : option comparison :=
  match a, b with
  | NaN, _ | _, NaN => None
  | Infinity s, Infinity t =>
      Some (if s then (if t then Eq else Lt) else (if t then Gt else Eq))
  | Infinity s, Finite _ => Some (if s then Lt else Gt)
  | Finite _, Infinity t => Some (if t then Gt else Lt)
  | Finite x, Finite y => Some (x ?= y)%Q
  end.

(** [a < b], [a > b], [a <= b] and [a === b] on numbers. *)
Definition Number_lt (a b : JSNumber) : bool :=
  match Number_compare a b with Some Lt => true | _ => false end.

Definition Number_gt (a b : JSNumber) : bool :=
  match Number_compare a b with Some Gt => true | _ => false end.

Definition Number_le (a b : JSNumber) : bool :=
  match Number_compare a b with Some Lt | Some Eq => true | _ => false end.

Definition Number_eq (a b : JSNumber) : bool :=
  match Number_compare a b with Some Eq => true | _ => false end.

(** ** Rounding a real to the nearest double *)

(** [floor (log2 q)] for [q > 0]. *)
Definition Qlog2_floor (q : Q) : Z :=
  let e0 := (Z.log2 (Qnum q) - Z.log2 (Zpos (Qden q)))%Z in
  if Qle_bool (Qpower 2 e0) q then e0 else (e0 - 1)%Z.

(** The integer nearest to [q >= 0], a tie going to the even one. *)
Definition round_half_even (q : Q) : Z :=
  let f := Qfloor q in
  match (q - inject_Z f ?= 1 # 2)%Q with
  | Lt => f
  | Gt => (f + 1)%Z
  | Eq => if Z.even f then f else (f + 1)%Z
  end.

(** The double nearest to the real [q] (binary64: 53 bits of precision,
    exponents -1022 to 1023, gradual underflow, round to nearest, ties to
    even); a real that rounds to [2^1024] or beyond is infinite. *)
Definition round_double (q : Q) : JSNumber :=
  match (q ?= 0)%Q with
  | Eq => Finite 0
  | c =>
      let a := Qabs q in
      let t := (Z.max (Qlog2_floor a) (-1022) - 52)%Z in
      let m := round_half_even (a / Qpower 2 t) in
      let v := Qred (inject_Z m * Qpower 2 t) in
      let negative := match c with Lt => true | _ => false end in
      if Qle_bool (Qpower 2 1024) v then Infinity negative
      else Finite (if negative then Qopp v else v)
  end.

(** ** Number to string *)

(** [floor (log10 q)] for [q > 0]: an estimate from [log2], then adjusted. *)
Definition Qlog10_floor (q : Q) : Z :=
  let est := ((Qlog2_floor q * 30103) / 100000)%Z in
  match (q ?= Qpower 10 est)%Q with
  | Lt => (est - 1)%Z
  | _ => match (q ?= Qpower 10 (est + 1))%Q with
         | Lt => est
         | _ => (est + 1)%Z
         end
  end.

(** Does the decimal [s * 10^(n-k)] denote the double [x]? *)
Definition denotes (x : Q) (s n k : Z) : bool :=
  match round_double (inject_Z s * Qpower 10 (n - k)) with
  | Finite y => Qeq_bool y x
  | _ => false
  end.

(** The [k]-digit decimals next to [x], with [10^(n0-1) <= x < 10^n0]: the
    one that denotes [x], the nearer one if both do, the even one on a tie. *)
Definition digits_candidate (x : Q) (n0 k : Z) : option (Z * Z) :=
  let scaled := (x * Qpower 10 (k - n0))%Q in
  let lo := Qfloor scaled in
  let hi := (lo + 1)%Z in
  let up := if (hi <? 10 ^ k)%Z then (hi, n0) else ((10 ^ (k - 1))%Z, (n0 + 1)%Z) in
  let oklo := denotes x lo n0 k in
  let okhi := denotes x (fst up) (snd up) k in
  if oklo && okhi then
    match (scaled - inject_Z lo ?= inject_Z hi - scaled)%Q with
    | Lt => Some (lo, n0)
    | Gt => Some up
    | Eq => if Z.even lo then Some (lo, n0) else Some up
    end
  else if oklo then Some (lo, n0)
  else if okhi then Some up
  else None.

(** The shortest decimal [s * 10^(n-k)], [s] of [k] digits, that denotes [x]
    (step 5 of [Number::toString]); seventeen digits always do. *)
Fixpoint shortest_decimal (x : Q) (n0 k : Z) (fuel : nat) : Z * Z * Z :=
  match fuel with
  | O => (Qfloor (x * Qpower 10 (k - n0)), n0, k)
  | S fuel' =>
      match digits_candidate x n0 k with
      | Some (s, n) => (s, n, k)
      | None => shortest_decimal x n0 (k + 1) fuel'
      end
  end.

(** [Number::toString] of a positive double (steps 6 to 10). *)
Definition Number_toString_positive (x : Q) : JSString :=
  let '(s, n, k) := shortest_decimal x (Qlog10_floor x + 1) 1 17 in
  let ds := N_toString (Z.to_N s) in
  if ((k <=? n) && (n <=? 21))%Z then ds ++ repeat 48%N (Z.to_nat (n - k))
  else if ((0 <? n) && (n <=? 21))%Z then
    firstn (Z.to_nat n) ds ++ 46%N :: skipn (Z.to_nat n) ds
  else if ((-6 <? n) && (n <=? 0))%Z then
    48%N :: 46%N :: repeat 48%N (Z.to_nat (- n)) ++ ds
  else
    let e := (n - 1)%Z in
    let es := (if (e <? 0)%Z then 45%N else 43%N) :: N_toString (Z.abs_N e) in
    match ds with
    | d :: [] => d :: 101%N :: es
    | d :: rest => d :: 46%N :: rest ++ 101%N :: es
    | [] => []
    end.

Definition MAX_SAFE_INTEGER : Z := (2 ^ 53 - 1)%Z.

(** [x.toString()] and [`${x}`] for a number [x]. An integer of magnitude at
    most [Number.MAX_SAFE_INTEGER] prints as its decimal digits: every
    integer in that range is a double, so no shorter decimal denotes it. *)
Definition Number_toString (x : JSNumber) : JSString :=
  match x with
  | NaN => str "NaN"
  | Infinity false => str "Infinity"
  | Infinity true => str "-Infinity"
  | Finite q =>
      let z := Qfloor q in
      if Qeq_bool q (inject_Z z) && (Z.abs z <=? MAX_SAFE_INTEGER)%Z
      then BigInt_toString z
      else match (q ?= 0)%Q with
           | Lt => 45%N :: Number_toString_positive (Qopp q)
           | _ => Number_toString_positive q
           end
  end.

(** ** String to number *)

(** A decimal literal read off the front of a string: the digits of the
    significand, the number of them after the point, and the exponent. *)
Definition exponent_part (s : JSString) : Z :=
  match s with
  | c :: s' =>
      if ((c =? 101) || (c =? 69))%N then
        match s' with
        | 43%N :: s'' =>
            let (x, _) := span is_digit s'' in
            match x with [] => 0%Z | _ => Z.of_N (digits_value x) end
        | 45%N :: s'' =>
            let (x, _) := span is_digit s'' in
            match x with [] => 0%Z | _ => (- Z.of_N (digits_value x))%Z end
        | _ =>
            let (x, _) := span is_digit s' in
            match x with [] => 0%Z | _ => Z.of_N (digits_value x) end
        end
      else 0%Z
  | [] => 0%Z
  end.

(** The mathematical value of the longest prefix of [s] that is a
    [StrUnsignedDecimalLiteral] other than [Infinity]; [None] if no prefix
    is one. *)
Definition unsigned_decimal_prefix (s : JSString) : option Q :=
  let (i, r1) := span is_digit s in
  match r1 with
  | 46%N :: r1' =>
      let (f, r2) := span is_digit r1' in
      match i, f with
      | [], [] => None
      | _, _ =>
          Some (inject_Z (Z.of_N (digits_value (i ++ f)))
                * Qpower 10 (exponent_part r2 - Z.of_nat (length f)))%Q
      end
  | _ =>
      match i with
      | [] => None
      | _ => Some (inject_Z (Z.of_N (digits_value i)) * Qpower 10 (exponent_part r1))%Q
      end
  end.

(** [Number.parseFloat(s)]: leading white space is skipped, the longest
    prefix that is a decimal literal is read and rounded to a double;
    [NaN] if there is none. *)
Definition parseFloat (s : JSString) : JSNumber :=
  let t := trimStart s in
  let (negative, u) := match t with
                       | 45%N :: t' => (true, t')
                       | 43%N :: t' => (false, t')
                       | _ => (false, t)
                       end in
  if startsWith u (str "Infinity") then Infinity negative
  else match unsigned_decimal_prefix u with
       | Some v => round_double (if negative then Qopp v else v)
       | None => NaN
       end.

(** [Number.parseInt(s, 10)] *)
Definition parseInt10 (s : JSString) : JSNumber :=
  let t := trimStart s in
  let (negative, u) := match t with
                       | 45%N :: t' => (true, t')
                       | 43%N :: t' => (false, t')
                       | _ => (false, t)
                       end in
  let (d, _) := span is_digit u in
  match d with
  | [] => NaN
  | _ => let v := inject_Z (Z.of_N (digits_value d)) in
         round_double (if negative then Qopp v else v)
  end.

(* ================================================================== *)
(** * Keccak-256

    [keccak_256] is imported from [@noble/hashes/sha3], which is not part of
    the repository; it is written here after the Keccak reference:
    Keccak-f[1600] on 25 lanes of 64 bits, rate 136 bytes, capacity 64
    bytes, multi-rate padding with the domain byte [0x01] (the original
    Keccak padding, not the [0x06] of SHA3-256), 32 bytes of output. *)

Module Keccak.

Definition lane_mask : N := (2 ^ 64 - 1)%N.

Definition rotl (w : N) (r : N) : N :=
  N.land (N.lor (N.shiftl w r) (N.shiftr w (64 - r))) lane_mask.

Definition lane (st : list N) (x y : nat) : N := nth (x + 5 * y) st 0%N.

Definition rotation_offsets : list N :=
  [ 0;  1; 62; 28; 27;
   36; 44;  6; 55; 20;
    3; 10; 43; 25; 39;
   41; 45; 15; 21;  8;
   18;  2; 61; 56; 14]%N.

Definition round_constants : list N :=
  [0x0000000000000001; 0x0000000000008082; 0x800000000000808A;
   0x8000000080008000; 0x000000000000808B; 0x0000000080000001;
   0x8000000080008081; 0x8000000000008009; 0x000000000000008A;
   0x0000000000000088; 0x0000000080008009; 0x000000008000000A;
   0x000000008000808B; 0x800000000000008B; 0x8000000000008089;
   0x8000000000008003; 0x8000000000008002; 0x8000000000000080;
   0x000000000000800A; 0x800000008000000A; 0x8000000080008081;
   0x8000000000008080; 0x0000000080000001; 0x8000000080008008]%N.

Definition positions : list (nat * nat) :=
  flat_map (fun y => map (fun x => (x, y)) (seq 0 5)) (seq 0 5).

Definition theta (st : list N) : list N :=
  let C x := fold_left N.lxor (map (lane st x) (seq 0 5)) 0%N in
  let D x := N.lxor (C ((x + 4) mod 5)%nat) (rotl (C ((x + 1) mod 5)%nat) 1) in
  map (fun '(x, y) => N.lxor (lane st x y) (D x)) positions.

(** [B[y, 2x+3y] = rot(A[x, y], r[x, y])], read at the target position. *)
Definition rho_pi (st : list N) : list N :=
  map (fun '(X, Y) =>
         let x := ((X + 3 * Y) mod 5)%nat in
         let y := X in
         rotl (lane st x y) (nth (x + 5 * y) rotation_offsets 0%N))
      positions.

Definition chi (st : list N) : list N :=
  map (fun '(x, y) =>
         N.lxor (lane st x y)
                (N.land (N.lxor (lane st ((x + 1) mod 5)%nat y) lane_mask)
                        (lane st ((x + 2) mod 5)%nat y)))
      positions.

Definition iota (rc : N) (st : list N) : list N :=
  match st with
  | a :: st' => N.lxor a rc :: st'
  | [] => []
  end.

Definition round (st : list N) (rc : N) : list N :=
  iota rc (chi (rho_pi (theta st))).

Definition keccak_f (st : list N) : list N :=
  fold_left round round_constants st.

Definition rate : nat := 136.

(** pad10*1 with the domain byte [0x01]: the message is extended to a
    whole number of blocks. *)
Definition pad (msg : list N) : list N :=
  let q := (rate - length msg mod rate)%nat in
  match q with
  | 1%nat => msg ++ [129%N]
  | _ => msg ++ 1%N :: repeat 0%N (q - 2) ++ [128%N]
  end.

(** A lane from eight bytes, least significant first, and back. *)
Definition lane_of_bytes (bs : list N) : N :=
  fold_right (fun b acc => (b + 256 * acc)%N) 0%N bs.

Fixpoint bytes_of_lane (n : nat) (w : N) : list N :=
  match n with
  | O => []
  | S n' => (w mod 256)%N :: bytes_of_lane n' (w / 256)
  end.

Fixpoint lanes_of_bytes (n : nat) (bs : list N) : list N :=
  match n with
  | O => []
  | S n' => lane_of_bytes (firstn 8 bs) :: lanes_of_bytes n' (skipn 8 bs)
  end.

Fixpoint xor_lanes (st blk : list N) : list N :=
  match st, blk with
  | a :: st', b :: blk' => N.lxor a b :: xor_lanes st' blk'
  | _, [] => st
  | [], _ => []
  end.

(** Absorb the padded message, one block of [rate] bytes at a time. *)
Fixpoint absorb (blocks : nat) (st : list N) (bs : list N) : list N :=
  match blocks with
  | O => st
  | S blocks' =>
      absorb blocks'
             (keccak_f (xor_lanes st (lanes_of_bytes 17 (firstn rate bs))))
             (skipn rate bs)
  end.

Definition keccak_256 (msg : list N) : list N :=
  let padded := pad msg in
  let st := absorb (length padded / rate) (repeat 0%N 25) padded in
  flat_map (bytes_of_lane 8) (firstn 4 st).

End Keccak.

(* ================================================================== *)
(** * Errors *)

Inductive JPYCPaymentErrorCode : Type :=
| INVALID_ADDRESS
| INVALID_AMOUNT
| INVALID_NETWORK
| INVALID_DECIMALS
| VALIDATION_FAILED
| ENCODING_FAILED
| QR_GENERATION_FAILED
| CHECKSUM_FAILED.

(** What a detail object of an error holds, and what can be thrown: the
    library's own error, a plain [Error] (thrown and caught inside
    [decodeEIP681]), the [SyntaxError] of [BigInt], or the [TypeError] of a
    property read on [undefined]. *)
Inductive Thrown : Type :=
| JPYCPaymentError (message : JSString) (code : JPYCPaymentErrorCode) (details : Details)
| Error (message : JSString)
| SyntaxError
| TypeError
with Details : Type :=
| NoDetails
| DetailsAddress (address : JSString)
| DetailsAddressLength (address : JSString) (length : nat)
| DetailsAmount (amount : JSString)
| DetailsErrors (errors : list JSString)
| DetailsError (error : Thrown)
| DetailsUriError (uri : JSString) (error : Thrown).

Inductive Result (A : Type) : Type :=
| Ok (value : A)
| Throw (thrown : Thrown).

Arguments Ok {A} value.
Arguments Throw {A} thrown.

Definition bind {A B : Type} (r : Result A) (k : A -> Result B) : Result B :=
  match r with
  | Ok a => k a
  | Throw e => Throw e
  end.

(** A property read, or a method call, on a value that may be [undefined]:
    on [undefined] it is a [TypeError]. *)
Definition present {A : Type} (x : option A) : Result A :=
  match x with
  | Some a => Ok a
  | None => Throw TypeError
  end.

(** [try { body } catch (error) { handler }] *)
Definition try_catch {A : Type} (body : Result A) (handler : Thrown -> Result A)
  : Result A :=
  match body with
  | Ok a => Ok a
  | Throw e => handler e
  end.

Notation "x <- r ;; k" := (bind r (fun x => k))
  (at level 61, r at next level, right associativity).

(* ================================================================== *)
(** * Regular expressions, [split] and [URLSearchParams] *)

(** [s.split(d)] for a one-character separator: never empty. *)
Fixpoint split (d : CodeUnit) (s : JSString) : list JSString :=
  match s with
  | [] => [[]]
  | c :: s' =>
      if (c =? d)%N then [] :: split d s'
      else match split d s' with
           | seg :: segs => (c :: seg) :: segs
           | [] => [[c]]
           end
  end.

(** [(s.match(/c/g) || []).length] for a character [c]. *)
Definition count_matches (c : CodeUnit) (s : JSString) : nat :=
  count_occ N.eq_dec s c.

(** Group 1 of a match of [([C]+)R] that starts here, for a class [C] that
    excludes the character [R]: the run of [C] cannot be cut short, so the
    only candidate is the longest one. *)
Definition match_run_here (C : CodeUnit -> bool) (R : CodeUnit) (s : JSString)
  : option JSString :=
  match span C s with
  | ((_ :: _) as run, r :: _) => if (r =? R)%N then Some run else None
  | _ => None
  end.

(** Group 1 of [s.match(/L([C]+)R/)], the leftmost match: [None] is JS
    [null]. *)
Fixpoint match_run (L : CodeUnit) (C : CodeUnit -> bool) (R : CodeUnit)
  (s : JSString) : option JSString :=
  match s with
  | [] => None
  | c :: s' =>
      if (c =? L)%N then
        match match_run_here C R s' with
        | Some g => Some g
        | None => match_run L C R s'
        end
      else match_run L C R s'
  end.

Definition is_not (x : CodeUnit) (c : CodeUnit) : bool := negb (c =? x)%N.

(** Percent-decoding of a byte sequence (URL standard). *)
Fixpoint percent_decode (bs : list N) : list N :=
  match bs with
  | [] => []
  | b :: rest =>
      if (b =? 37)%N then
        match rest with
        | h :: l :: rest' =>
            match radix_digit 16 h, radix_digit 16 l with
            | Some x, Some y => (x * 16 + y)%N :: percent_decode rest'
            | _, _ => b :: percent_decode rest
            end
        | _ => b :: percent_decode rest
        end
      else b :: percent_decode rest
  end.

Definition plus_to_space (bs : list N) : list N :=
  map (fun b => if (b =? 43)%N then 32%N else b) bs.

(** The [application/x-www-form-urlencoded] parser on one [&]-separated
    piece: name and value around the first [=]. *)
Definition urlencoded_pair (bytes : list N) : JSString * JSString :=
  let (name, rest) := span (is_not 61) bytes in
  let value := match rest with _ :: v => v | [] => [] end in
  (utf8_decode (percent_decode (plus_to_space name)),
   utf8_decode (percent_decode (plus_to_space value))).

(** [new URLSearchParams(init)] for a string [init]. *)
Definition URLSearchParams (init : JSString) : list (JSString * JSString) :=
  let query := match init with
               | 63%N :: q => q
               | _ => init
               end in
  map urlencoded_pair
      (filter (fun bytes => match bytes with [] => false | _ => true end)
              (split 38 (utf8ToBytes query))).

(** [params.get(name)]: the first value under [name]; [None] is [null]. *)
Fixpoint URLSearchParams_get (params : list (JSString * JSString)) (name : JSString)
  : option JSString :=
  match params with
  | [] => None
  | (n, v) :: params' =>
      if JSString_eqb n name then Some v else URLSearchParams_get params' name
  end.

(* ================================================================== *)
(** * [constants.ts] *)

Definition JPYC_DECIMALS : JSNumber := num 18.

Definition DEFAULT_NETWORK : JSString := str "polygon".

(** [types.ts]: the configuration of a chain. *)
Module ChainConfig.
Record t : Type := {
  chainId : JSNumber;
  name : JSString;
  jpycAddress : JSString;
  explorerUrl : JSString
}.
End ChainConfig.

(** [CHAIN_CONFIGS], an object used as a map from network name to
    configuration, in the order of its keys. *)
Definition CHAIN_CONFIGS : list (JSString * ChainConfig.t) :=
  [ (str "ethereum",
     {| ChainConfig.chainId := num 1;
        ChainConfig.name := str "Ethereum Mainnet";
        ChainConfig.jpycAddress := str "0xe7c3d8c9a439fede00d2600032d5db0be71c3c29";
        ChainConfig.explorerUrl := str "https://etherscan.io" |});
    (str "polygon",
     {| ChainConfig.chainId := num 137;
        ChainConfig.name := str "Polygon";
        ChainConfig.jpycAddress := str "0xe7c3d8c9a439fede00d2600032d5db0be71c3c29";
        ChainConfig.explorerUrl := str "https://polygonscan.com" |});
    (str "avalanche",
     {| ChainConfig.chainId := num 43114;
        ChainConfig.name := str "Avalanche C-Chain";
        ChainConfig.jpycAddress := str "0xe7c3d8c9a439fede00d2600032d5db0be71c3c29";
        ChainConfig.explorerUrl := str "https://snowtrace.io" |}) ].

(** The own property of an object under a key, if it has one. *)
Fixpoint lookup {A : Type} (m : list (JSString * A)) (key : JSString) : option A :=
  match m with
  | [] => None
  | (k, v) :: m' => if JSString_eqb k key then Some v else lookup m' key
  end.

(** The property names that every object literal inherits from
    [Object.prototype]. Each names a function, except [__proto__], an
    accessor that gives the prototype itself. *)
Definition Object_prototype : list JSString :=
  [ str "constructor"; str "__defineGetter__"; str "__defineSetter__";
    str "hasOwnProperty"; str "__lookupGetter__"; str "__lookupSetter__";
    str "isPrototypeOf"; str "propertyIsEnumerable"; str "toString";
    str "valueOf"; str "__proto__"; str "toLocaleString" ].

(** What [object[key]] gives on an object literal whose own values are of
    type [A]: the own value under the key, or else the member of
    [Object.prototype] of that name. *)
Inductive Property (A : Type) : Type :=
| Own (value : A)
| Inherited (key : JSString).

Arguments Own {A} value.
Arguments Inherited {A} key.

(** [object[key]]: the own properties first, then the prototype; [None] is
    [undefined]. Every other outcome is an object or a function, which is
    truthy. The argument of [CHAIN_CONFIGS[network]] has the type
    [SupportedNetwork] at compile time only: at run time it is any string
    (the tests pass an unknown name). *)
Definition get {A : Type} (object : list (JSString * A)) (key : JSString)
  : option (Property A) :=
  match lookup object key with
  | Some value => Some (Own value)
  | None =>
      if existsb (JSString_eqb key) Object_prototype then Some (Inherited key) else None
  end.

(** [chainConfig.chainId] and [chainConfig.jpycAddress] on what
    [CHAIN_CONFIGS[network]] gave: the members of [Object.prototype] have
    neither property, and the read gives [undefined]. *)
Definition Property_chainId (chainConfig : Property ChainConfig.t) : option JSNumber :=
  match chainConfig with
  | Own c => Some (ChainConfig.chainId c)
  | Inherited _ => None
  end.

Definition Property_jpycAddress (chainConfig : Property ChainConfig.t) : option JSString :=
  match chainConfig with
  | Own c => Some (ChainConfig.jpycAddress c)
  | Inherited _ => None
  end.

Definition EIP681_SCHEME : JSString := str "ethereum".

Definition TRANSFER_FUNCTION : JSString := str "transfer".

(** [ADDRESS_REGEX.test(address)] for [/^0x[a-fA-F0-9]{40}$/] *)
Definition ADDRESS_REGEX_test (address : JSString) : bool :=
  startsWith address (str "0x")
  && (length (skipn 2 address) =? 40)%nat && forallb is_hex (skipn 2 address).

Definition MAX_SAFE_AMOUNT : JSNumber := num (10 ^ 15).

(* ================================================================== *)
(** * [checksum.ts] *)

(** [byte.toString(16).padStart(2, '0')] *)
Definition hex_digit (d : N) : CodeUnit :=
  if (d <? 10)%N then (48 + d)%N else (87 + d)%N.

Definition byteToHex (byte : N) : JSString :=
  [hex_digit (byte / 16); hex_digit (byte mod 16)].

Definition bytesToHex (bytes : list N) : JSString := flat_map byteToHex bytes.

(** The loop of [toChecksumAddress]: character [i] of the address with
    character [i] of the hash; an index past the end of either is skipped
    by [continue]. *)
Fixpoint checksum_chars (lowerCaseAddress hashHex : JSString) : JSString :=
  match lowerCaseAddress, hashHex with
  | char :: address', hashChar :: hash' =>
      let upper := match radix_digit 16 hashChar with
                   | Some hashValue => (8 <=? hashValue)%N
                   | None => false
                   end in
      (if upper then toUpperCase_unit char else char) :: checksum_chars address' hash'
  | _, _ => []
  end.

Definition toChecksumAddress (address : JSString) : Result JSString :=
  if negb (startsWith address (str "0x")) then
    Throw (JPYCPaymentError (str "アドレスは0xで始まる必要があります")
                            INVALID_ADDRESS (DetailsAddress address))
  else if negb (length address =? 42)%nat then
    Throw (JPYCPaymentError
             (str "アドレスは42文字（0x + 40文字の16進数）である必要があります")
             INVALID_ADDRESS (DetailsAddressLength address (length address)))
  else if negb (ADDRESS_REGEX_test address) then
    Throw (JPYCPaymentError (str "アドレスは16進数文字のみを含む必要があります")
                            INVALID_ADDRESS (DetailsAddress address))
  else
    let lowerCaseAddress := toLowerCase (skipn 2 address) in
    let hash := Keccak.keccak_256 (utf8ToBytes lowerCaseAddress) in
    let hashHex := bytesToHex hash in
    Ok (str "0x" ++ checksum_chars lowerCaseAddress hashHex).

Definition isValidChecksumAddress (address : JSString) : bool :=
  match toChecksumAddress address with
  | Ok checksummed => JSString_eqb address checksummed
  | Throw _ => false
  end.

Definition isValidAddressFormat (address : JSString) : bool :=
  ADDRESS_REGEX_test address.

(* ================================================================== *)
(** * [encoder.ts] *)

(** An amount is a [number] or a [string]. *)
Inductive Amount : Type :=
| AmountNumber (n : JSNumber)
| AmountString (s : JSString).

(** [amount.toString()] *)
Definition Amount_toString (amount : Amount) : JSString :=
  match amount with
  | AmountString s => s
  | AmountNumber n => Number_toString n
  end.

(** [decimals < 0 || decimals > 18 || !Number.isInteger(decimals)] *)
Definition decimals_out_of_range (decimals : JSNumber) : bool :=
  Number_lt decimals (num 0) || Number_gt decimals (num 18)
  || negb (Number_isInteger decimals).

(** A number that passed the check above, as a length. *)
Definition Number_to_nat (x : JSNumber) : nat :=
  match x with
  | Finite q => Z.to_nat (Qfloor q)
  | _ => 0
  end.

Definition decimals_error (decimals : JSNumber) : Thrown :=
  JPYCPaymentError
    (str "decimalsは0から18の整数である必要があります: " ++ Number_toString decimals)
    INVALID_DECIMALS NoDetails.

(** [x || d] for strings: the empty string is falsy. *)
Definition or_default (x d : JSString) : JSString :=
  match x with
  | [] => d
  | _ => x
  end.

Definition jpyToWei (amount : Amount) (decimals : JSNumber) : Result JSString :=
  if decimals_out_of_range decimals then Throw (decimals_error decimals)
  else
    let amountStr := Amount_toString amount in
    if startsWith amountStr (str "-") then
      Throw (JPYCPaymentError (str "金額を負の数にすることはできません")
                              INVALID_AMOUNT (DetailsAmount amountStr))
    else
      let amountNum := parseFloat amountStr in
      if Number_isNaN amountNum then
        Throw (JPYCPaymentError (str "無効な金額形式です: " ++ amountStr)
                                INVALID_AMOUNT (DetailsAmount amountStr))
      else if negb (Number_isFinite amountNum) then
        Throw (JPYCPaymentError (str "金額は有限の数値である必要があります")
                                INVALID_AMOUNT (DetailsAmount amountStr))
      else
        let decimalCount := count_matches 46 amountStr in
        if (1 <? decimalCount)%nat then
          Throw (JPYCPaymentError
                   (str "金額に小数点が複数含まれています: " ++ amountStr)
                   INVALID_AMOUNT (DetailsAmount amountStr))
        else
          let parts := split 46 amountStr in
          let intPart := or_default (nth 0 parts []) (str "0") in
          let decPart := or_default (nth 1 parts []) (str "") in
          let paddedDec :=
            slice0 (padEnd decPart (Number_to_nat decimals) 48)
                   (Number_to_nat decimals) in
          match StringToBigInt (intPart ++ paddedDec) with
          | Some weiAmount => Ok (BigInt_toString weiAmount)
          | None => Throw SyntaxError
          end.

(** [s.replace(/0+$/, '')] *)
Fixpoint dropWhile (p : CodeUnit -> bool) (s : JSString) : JSString :=
  match s with
  | c :: s' => if p c then dropWhile p s' else s
  | [] => []
  end.

Definition strip_trailing_zeros (s : JSString) : JSString :=
  rev (dropWhile (N.eqb 48) (rev s)).

Definition weiToJpy (weiAmount : JSString) (decimals : JSNumber) : Result JSString :=
  if decimals_out_of_range decimals then Throw (decimals_error decimals)
  else
    match StringToBigInt weiAmount with
    | None => Throw SyntaxError
    | Some wei =>
        let divisor := (10 ^ Z.of_nat (Number_to_nat decimals))%Z in
        let intPart := Z.quot wei divisor in
        let remainder := Z.rem wei divisor in
        let decPart := padStart (BigInt_toString remainder) (Number_to_nat decimals) 48 in
        let trimmedDecPart := strip_trailing_zeros decPart in
        match trimmedDecPart with
        | [] => Ok (BigInt_toString intPart)
        | _ => Ok (BigInt_toString intPart ++ str "." ++ trimmedDecPart)
        end
    end.

Definition encodeEIP681 (contractAddress recipientAddress amount : JSString)
  (chainId : JSNumber) : Result JSString :=
  try_catch
    (checksummedContract <- toChecksumAddress contractAddress ;;
     checksummedRecipient <- toChecksumAddress recipientAddress ;;
     let uri :=
       EIP681_SCHEME ++ str ":" ++ checksummedContract ++ str "@"
       ++ Number_toString chainId ++ str "/" ++ TRANSFER_FUNCTION
       ++ str "?address=" ++ checksummedRecipient ++ str "&uint256=" ++ amount in
     Ok uri)
    (fun error =>
       match error with
       | JPYCPaymentError _ _ _ => Throw error
       | _ => Throw (JPYCPaymentError (str "EIP-681 URIのエンコードに失敗しました")
                                      ENCODING_FAILED (DetailsError error))
       end).

(** [`${chainId}`] when the chain id may be [undefined]. *)
Definition template_chainId (chainId : option JSNumber) : JSString :=
  match chainId with
  | Some n => Number_toString n
  | None => str "undefined"
  end.

(** [encodeEIP681] as it runs when [generatePaymentURI] calls it: the
    parameter types are not checked at run time, and the contract address
    and the chain id may be [undefined]. [toChecksumAddress(undefined)] is
    the [TypeError] of [address.startsWith], which the [catch] block wraps;
    an [undefined] chain id is written as it prints. On a contract address
    and a chain id that are defined this is [encodeEIP681]. *)
Definition encodeEIP681_untyped (contractAddress : option JSString)
  (recipientAddress amount : JSString) (chainId : option JSNumber) : Result JSString :=
  try_catch
    (checksummedContract <- (address <- present contractAddress ;;
                             toChecksumAddress address) ;;
     checksummedRecipient <- toChecksumAddress recipientAddress ;;
     let uri :=
       EIP681_SCHEME ++ str ":" ++ checksummedContract ++ str "@"
       ++ template_chainId chainId ++ str "/" ++ TRANSFER_FUNCTION
       ++ str "?address=" ++ checksummedRecipient ++ str "&uint256=" ++ amount in
     Ok uri)
    (fun error =>
       match error with
       | JPYCPaymentError _ _ _ => Throw error
       | _ => Throw (JPYCPaymentError (str "EIP-681 URIのエンコードに失敗しました")
                                      ENCODING_FAILED (DetailsError error))
       end).

Module DecodedEIP681.
Record t : Type := {
  scheme : JSString;
  contractAddress : JSString;
  chainId : JSNumber;
  functionName : JSString;
  recipientAddress : JSString;
  amount : JSString
}.
End DecodedEIP681.

(** A match result whose group 1 is missing or empty throws. *)
Definition required (m : option JSString) (message : JSString) : Result JSString :=
  match m with
  | Some ((_ :: _) as g) => Ok g
  | _ => Throw (Error message)
  end.

Definition decodeEIP681 (uri : JSString) : Result DecodedEIP681.t :=
  try_catch
    (scheme <- required (match_run_here (is_not 58) 58 uri)
                        (str "スキームが見つかりません") ;;
     contractAddress <- required (match_run 58 (is_not 64) 64 uri)
                                 (str "コントラクトアドレスが見つかりません") ;;
     chainIdMatch <- required (match_run 64 is_digit 47 uri)
                              (str "チェーンIDが見つかりません") ;;
     let chainId := parseInt10 chainIdMatch in
     functionName <- required (match_run 47 (is_not 63) 63 uri)
                              (str "関数名が見つかりません") ;;
     queryString <- required (nth_error (split 63 uri) 1)
                             (str "クエリパラメータが見つかりません") ;;
     let params := URLSearchParams queryString in
     let recipientAddress := URLSearchParams_get params (str "address") in
     let amount := URLSearchParams_get params (str "uint256") in
     recipientAddress <- required recipientAddress (str "受取アドレスが見つかりません") ;;
     amount <- required amount (str "金額が見つかりません") ;;
     Ok {| DecodedEIP681.scheme := scheme;
           DecodedEIP681.contractAddress := contractAddress;
           DecodedEIP681.chainId := chainId;
           DecodedEIP681.functionName := functionName;
           DecodedEIP681.recipientAddress := recipientAddress;
           DecodedEIP681.amount := amount |})
    (fun error =>
       Throw (JPYCPaymentError (str "EIP-681 URIのデコードに失敗しました")
                               ENCODING_FAILED (DetailsUriError uri error))).

(* ================================================================== *)
(** * [types.ts] *)

(** The options of a payment URI. The type declares [merchantAddress] and
    [amount] as present; the validator checks for their absence and the
    tests pass objects without them, so every field is optional here:
    [None] is [undefined] (or [null]). *)
Module PaymentURIOptions.
Record t : Type := {
  merchantAddress : option JSString;
  amount : option Amount;
  network : option JSString;
  jpycContractAddress : option JSString;
  decimals : option JSNumber
}.
End PaymentURIOptions.

Module Warning.
Record t : Type := {
  code : JSString;
  message : JSString
}.
End Warning.

Module ValidationResult.
Record t : Type := {
  valid : bool;
  errors : list JSString;
  warnings : list Warning.t
}.
End ValidationResult.

Module PaymentURIResult.
Record t : Type := {
  uri : JSString;
  chainId : option JSNumber;
  network : JSString;
  jpycContractAddress : JSString;
  amountWei : JSString;
  amountJPY : JSString;
  decimals : JSNumber;
  warnings : list Warning.t
}.
End PaymentURIResult.

(* ================================================================== *)
(** * [validator.ts] *)

(** [list.join(sep)] *)
Fixpoint join (sep : JSString) (l : list JSString) : JSString :=
  match l with
  | [] => []
  | [x] => x
  | x :: l' => x ++ sep ++ join sep l'
  end.

(** [!s] for an optional string: [undefined] and the empty string. *)
Definition falsy (s : option JSString) : bool :=
  match s with
  | None | Some [] => true
  | Some (_ :: _) => false
  end.

(** The check of [merchantAddress]: the errors it pushes. *)
Definition validate_merchantAddress (merchantAddress : option JSString) : list JSString :=
  match merchantAddress with
  | None | Some [] => [str "merchantAddressは必須です"]
  | Some address =>
      if negb (isValidAddressFormat address) then
        [str "無効な加盟店アドレス形式です: " ++ address
         ++ str "。0xで始まる42文字の16進数である必要があります"]
      else []
  end.

(** The check of [amount]: the errors and the warnings it pushes. *)
Definition validate_amount (amount : option Amount) : list JSString * list Warning.t :=
  match amount with
  | None | Some (AmountString []) => ([str "amountは必須です"], [])
  | Some amount =>
      let amountNum := match amount with
                       | AmountString s => parseFloat s
                       | AmountNumber n => n
                       end in
      let errors :=
        if Number_isNaN amountNum then
          [str "無効な金額形式です: " ++ Amount_toString amount]
        else if Number_le amountNum (num 0) then
          [str "金額は正の数である必要があります: " ++ Number_toString amountNum]
        else if negb (Number_isFinite amountNum) then
          [str "金額は有限の数値である必要があります"]
        else if Number_gt amountNum MAX_SAFE_AMOUNT then
          [str "金額が大きすぎます: " ++ Number_toString amountNum
           ++ str "。最大値は " ++ Number_toString MAX_SAFE_AMOUNT ++ str " JPYです"]
        else [] in
      let small :=
        if Number_lt amountNum (num 1) && Number_gt amountNum (num 0) then
          [ {| Warning.code := str "SMALL_AMOUNT";
               Warning.message :=
                 str "金額が1 JPY未満です: " ++ Number_toString amountNum
                 ++ str "。意図した金額か確認してください" |} ]
        else [] in
      let large :=
        if Number_gt amountNum (num 1000000) then
          [ {| Warning.code := str "LARGE_AMOUNT";
               Warning.message :=
                 str "金額が100万JPYを超えています: " ++ Number_toString amountNum
                 ++ str "。意図した金額か確認してください" |} ]
        else [] in
      (errors, small ++ large)
  end.

Definition validate_network (network : option JSString) : list JSString :=
  match network with
  | None => []
  | Some network =>
      match get CHAIN_CONFIGS network with
      | None =>
          [str "サポートされていないネットワークです: " ++ network ++ str "。"
           ++ str "サポートされているネットワーク: "
           ++ join (str ", ") (map fst CHAIN_CONFIGS)]
      | Some _ => []
      end
  end.

Definition validate_jpycContractAddress (jpycContractAddress : option JSString)
  : list JSString * list Warning.t :=
  match jpycContractAddress with
  | None => ([], [])
  | Some address =>
      if negb (isValidAddressFormat address) then
        ([str "無効なコントラクトアドレス形式です: " ++ address
          ++ str "。0xで始まる42文字の16進数である必要があります"], [])
      else
        ([], [ {| Warning.code := str "CUSTOM_CONTRACT";
                  Warning.message :=
                    str "カスタムコントラクトアドレスが指定されています。"
                    ++ str "正しいJPYCコントラクトアドレスであることを確認してください" |} ])
  end.

Definition validate_decimals (decimals : option JSNumber)
  (jpycContractAddress : option JSString) : list JSString * list Warning.t :=
  match decimals with
  | None => ([], [])
  | Some decimals =>
      let range :=
        if negb (Number_isInteger decimals) || Number_lt decimals (num 0)
           || Number_gt decimals (num 18)
        then [str "decimalsは0から18の整数である必要があります: "
              ++ Number_toString decimals]
        else [] in
      let paired :=
        if falsy jpycContractAddress
        then [str "decimalsはjpycContractAddressと併用する場合のみ指定できます"]
        else [] in
      let custom :=
        if negb (Number_eq decimals (num 18)) then
          [ {| Warning.code := str "CUSTOM_DECIMALS";
               Warning.message :=
                 str "非標準のdecimalsが指定されています: " ++ Number_toString decimals
                 ++ str "。コントラクトと一致することを確認してください" |} ]
        else [] in
      (range ++ paired, custom)
  end.

(** [validateGenerateOptions]: the five checks in the order of the source,
    each pushing onto the two lists. *)
Definition validateGenerateOptions (options : PaymentURIOptions.t) : ValidationResult.t :=
  let errors := [] in
  let warnings := [] in
  let errors := errors ++ validate_merchantAddress (PaymentURIOptions.merchantAddress options) in
  let '(e, w) := validate_amount (PaymentURIOptions.amount options) in
  let errors := errors ++ e in
  let warnings := warnings ++ w in
  let errors := errors ++ validate_network (PaymentURIOptions.network options) in
  let '(e, w) := validate_jpycContractAddress (PaymentURIOptions.jpycContractAddress options) in
  let errors := errors ++ e in
  let warnings := warnings ++ w in
  let '(e, w) := validate_decimals (PaymentURIOptions.decimals options)
                                   (PaymentURIOptions.jpycContractAddress options) in
  let errors := errors ++ e in
  let warnings := warnings ++ w in
  {| ValidationResult.valid := (length errors =? 0)%nat;
     ValidationResult.errors := errors;
     ValidationResult.warnings := warnings |}.

Definition isValidAddress (address : JSString) : bool := ADDRESS_REGEX_test address.

Definition isValidAmount (amount : Amount) : bool :=
  let amountNum := match amount with
                   | AmountString s => parseFloat s
                   | AmountNumber n => n
                   end in
  negb (Number_isNaN amountNum) && Number_isFinite amountNum
  && Number_gt amountNum (num 0) && Number_le amountNum MAX_SAFE_AMOUNT.

(* ================================================================== *)
(** * [uri-generator.ts] *)

(** The merchant address and the amount are read with [present]: the
    validator has found them. [CHAIN_CONFIGS[network]] may be an inherited
    member of [Object.prototype], which is truthy: the contract address (if
    the options give none) and the chain id are then [undefined], and go to
    [encodeEIP681] as they are. The contract address of the record is a
    string: where it is [undefined], [encodeEIP681] has thrown. *)
Definition generatePaymentURI (options : PaymentURIOptions.t) : Result PaymentURIResult.t :=
  let validation := validateGenerateOptions options in
  if negb (ValidationResult.valid validation) then
    Throw (JPYCPaymentError
             (str "バリデーションに失敗しました: "
              ++ join (str ", ") (ValidationResult.errors validation))
             VALIDATION_FAILED
             (DetailsErrors (ValidationResult.errors validation)))
  else
    let network := match PaymentURIOptions.network options with
                   | Some n => n
                   | None => DEFAULT_NETWORK
                   end in
    match get CHAIN_CONFIGS network with
    | None =>
        Throw (JPYCPaymentError
                 (str "サポートされていないネットワークです: " ++ network)
                 INVALID_NETWORK NoDetails)
    | Some chainConfig =>
        let jpycAddress := match PaymentURIOptions.jpycContractAddress options with
                           | Some a => Some a
                           | None => Property_jpycAddress chainConfig
                           end in
        let decimals := match PaymentURIOptions.decimals options with
                        | Some d => d
                        | None => JPYC_DECIMALS
                        end in
        amount <- present (PaymentURIOptions.amount options) ;;
        amountWei <- jpyToWei amount decimals ;;
        merchantAddress <- present (PaymentURIOptions.merchantAddress options) ;;
        uri <- encodeEIP681_untyped jpycAddress merchantAddress amountWei
                                    (Property_chainId chainConfig) ;;
        jpycAddress <- present jpycAddress ;;
        Ok {| PaymentURIResult.uri := uri;
              PaymentURIResult.chainId := Property_chainId chainConfig;
              PaymentURIResult.network := network;
              PaymentURIResult.jpycContractAddress := jpycAddress;
              PaymentURIResult.amountWei := amountWei;
              PaymentURIResult.amountJPY := Amount_toString amount;
              PaymentURIResult.decimals := decimals;
              PaymentURIResult.warnings := ValidationResult.warnings validation |}
    end.

(* ================================================================== *)
(** * [qr-generator.ts]

    The functions of this module are [async]: each is modelled by the
    outcome of the promise it returns, fulfilled with a value or rejected
    with what was thrown. The images are drawn by the package [qrcode],
    which is not part of the repository: its three functions are the
    parameters of the section, each returning its own outcome. *)

(** [types.ts]: the options of a QR code, every one optional. *)
Module QRColor.
Record t : Type := {
  dark : option JSString;
  light : option JSString
}.
End QRColor.

Module QRCodeOptions.
Record t : Type := {
  errorCorrectionLevel : option JSString;
  width : option JSNumber;
  margin : option JSNumber;
  color : option QRColor.t
}.
End QRCodeOptions.

(** The options handed to the package, every one present. *)
Module MergedColor.
Record t : Type := {
  dark : JSString;
  light : JSString
}.
End MergedColor.

Module MergedOptions.
Record t : Type := {
  errorCorrectionLevel : JSString;
  width : JSNumber;
  margin : JSNumber;
  color : MergedColor.t
}.
End MergedOptions.

Module QRCodeResult.
Record t : Type := {
  data : JSString;
  format : JSString;
  uri : JSString
}.
End QRCodeResult.

(** What the module rejects with: something thrown below it, or its own
    [JPYCPaymentError] for an output format it does not know, whose detail
    object holds the format. *)
Inductive QRThrown : Type :=
| Below (thrown : Thrown)
| JPYCPaymentError_format (message : JSString) (code : JPYCPaymentErrorCode)
                          (format : JSString).

Inductive Promise (A : Type) : Type :=
| Fulfilled (value : A)
| Rejected (thrown : QRThrown).

Arguments Fulfilled {A} value.
Arguments Rejected {A} thrown.

(** [await] on a call of the layers below. *)
Definition await {A : Type} (r : Result A) : Promise A :=
  match r with
  | Ok a => Fulfilled a
  | Throw e => Rejected (Below e)
  end.

Definition then_ {A B : Type} (p : Promise A) (k : A -> Promise B) : Promise B :=
  match p with
  | Fulfilled a => k a
  | Rejected e => Rejected e
  end.

(** [error instanceof JPYCPaymentError] *)
Definition instanceof_JPYCPaymentError (error : QRThrown) : bool :=
  match error with
  | Below (JPYCPaymentError _ _ _) => true
  | JPYCPaymentError_format _ _ _ => true
  | Below _ => false
  end.

(** The [catch] block of the four functions: a [JPYCPaymentError] is thrown
    again as it is, anything else is wrapped. *)
Definition catch_QR {A : Type} (body : Promise A) (message : JSString) : Promise A :=
  match body with
  | Fulfilled a => Fulfilled a
  | Rejected (Below error) =>
      if instanceof_JPYCPaymentError (Below error) then Rejected (Below error)
      else Rejected (Below (JPYCPaymentError message QR_GENERATION_FAILED
                                             (DetailsError error)))
  | Rejected error => Rejected error
  end.

Definition DEFAULT_QR_OPTIONS : MergedOptions.t :=
  {| MergedOptions.errorCorrectionLevel := str "M";
     MergedOptions.width := num 300;
     MergedOptions.margin := num 4;
     MergedOptions.color := {| MergedColor.dark := str "#000000";
                               MergedColor.light := str "#ffffff" |} |}.

(** [x ?? d] *)
Definition nullish {A : Type} (x : option A) (d : A) : A :=
  match x with
  | Some a => a
  | None => d
  end.

(** [mergedOptions], the same expression in three functions. *)
Definition mergedOptions (qrOptions : option QRCodeOptions.t) : MergedOptions.t :=
  let field {A B : Type} (o : option A) (f : A -> option B) : option B :=
    match o with
    | Some a => f a
    | None => None
    end in
  let color := field qrOptions QRCodeOptions.color in
  {| MergedOptions.errorCorrectionLevel :=
       nullish (field qrOptions QRCodeOptions.errorCorrectionLevel)
               (MergedOptions.errorCorrectionLevel DEFAULT_QR_OPTIONS);
     MergedOptions.width :=
       nullish (field qrOptions QRCodeOptions.width)
               (MergedOptions.width DEFAULT_QR_OPTIONS);
     MergedOptions.margin :=
       nullish (field qrOptions QRCodeOptions.margin)
               (MergedOptions.margin DEFAULT_QR_OPTIONS);
     MergedOptions.color :=
       {| MergedColor.dark :=
            nullish (field color QRColor.dark)
                    (MergedColor.dark (MergedOptions.color DEFAULT_QR_OPTIONS));
          MergedColor.light :=
            nullish (field color QRColor.light)
                    (MergedColor.light (MergedOptions.color DEFAULT_QR_OPTIONS)) |} |}.

Section QRGenerator.

(** [QRCode.toDataURL(text, options)], [QRCode.toString(text, {...options,
    type})] and [QRCode.toBuffer(text, {...options, type})]. *)
Variable QRCode_toDataURL : JSString -> MergedOptions.t -> Result JSString.
Variable QRCode_toString : JSString -> MergedOptions.t -> JSString -> Result JSString.
Variable QRCode_toBuffer : JSString -> MergedOptions.t -> JSString -> Result (list N).

(** The [switch] on the output format, the same in two functions. *)
Definition switch_format (uri format : JSString) (mergedOptions : MergedOptions.t)
  : Promise JSString :=
  if JSString_eqb format (str "png") then
    await (QRCode_toDataURL uri mergedOptions)
  else if JSString_eqb format (str "svg") then
    await (QRCode_toString uri mergedOptions (str "svg"))
  else if JSString_eqb format (str "utf8") then
    await (QRCode_toString uri mergedOptions (str "utf8"))
  else if JSString_eqb format (str "terminal") then
    await (QRCode_toString uri mergedOptions (str "terminal"))
  else
    Rejected (JPYCPaymentError_format
                (str "サポートされていない出力フォーマットです: " ++ format)
                QR_GENERATION_FAILED format).

(** The parameter [format] has the default ['png']: [None] is [undefined]. *)
Definition generatePaymentQRWithFormat (options : PaymentURIOptions.t)
  (format : option JSString) (qrOptions : option QRCodeOptions.t)
  : Promise QRCodeResult.t :=
  let format := nullish format (str "png") in
  catch_QR
    (then_ (await (generatePaymentURI options)) (fun uriResult =>
     let mergedOptions := mergedOptions qrOptions in
     then_ (switch_format (PaymentURIResult.uri uriResult) format mergedOptions)
           (fun data =>
     Fulfilled {| QRCodeResult.data := data;
                  QRCodeResult.format := format;
                  QRCodeResult.uri := PaymentURIResult.uri uriResult |})))
    (str "QRコードの生成に失敗しました").

Definition generatePaymentQR (options : PaymentURIOptions.t)
  (qrOptions : option QRCodeOptions.t) : Promise QRCodeResult.t :=
  generatePaymentQRWithFormat options (Some (str "png")) qrOptions.

Definition generatePaymentQRBuffer (options : PaymentURIOptions.t)
  (qrOptions : option QRCodeOptions.t) : Promise (list N) :=
  catch_QR
    (then_ (await (generatePaymentURI options)) (fun uriResult =>
     let mergedOptions := mergedOptions qrOptions in
     then_ (await (QRCode_toBuffer (PaymentURIResult.uri uriResult) mergedOptions
                                   (str "png")))
           (fun buffer => Fulfilled buffer)))
    (str "QRコード（バッファ形式）の生成に失敗しました").

Definition generateQRFromURI (uri : JSString) (format : option JSString)
  (qrOptions : option QRCodeOptions.t) : Promise QRCodeResult.t :=
  let format := nullish format (str "png") in
  catch_QR
    (let mergedOptions := mergedOptions qrOptions in
     then_ (switch_format uri format mergedOptions) (fun data =>
     Fulfilled {| QRCodeResult.data := data;
                  QRCodeResult.format := format;
                  QRCodeResult.uri := uri |}))
    (str "QRコードの生成に失敗しました").

End QRGenerator.

(* ================================================================== *)
(** * Vocabulary of the specification

    What the claims are stated with: the decimal strings and their
    canonical form, the parts of an identifier, the fields of a decoded
    record. None of it is part of the program. *)

(** A lower-case hexadecimal digit. *)
Definition is_lower_hex (c : CodeUnit) : bool :=
  (is_digit c || ((97 <=? c) && (c <=? 102)))%N.

(** The characters of the Keccak-256 hash of a lower-cased address. *)
Definition hashHex_of (lowerCaseAddress : JSString) : JSString :=
  bytesToHex (Keccak.keccak_256 (utf8ToBytes lowerCaseAddress)).

(** The decimal strings of the specification: digits, at most one
    fractional separator, at least one digit. [int_part] and [frac_part]
    are the digits before and after the separator. *)
Definition int_part (A : JSString) : JSString := fst (span is_digit A).

Definition frac_part (A : JSString) : JSString :=
  match snd (span is_digit A) with
  | c :: f => if (c =? 46)%N then f else []
  | [] => []
  end.

Definition is_decimal (A : JSString) : bool :=
  match snd (span is_digit A) with
  | [] => true
  | c :: f => (c =? 46)%N && forallb is_digit f
  end
  && negb (length (int_part A ++ frac_part A) =? 0).

(** The value of a decimal string, a rational. *)
Definition decimal_value_Q (A : JSString) : Q :=
  inject_Z (Z.of_N (digits_value (int_part A ++ frac_part A)))
  / inject_Z (10 ^ Z.of_nat (length (frac_part A))).

(** The canonical form of a decimal string: no leading zero in the integer
    part beyond a single one, no trailing zero in the fractional part, no
    separator when the fractional part is empty. *)
Definition canonical (A : JSString) : JSString :=
  let i := match dropWhile (N.eqb 48) (int_part A) with
           | [] => [48%N]
           | t => t
           end in
  match strip_trailing_zeros (frac_part A) with
  | [] => i
  | f => i ++ 46%N :: f
  end.

(** The digits that [jpyToWei] hands to [BigInt] for a decimal string. *)
Definition scaled_digits (A : JSString) (p : nat) : JSString :=
  or_default (int_part A) (str "0") ++ slice0 (padEnd (frac_part A) p 48%N) p.

(** The decimal [10^309]: a one and 309 zeros. *)
Definition ten_to_the_309 : JSString := 49%N :: repeat 48%N 309.

(** The characters of an address and of an amount: letters and digits,
    which no step of the form parser changes. *)
Definition is_alnum (c : CodeUnit) : bool :=
  (is_digit c || ((65 <=? c) && (c <=? 90)) || ((97 <=? c) && (c <=? 122)))%N.

Definition is_ascii (c : CodeUnit) : bool := (c <? 128)%N.

(** The parts of an identifier between its delimiters. *)
Definition identifier (contract chain recipient amount : JSString) : JSString :=
  str "ethereum" ++ 58%N :: contract ++ 64%N :: chain ++ 47%N :: str "transfer"
  ++ 63%N :: str "address=" ++ recipient ++ 38%N :: str "uint256=" ++ amount.

(** The fields of an identifier, as the patterns of [decodeEIP681] look for
    them: anywhere in the string, between two delimiters, not empty, and
    made of the characters of a class. [occurs L C R uri]: somewhere in
    [uri] stands [L], then a non-empty run of [C], then [R]. *)
Definition occurs (L : CodeUnit) (C : CodeUnit -> bool) (R : CodeUnit)
  (uri : JSString) : Prop :=
  exists pre g post,
    uri = pre ++ L :: g ++ R :: post /\ g <> [] /\ forallb C g = true.

(** The scheme: what stands before the first [":"], not empty. *)
Definition scheme_present (uri : JSString) : Prop :=
  exists g post, uri = g ++ 58%N :: post /\ g <> [] /\ forallb (is_not 58) g = true.

(** A query parameter: the first value under its name in what follows the
    first ["?"]; it is missing when there is none or when it is empty. *)
Definition query_parameter (uri name : JSString) : option JSString :=
  match nth_error (split 63 uri) 1 with
  | Some ((_ :: _) as queryString) =>
      URLSearchParams_get (URLSearchParams queryString) name
  | _ => None
  end.

Definition parameter_missing (uri name : JSString) : Prop :=
  query_parameter uri name = None \/ query_parameter uri name = Some [].

(** A decoded record with every field present. *)
Definition complete (d : DecodedEIP681.t) : Prop :=
  DecodedEIP681.scheme d <> []
  /\ DecodedEIP681.contractAddress d <> []
  /\ Number_isNaN (DecodedEIP681.chainId d) = false
  /\ DecodedEIP681.functionName d <> []
  /\ DecodedEIP681.recipientAddress d <> []
  /\ DecodedEIP681.amount d <> [].

(** A negative amount, as the converter receives it: a number below zero, or
    a string that starts with the sign. *)
Definition negative_amount (amount : Amount) : bool :=
  match amount with
  | AmountNumber x => Number_lt x (num 0)
  | AmountString s => startsWith s (str "-")
  end.

(** The number the validator reads in an amount. *)
Definition amount_number (amount : Amount) : JSNumber :=
  match amount with
  | AmountString s => parseFloat s
  | AmountNumber n => n
  end.

(** A letter of the Latin alphabet. *)
Definition is_letter (c : CodeUnit) : bool :=
  (((65 <=? c) && (c <=? 90)) || ((97 <=? c) && (c <=? 122)))%N.

(** Options with a merchant address and an amount only. *)
Definition basic_options (merchantAddress : JSString) (amount : Amount)
  : PaymentURIOptions.t :=
  {| PaymentURIOptions.merchantAddress := Some merchantAddress;
     PaymentURIOptions.amount := Some amount;
     PaymentURIOptions.network := None;
     PaymentURIOptions.jpycContractAddress := None;
     PaymentURIOptions.decimals := None |}.

(** The codes of the warnings that the validator reports for [options]. *)
Definition warning_codes (options : PaymentURIOptions.t) : list JSString :=
  map Warning.code (ValidationResult.warnings (validateGenerateOptions options)).

(** The names of the supported networks. *)
Definition supported_network (network : JSString) : Prop :=
  network = str "ethereum" \/ network = str "polygon" \/ network = str "avalanche".

(** A precision that is one of the integers 0 to 18. *)
Definition precision (decimals : JSNumber) (p : Z) : Prop :=
  (0 <= p <= 18)%Z /\ Number_eq decimals (num p) = true.

(** A string that, after its leading white space, does not start with the
    sign, and whose separator, if it comes first, is followed by a digit:
    what a positive amount looks like to the converter. *)
Definition unsigned_head (s : JSString) : Prop :=
  exists ws c r,
    s = ws ++ c :: r
    /\ forallb is_whitespace ws = true /\ is_whitespace c = false
    /\ c <> 45%N
    /\ (c = 46%N -> exists d r', r = d :: r' /\ is_digit d = true).

(** The output formats that the QR functions know. *)
Definition supported_format (format : JSString) : Prop :=
  format = str "png" \/ format = str "svg" \/ format = str "utf8"
  \/ format = str "terminal".

(** A string of the shape of an identifier, with any scheme, function name
    and query. *)
Definition shaped (scheme contract chain function query : JSString) : JSString :=
  scheme ++ 58%N :: contract ++ 64%N :: chain ++ 47%N :: function ++ 63%N :: query.

(* ================================================================== *)
(** * Properties *)

(** Boolean tests on code units, turned into arithmetic. *)
Ltac to_arith :=
  repeat match goal with
         | H : _ && _ = true |- _ => apply andb_true_iff in H; destruct H
         | H : _ || _ = true |- _ => apply orb_true_iff in H; destruct H
         | H : _ && _ = false |- _ => apply andb_false_iff in H; destruct H
         | H : _ || _ = false |- _ => apply orb_false_iff in H; destruct H
         | H : negb _ = true |- _ => apply negb_true_iff in H
         | H : negb _ = false |- _ => apply negb_false_iff in H
         | H : (_ <=? _)%N = true |- _ => apply N.leb_le in H
         | H : (_ <=? _)%N = false |- _ => apply N.leb_gt in H
         | H : (_ <? _)%N = true |- _ => apply N.ltb_lt in H
         | H : (_ <? _)%N = false |- _ => apply N.ltb_ge in H
         | H : (_ =? _)%N = true |- _ => apply N.eqb_eq in H
         | H : (_ =? _)%N = false |- _ => apply N.eqb_neq in H
         end.

(** Decide a boolean test on code units by cases: on the conditions of the
    goal first, then on its comparisons. *)
Ltac case_if :=
  match goal with
  | |- context [if ?b then _ else _] => destruct b eqn:?
  end.

Ltac by_cases :=
  repeat case_if; to_arith;
  repeat match goal with
         | |- context [(?a <=? ?b)%N] => destruct (N.leb_spec a b)
         | |- context [(?a <? ?b)%N] => destruct (N.ltb_spec a b)
         | |- context [(?a =? ?b)%N] => destruct (N.eqb_spec a b)
         end;
  simpl; try reflexivity; try discriminate; try lia.

(** One goal for each element of a concrete list [H : In c [...]]. *)
Ltac each_case H :=
  cbn [In] in H;
  repeat (destruct H as [<- | H]); [.. | destruct H].

Lemma str_0x : str "0x" = [48%N; 120%N].
Proof. reflexivity. Qed.

(** ** The checksum engine *)

Section Checksum.

Lemma toLowerCase_unit_hex c :
  is_hex c = true -> is_lower_hex (toLowerCase_unit c) = true.
Proof.
  unfold is_hex, is_lower_hex, is_digit, toLowerCase_unit. intros H. to_arith; by_cases.
Qed.

Lemma toLowerCase_unit_lower c :
  is_lower_hex c = true -> toLowerCase_unit c = c.
Proof.
  unfold is_lower_hex, is_digit, toLowerCase_unit. intros H. to_arith; by_cases.
Qed.

Lemma toLowerCase_toUpperCase_unit c :
  is_lower_hex c = true -> toLowerCase_unit (toUpperCase_unit c) = c.
Proof.
  unfold is_lower_hex, is_digit, toLowerCase_unit, toUpperCase_unit. intros H.
  to_arith; by_cases.
Qed.

Lemma toUpperCase_unit_hex c :
  is_lower_hex c = true -> is_hex (toUpperCase_unit c) = true.
Proof.
  unfold is_lower_hex, is_hex, is_digit, toUpperCase_unit. intros H. to_arith; by_cases.
Qed.

Lemma is_lower_hex_is_hex c : is_lower_hex c = true -> is_hex c = true.
Proof.
  unfold is_lower_hex, is_hex. intros H. apply orb_true_iff in H.
  destruct H as [-> | ->]; [reflexivity |].
  rewrite orb_true_r. reflexivity.
Qed.

Lemma toLowerCase_lower_hex s :
  forallb is_hex s = true -> forallb is_lower_hex (toLowerCase s) = true.
Proof.
  induction s as [| c s IH]; simpl; [reflexivity |]. intros H.
  apply andb_true_iff in H. destruct H as [Hc Hs].
  rewrite (toLowerCase_unit_hex c Hc). simpl. auto.
Qed.

Lemma toLowerCase_idem s :
  forallb is_lower_hex s = true -> toLowerCase s = s.
Proof.
  induction s as [| c s IH]; simpl; [reflexivity |]. intros H.
  apply andb_true_iff in H. destruct H as [Hc Hs].
  rewrite (toLowerCase_unit_lower c Hc), IH by assumption. reflexivity.
Qed.

(** The loop keeps the length of the shorter argument, keeps hexadecimal
    digits hexadecimal, and changes nothing but the case. *)
Lemma checksum_chars_length lower hashHex :
  length lower <= length hashHex ->
  length (checksum_chars lower hashHex) = length lower.
Proof.
  revert hashHex. induction lower as [| c lower IH]; intros [| h hashHex];
    simpl; intros H; try reflexivity; try lia.
  f_equal. apply IH. lia.
Qed.

Lemma checksum_chars_hex lower hashHex :
  forallb is_lower_hex lower = true ->
  forallb is_hex (checksum_chars lower hashHex) = true.
Proof.
  revert hashHex. induction lower as [| c lower IH]; intros [| h hashHex];
    simpl; intros H; try reflexivity.
  apply andb_true_iff in H. destruct H as [Hc Hs].
  rewrite (IH hashHex Hs), andb_true_r.
  destruct (match radix_digit 16 h with Some v => (8 <=? v)%N | None => false end).
  - apply toUpperCase_unit_hex, Hc.
  - apply is_lower_hex_is_hex, Hc.
Qed.

Lemma checksum_chars_lower lower hashHex :
  forallb is_lower_hex lower = true ->
  length lower <= length hashHex ->
  toLowerCase (checksum_chars lower hashHex) = lower.
Proof.
  revert hashHex. induction lower as [| c lower IH]; intros [| h hashHex];
    simpl; intros H Hlen; try reflexivity; try lia.
  apply andb_true_iff in H. destruct H as [Hc Hs].
  rewrite (IH hashHex Hs) by lia. f_equal.
  destruct (match radix_digit 16 h with Some v => (8 <=? v)%N | None => false end).
  - apply toLowerCase_toUpperCase_unit, Hc.
  - apply toLowerCase_unit_lower, Hc.
Qed.

(** The hash has 32 bytes, so its rendering has 64 characters. *)
Lemma round_length st rc : length (Keccak.round st rc) = 25.
Proof.
  unfold Keccak.round, Keccak.iota.
  destruct (Keccak.chi (Keccak.rho_pi (Keccak.theta st))) as [| a l] eqn:E.
  - apply (f_equal (@length N)) in E. unfold Keccak.chi in E.
    rewrite length_map in E. discriminate E.
  - apply (f_equal (@length N)) in E. unfold Keccak.chi in E.
    rewrite length_map in E. simpl in *. exact (eq_sym E).
Qed.

Lemma keccak_f_length st : length st = 25 -> length (Keccak.keccak_f st) = 25.
Proof.
  unfold Keccak.keccak_f. generalize Keccak.round_constants as rcs.
  intros rcs. revert st. induction rcs as [| rc rcs IH]; simpl; intros st H.
  - exact H.
  - apply IH, round_length.
Qed.

Lemma xor_lanes_length st blk : length (Keccak.xor_lanes st blk) = length st.
Proof.
  revert blk. induction st as [| a st IH]; intros [| b blk]; simpl; auto.
Qed.

Lemma absorb_length blocks st bs :
  length st = 25 -> length (Keccak.absorb blocks st bs) = 25.
Proof.
  revert st bs. induction blocks as [| n IH]; simpl; intros st bs H.
  - exact H.
  - apply IH, keccak_f_length. rewrite xor_lanes_length. exact H.
Qed.

Lemma bytes_of_lane_length n w : length (Keccak.bytes_of_lane n w) = n.
Proof. revert w. induction n; simpl; intros; [reflexivity | f_equal; auto]. Qed.

Lemma keccak_256_length msg : length (Keccak.keccak_256 msg) = 32.
Proof.
  unfold Keccak.keccak_256.
  set (st := Keccak.absorb _ _ _).
  assert (H : length st = 25) by (apply absorb_length; reflexivity).
  destruct st as [| a [| b [| c [| d st]]]]; simpl in H; try discriminate H.
  reflexivity.
Qed.

Lemma bytesToHex_length bytes : length (bytesToHex bytes) = 2 * length bytes.
Proof. induction bytes as [| b bytes IH]; simpl; [reflexivity | lia]. Qed.

Lemma hashHex_of_length lower : length (hashHex_of lower) = 64.
Proof. unfold hashHex_of. rewrite bytesToHex_length, keccak_256_length. reflexivity. Qed.

(** A format-valid address is ["0x"] and forty hexadecimal digits. *)
Lemma ADDRESS_REGEX_test_inv address :
  ADDRESS_REGEX_test address = true ->
  exists digits, address = 48%N :: 120%N :: digits
                 /\ length digits = 40 /\ forallb is_hex digits = true.
Proof.
  unfold ADDRESS_REGEX_test. rewrite str_0x. intros H.
  destruct address as [| a [| b digits]];
    [discriminate H | cbn in H; rewrite andb_false_r in H; discriminate H |].
  cbn [startsWith skipn] in H.
  apply andb_true_iff in H. destruct H as [H Hhex].
  apply andb_true_iff in H. destruct H as [H Hlen].
  apply andb_true_iff in H. destruct H as [Ha Hb].
  apply andb_true_iff in Hb. destruct Hb as [Hb _].
  apply N.eqb_eq in Ha, Hb. subst a b.
  apply Nat.eqb_eq in Hlen. eauto.
Qed.

(** What [toChecksumAddress] returns on a format-valid address. *)
Lemma toChecksumAddress_valid digits :
  length digits = 40 -> forallb is_hex digits = true ->
  toChecksumAddress (48%N :: 120%N :: digits)
  = Ok (48%N :: 120%N
          :: checksum_chars (toLowerCase digits) (hashHex_of (toLowerCase digits))).
Proof.
  intros Hlen Hhex. unfold toChecksumAddress, ADDRESS_REGEX_test.
  rewrite str_0x. cbn [startsWith skipn length negb andb app].
  rewrite !N.eqb_refl. cbn [andb negb]. rewrite Hlen, Hhex. reflexivity.
Qed.

Lemma toLowerCase_length s : length (toLowerCase s) = length s.
Proof. apply length_map. Qed.

(** The checksummed form of a format-valid address is format-valid, and
    lower-cases to the same digits. *)
Lemma checksummed_valid digits :
  length digits = 40 -> forallb is_hex digits = true ->
  let lower := toLowerCase digits in
  let c := checksum_chars lower (hashHex_of lower) in
  length c = 40 /\ forallb is_hex c = true /\ toLowerCase c = lower.
Proof.
  intros Hlen Hhex lower c.
  assert (Hl : length lower = 40) by (unfold lower; rewrite toLowerCase_length; exact Hlen).
  assert (Hh : length lower <= length (hashHex_of lower))
    by (rewrite hashHex_of_length, Hl; lia).
  assert (Hx : forallb is_lower_hex lower = true) by (apply toLowerCase_lower_hex, Hhex).
  unfold c. repeat split.
  - rewrite checksum_chars_length; assumption.
  - apply checksum_chars_hex, Hx.
  - apply checksum_chars_lower; assumption.
Qed.






End Checksum.

(** C3. [toChecksumAddress] does not depend on the case of its input: two
    format-valid addresses that are case-variants of each other (equal once
    lower-cased) have the same checksummed form; and it is idempotent: the
    checksummed form of a format-valid address is its own checksummed
    form. *)
Theorem toChecksumAddress_case_insensitive_idempotent :
  forall a b : JSString,
    ADDRESS_REGEX_test a = true ->
    ADDRESS_REGEX_test b = true ->
    toLowerCase a = toLowerCase b ->
    toChecksumAddress a = toChecksumAddress b
    /\ exists c, toChecksumAddress a = Ok c /\ toChecksumAddress c = Ok c.
Proof.
  intros a b Ha Hb Hab.
  destruct (ADDRESS_REGEX_test_inv a Ha) as (da & -> & Hla & Hxa).
  destruct (ADDRESS_REGEX_test_inv b Hb) as (db & -> & Hlb & Hxb).
  assert (Hd : toLowerCase da = toLowerCase db) by (injection Hab; auto).
  rewrite !toChecksumAddress_valid by assumption. split.
  - rewrite Hd. reflexivity.
  - eexists. split; [reflexivity |].
    destruct (checksummed_valid da Hla Hxa) as (Hlen & Hhex & Hlow).
    rewrite toChecksumAddress_valid by assumption.
    rewrite Hlow. reflexivity.
Qed.

Lemma toChecksumAddress_case_insensitive_idempotent_witness :
  toChecksumAddress (str "0xe7c3d8c9a439fede00d2600032d5db0be71c3c29")
  = toChecksumAddress (str "0xE7C3D8C9A439FEDE00D2600032D5DB0BE71C3C29")
  /\ exists c, toChecksumAddress (str "0xe7c3d8c9a439fede00d2600032d5db0be71c3c29") = Ok c
               /\ toChecksumAddress c = Ok c.
Proof.
  apply (toChecksumAddress_case_insensitive_idempotent
           (str "0xe7c3d8c9a439fede00d2600032d5db0be71c3c29")
           (str "0xE7C3D8C9A439FEDE00D2600032D5DB0BE71C3C29"));
    vm_compute; reflexivity.
Defined.



(** ** The identifier codec: encoding *)

Lemma toChecksumAddress_total address :
  ADDRESS_REGEX_test address = true ->
  exists c, toChecksumAddress address = Ok c /\ ADDRESS_REGEX_test c = true.
Proof.
  intros H. destruct (ADDRESS_REGEX_test_inv address H) as (digits & -> & Hlen & Hhex).
  destruct (checksummed_valid digits Hlen Hhex) as (Hl & Hx & _).
  eexists. split; [apply toChecksumAddress_valid; assumption |].
  unfold ADDRESS_REGEX_test. rewrite str_0x. cbn [startsWith skipn].
  rewrite !N.eqb_refl, Hl, Hx. reflexivity.
Qed.

(** C5. For format-valid addresses, [encodeEIP681] returns exactly
    ["ethereum:"], the checksummed contract, ["@"], the chain id,
    ["/transfer?address="], the checksummed recipient, ["&uint256="] and the
    amount, with nothing between them; and the scenario of the
    specification yields the expected string. *)
Theorem encodeEIP681_format :
  (forall (contractAddress recipientAddress amount : JSString) (chainId : JSNumber),
      ADDRESS_REGEX_test contractAddress = true ->
      ADDRESS_REGEX_test recipientAddress = true ->
      exists checksummedContract checksummedRecipient,
        toChecksumAddress contractAddress = Ok checksummedContract
        /\ toChecksumAddress recipientAddress = Ok checksummedRecipient
        /\ encodeEIP681 contractAddress recipientAddress amount chainId
           = Ok (str "ethereum:" ++ checksummedContract ++ str "@"
                 ++ Number_toString chainId ++ str "/transfer?address="
                 ++ checksummedRecipient ++ str "&uint256=" ++ amount))
  /\ encodeEIP681 (str "0xe7c3d8c9a439fede00d2600032d5db0be71c3c29")
                  (str "0x1234567890123456789012345678901234567890")
                  (str "1000000000000000000") (num 137)
     = Ok (str "ethereum:0xE7C3D8C9a439feDe00D2600032D5dB0Be71C3c29@137/transfer?address=0x1234567890123456789012345678901234567890&uint256=1000000000000000000").
Proof.
  split; [| vm_compute; reflexivity].
  intros c r amount chainId Hc Hr.
  destruct (toChecksumAddress_total c Hc) as (cc & Ecc & _).
  destruct (toChecksumAddress_total r Hr) as (cr & Ecr & _).
  exists cc, cr. repeat split; try assumption.
  unfold encodeEIP681. rewrite Ecc, Ecr. cbn [bind try_catch].
  reflexivity.
Qed.

Lemma encodeEIP681_format_witness :
  exists checksummedContract checksummedRecipient,
    toChecksumAddress (str "0xe7c3d8c9a439fede00d2600032d5db0be71c3c29")
    = Ok checksummedContract
    /\ toChecksumAddress (str "0xabcdefabcdefabcdefabcdefabcdefabcdefabcd")
       = Ok checksummedRecipient
    /\ encodeEIP681 (str "0xe7c3d8c9a439fede00d2600032d5db0be71c3c29")
                    (str "0xabcdefabcdefabcdefabcdefabcdefabcdefabcd")
                    (str "1000000000000000000") (num 1)
       = Ok (str "ethereum:" ++ checksummedContract ++ str "@"
             ++ Number_toString (num 1) ++ str "/transfer?address="
             ++ checksummedRecipient ++ str "&uint256=" ++ str "1000000000000000000").
Proof.
  apply (proj1 encodeEIP681_format); vm_compute; reflexivity.
Defined.

(** ** Decimal digits *)

Section Digits.

Lemma digits_value_from_spec acc s :
  digits_value_from acc s = (acc * 10 ^ N.of_nat (length s) + digits_value s)%N.
Proof.
  unfold digits_value. revert acc.
  induction s as [| c s IH]; intros acc.
  - simpl. lia.
  - cbn [digits_value_from length]. rewrite IH, (IH (0 * 10 + (c - 48))%N).
    rewrite Nat2N.inj_succ, N.pow_succ_r'. lia.
Qed.

Lemma digits_value_app s t :
  digits_value (s ++ t)
  = (digits_value s * 10 ^ N.of_nat (length t) + digits_value t)%N.
Proof.
  unfold digits_value at 1. revert t.
  induction s as [| c s IH] using rev_ind; intros t.
  - simpl. reflexivity.
  - rewrite <- app_assoc. cbn [app]. rewrite IH.
    cbn [digits_value digits_value_from length].
    change (digits_value_from 0 (c :: t)) with (digits_value_from (0 * 10 + (c - 48)) t).
    rewrite digits_value_from_spec.
    change (digits_value_from 0 (s ++ [c])) with (digits_value (s ++ [c])).
    unfold digits_value at 3.
    assert (E : digits_value_from 0 (s ++ [c]) = (digits_value s * 10 + (c - 48))%N).
    { clear. unfold digits_value. generalize 0%N as a.
      induction s as [| d s IH]; intros a; [reflexivity | apply IH]. }
    rewrite E, Nat2N.inj_succ, N.pow_succ_r'. lia.
Qed.

Lemma digits_value_snoc s c :
  digits_value (s ++ [c]) = (digits_value s * 10 + (c - 48))%N.
Proof. rewrite digits_value_app. cbn. lia. Qed.

Lemma digits_value_cons c s :
  digits_value (c :: s) = ((c - 48) * 10 ^ N.of_nat (length s) + digits_value s)%N.
Proof. apply (digits_value_app [c] s). Qed.

Lemma is_digit_bounds c : is_digit c = true -> (48 <= c <= 57)%N.
Proof. unfold is_digit. intros H. to_arith. lia. Qed.

Lemma digits_value_bound s :
  forallb is_digit s = true -> (digits_value s < 10 ^ N.of_nat (length s))%N.
Proof.
  induction s as [| c s IH] using rev_ind; intros H.
  - cbn. lia.
  - rewrite forallb_app in H. apply andb_true_iff in H. destruct H as [Hs Hc].
    cbn in Hc. rewrite andb_true_r in Hc. apply is_digit_bounds in Hc.
    rewrite digits_value_snoc, length_app, Nat.add_comm. cbn [length Nat.add].
    rewrite Nat2N.inj_succ, N.pow_succ_r'. specialize (IH Hs). lia.
Qed.

Lemma digits_value_repeat_zero n : digits_value (repeat 48%N n) = 0%N.
Proof.
  induction n as [| n IH]; [reflexivity |].
  cbn [repeat]. rewrite digits_value_cons, IH. lia.
Qed.

(** Enough fuel is enough. *)
Lemma N_digits_fuel f k n acc :
  (n < 2 ^ N.of_nat (S f))%N ->
  N_digits (S f + k) n acc = N_digits (S f) n acc.
Proof.
  revert n acc. induction f as [| f IH]; intros n acc H.
  - cbn [N_digits Nat.add]. replace (n <? 10)%N with true; [reflexivity |].
    symmetry. apply N.ltb_lt. cbn in H. lia.
  - cbn [Nat.add]. cbn [N_digits]. destruct (N.ltb_spec n 10); [reflexivity |].
    apply (IH (n / 10)%N).
    rewrite Nat2N.inj_succ, N.pow_succ_r' in H.
    apply N.Div0.div_lt_upper_bound. lia.
Qed.

Lemma N_digits_acc f n acc : N_digits f n acc = N_digits f n [] ++ acc.
Proof.
  revert n acc. induction f as [| f IH]; intros n acc; [reflexivity |].
  cbn [N_digits]. destruct (n <? 10)%N; [reflexivity |].
  rewrite IH, (IH _ [_]), <- app_assoc. reflexivity.
Qed.

Lemma lt_pow2_log2 n : (n < 2 ^ N.of_nat (S (N.to_nat (N.log2 n))))%N.
Proof.
  rewrite Nat2N.inj_succ, N2Nat.id.
  destruct n as [| p]; [cbn; lia |].
  apply N.log2_spec. lia.
Qed.

Lemma N_toString_small d : (d < 10)%N -> N_toString d = [(48 + d)%N].
Proof.
  intros H. unfold N_toString. cbn [N_digits].
  replace (d <? 10)%N with true by (symmetry; apply N.ltb_lt, H).
  rewrite N.mod_small by exact H. reflexivity.
Qed.

Lemma N_toString_step n d :
  (0 < n)%N -> (d < 10)%N ->
  N_toString (10 * n + d) = N_toString n ++ [(48 + d)%N].
Proof.
  intros Hn Hd. unfold N_toString at 1. cbn [N_digits].
  replace (10 * n + d <? 10)%N with false by (symmetry; apply N.ltb_ge; lia).
  replace ((10 * n + d) mod 10)%N with d
    by (rewrite N.add_comm, N.mul_comm, N.Div0.mod_add, N.mod_small; [reflexivity | exact Hd]).
  replace ((10 * n + d) / 10)%N with n
    by (rewrite N.add_comm, N.mul_comm, N.div_add by discriminate;
        rewrite N.div_small by exact Hd; reflexivity).
  rewrite N_digits_acc. f_equal. unfold N_toString.
  assert (Hlog : (N.log2 n < N.log2 (10 * n + d))%N).
  { apply N.lt_le_trans with (N.log2 (2 * n)).
    - rewrite N.log2_double by exact Hn. lia.
    - apply N.log2_le_mono. lia. }
  set (a := N.to_nat (N.log2 n)). set (b := N.to_nat (N.log2 (10 * n + d))).
  assert (Hab : b = S a + (b - S a)) by (unfold a, b; lia).
  rewrite Hab. apply N_digits_fuel. apply lt_pow2_log2.
Qed.

(** A digit string without a leading zero is the string of its value. *)
Lemma N_toString_digits s :
  forallb is_digit s = true ->
  (exists c t, s = c :: t /\ c <> 48%N) ->
  N_toString (digits_value s) = s.
Proof.
  induction s as [| c s IH] using rev_ind; intros Hd (h & t & E & Hh).
  - discriminate E.
  - rewrite forallb_app in Hd. apply andb_true_iff in Hd. destruct Hd as [Hs Hc].
    cbn in Hc. rewrite andb_true_r in Hc. apply is_digit_bounds in Hc.
    rewrite digits_value_snoc.
    destruct s as [| h' s'].
    + cbn in E. injection E as -> _.
      change (digits_value []) with 0%N. rewrite N.mul_0_l, N.add_0_l.
      rewrite N_toString_small by lia. cbn [app]. f_equal. lia.
    + cbn in E. injection E as -> _.
      assert (Hpos : (0 < digits_value (h :: s'))%N).
      { rewrite digits_value_cons. cbn in Hs. apply andb_true_iff in Hs.
        destruct Hs as [Hh' _]. apply is_digit_bounds in Hh'.
        assert (10 ^ N.of_nat (length s') <> 0)%N by (apply N.pow_nonzero; discriminate).
        nia. }
      rewrite N.mul_comm, N_toString_step by lia.
      rewrite IH; [| exact Hs | eauto].
      f_equal. f_equal. lia.
Qed.

Lemma dropWhile_zero_value s :
  digits_value (dropWhile (N.eqb 48) s) = digits_value s.
Proof.
  induction s as [| c s IH]; [reflexivity |].
  cbn [dropWhile]. destruct (N.eqb_spec 48 c) as [<- | Hc]; [| reflexivity].
  rewrite IH, digits_value_cons. lia.
Qed.

Lemma dropWhile_digits p s :
  forallb is_digit s = true -> forallb is_digit (dropWhile p s) = true.
Proof.
  induction s as [| c s IH]; [reflexivity |]. cbn [dropWhile forallb]. intros H.
  destruct (p c); [| exact H].
  apply andb_true_iff in H. apply IH, H.
Qed.

(** [BigInt(s).toString()] for a digit string: the leading zeros go, a
    single zero stays for the value zero. *)
Lemma N_toString_digits_value s :
  forallb is_digit s = true ->
  N_toString (digits_value s)
  = match dropWhile (N.eqb 48) s with
    | [] => [48%N]
    | t => t
    end.
Proof.
  intros H. rewrite <- dropWhile_zero_value.
  pose proof (dropWhile_digits (N.eqb 48) s H) as Hd.
  destruct (dropWhile (N.eqb 48) s) as [| c t] eqn:E; [reflexivity |].
  apply N_toString_digits; [exact Hd |].
  exists c, t. split; [reflexivity |].
  intros ->. clear Hd H. induction s as [| d s IH]; [discriminate E |].
  cbn [dropWhile] in E. destruct (N.eqb_spec 48 d).
  - apply IH, E.
  - injection E as -> _. congruence.
Qed.

End Digits.

(** ** The longest prefix in a class of characters *)

Section Span.

Variable p : CodeUnit -> bool.

Lemma span_all s :
  forallb p s = true -> span p s = (s, []).
Proof.
  induction s as [| c s IH]; [reflexivity |]. cbn [forallb span]. intros H.
  apply andb_true_iff in H. destruct H as [Hc Hs]. rewrite Hc, (IH Hs). reflexivity.
Qed.

Lemma span_app s c r :
  forallb p s = true -> p c = false -> span p (s ++ c :: r) = (s, c :: r).
Proof.
  intros Hs Hc. induction s as [| d s IH]; cbn [app span].
  - rewrite Hc. reflexivity.
  - cbn [forallb] in Hs. apply andb_true_iff in Hs. destruct Hs as [Hd Hs].
    rewrite Hd, (IH Hs). reflexivity.
Qed.

Lemma span_spec s :
  s = fst (span p s) ++ snd (span p s)
  /\ forallb p (fst (span p s)) = true
  /\ match snd (span p s) with c :: _ => p c = false | [] => True end.
Proof.
  induction s as [| c s IH]; [cbn; auto |]. cbn [span].
  destruct (p c) eqn:Hc.
  - destruct (span p s) as [a b]. cbn [fst snd] in *.
    destruct IH as (E & Ha & Hb). repeat split.
    + cbn. f_equal. exact E.
    + cbn. rewrite Hc. exact Ha.
    + exact Hb.
  - cbn. auto.
Qed.

Lemma forallb_rev s :
  forallb p s = true -> forallb p (rev s) = true.
Proof.
  rewrite !forallb_forall. intros H x Hx. apply H, in_rev, Hx.
Qed.

Lemma forallb_firstn n s :
  forallb p s = true -> forallb p (firstn n s) = true.
Proof.
  revert n. induction s as [| c s IH]; intros [| n] H; try reflexivity.
  cbn [forallb firstn] in *. apply andb_true_iff in H. destruct H as [Hc Hs].
  rewrite Hc. apply IH, Hs.
Qed.

Lemma forallb_repeat c n :
  p c = true -> forallb p (repeat c n) = true.
Proof. intros H. induction n; cbn; [reflexivity | rewrite H; assumption]. Qed.

End Span.

(** ** Decimal amounts *)

Section Decimal.

(** The two shapes of a decimal string. *)
Lemma is_decimal_inv A :
  is_decimal A = true ->
  exists i f,
    int_part A = i /\ frac_part A = f
    /\ forallb is_digit i = true /\ forallb is_digit f = true
    /\ i ++ f <> []
    /\ ((A = i /\ f = []) \/ A = i ++ 46%N :: f).
Proof.
  unfold is_decimal, int_part, frac_part.
  destruct (span_spec is_digit A) as (E & Hi & Hr).
  destruct (span is_digit A) as [i r]. cbn [fst snd] in *. intros H.
  apply andb_true_iff in H. destruct H as [Hshape Hne].
  assert (Hlen : forall l : JSString, negb (length l =? 0) = true -> l <> [])
    by (intros [| ? ?]; [discriminate | discriminate]).
  destruct r as [| c f].
  - exists i, []. rewrite app_nil_r in *. repeat split; auto.
  - destruct (N.eqb_spec c 46) as [-> | Hc]; [| discriminate Hshape].
    exists i, f. repeat split; auto.
Qed.

Lemma decimal_head A :
  is_decimal A = true ->
  exists c r, A = c :: r /\ (is_digit c = true \/ c = 46%N).
Proof.
  intros H. destruct (is_decimal_inv A H) as (i & f & _ & _ & Hi & Hf & Hne & Hs).
  destruct i as [| c i].
  - destruct Hs as [[-> ->] | ->]; [cbn in Hne; congruence | cbn; eauto].
  - cbn in Hi. apply andb_true_iff in Hi. destruct Hi as [Hc _].
    destruct Hs as [[-> _] | ->]; cbn; eauto.
Qed.

(** The first character of a decimal string, by cases. *)
Lemma decimal_head_cases A :
  is_decimal A = true ->
  exists c r, A = c :: r
              /\ In c [46; 48; 49; 50; 51; 52; 53; 54; 55; 56; 57]%N.
Proof.
  intros H. destruct (decimal_head A H) as (c & r & -> & Hc).
  exists c, r. split; [reflexivity |].
  destruct Hc as [Hc | ->]; [| left; reflexivity].
  apply is_digit_bounds in Hc. cbn [In].
  assert (E : (c = 48 \/ c = 49 \/ c = 50 \/ c = 51 \/ c = 52 \/ c = 53 \/ c = 54
               \/ c = 55 \/ c = 56 \/ c = 57)%N) by lia.
  intuition auto.
Qed.

Lemma digit_cases c :
  is_digit c = true -> In c [48; 49; 50; 51; 52; 53; 54; 55; 56; 57]%N.
Proof.
  intros Hc. apply is_digit_bounds in Hc. cbn [In].
  assert (E : (c = 48 \/ c = 49 \/ c = 50 \/ c = 51 \/ c = 52 \/ c = 53 \/ c = 54
               \/ c = 55 \/ c = 56 \/ c = 57)%N) by lia.
  intuition auto.
Qed.

(** What the code reads off a decimal string. *)
Lemma decimal_not_negative A :
  is_decimal A = true -> startsWith A (str "-") = false.
Proof.
  intros H. destruct (decimal_head_cases A H) as (c & r & -> & Hc).
  each_case Hc; reflexivity.
Qed.

Lemma round_double_not_NaN q : Number_isNaN (round_double q) = false.
Proof.
  unfold round_double. destruct (q ?= 0)%Q; [reflexivity | |];
    match goal with |- context [if ?b then _ else _] => destruct b end; reflexivity.
Qed.

Lemma decimal_parseFloat A :
  is_decimal A = true -> exists v, parseFloat A = round_double v.
Proof.
  intros H.
  assert (E : parseFloat A = match unsigned_decimal_prefix A with
                             | Some v => round_double v
                             | None => NaN
                             end).
  { destruct (decimal_head_cases A H) as (c & r & -> & Hc).
    each_case Hc; reflexivity. }
  rewrite E. unfold unsigned_decimal_prefix.
  destruct (is_decimal_inv A H) as (i & f & Ei & Ef & Hi & Hf & Hne & Hs).
  destruct Hs as [[-> ->] | ->].
  - rewrite span_all by exact Hi. rewrite app_nil_r in *.
    destruct i as [| c i]; [congruence | eauto].
  - rewrite span_app by (exact Hi || reflexivity).
    rewrite span_all by exact Hf.
    destruct i as [| c i]; [destruct f as [| d f]; [cbn in Hne; congruence |] |]; eauto.
Qed.

Lemma decimal_not_NaN A :
  is_decimal A = true -> Number_isNaN (parseFloat A) = false.
Proof.
  intros H. destruct (decimal_parseFloat A H) as [v ->]. apply round_double_not_NaN.
Qed.

(** A digit is not a separator. *)
Lemma count_digits c s :
  forallb is_digit s = true -> is_digit c = false -> count_occ N.eq_dec s c = 0.
Proof.
  intros Hs Hc. induction s as [| d s IH]; [reflexivity |].
  cbn [forallb] in Hs. apply andb_true_iff in Hs. destruct Hs as [Hd Hs].
  cbn [count_occ]. destruct (N.eq_dec d c) as [-> | _]; [congruence | auto].
Qed.

Lemma decimal_count A :
  is_decimal A = true -> (1 <? count_matches 46 A) = false.
Proof.
  intros H. destruct (is_decimal_inv A H) as (i & f & _ & _ & Hi & Hf & _ & Hs).
  unfold count_matches. apply Nat.ltb_ge.
  destruct Hs as [[-> _] | ->].
  - rewrite count_digits by (exact Hi || reflexivity). lia.
  - rewrite count_occ_app. cbn [count_occ].
    destruct (N.eq_dec 46 46) as [_ | E]; [| congruence].
    rewrite !count_digits by (assumption || reflexivity). lia.
Qed.

Lemma split_digits d s :
  forallb is_digit s = true -> is_digit d = false -> split d s = [s].
Proof.
  intros Hs Hd. induction s as [| c s IH]; [reflexivity |].
  cbn [forallb] in Hs. apply andb_true_iff in Hs. destruct Hs as [Hc Hs].
  cbn [split]. destruct (N.eqb_spec c d) as [-> | _]; [congruence |].
  rewrite (IH Hs). reflexivity.
Qed.

Lemma split_app d s t :
  forallb is_digit s = true -> is_digit d = false ->
  split d (s ++ d :: t) = s :: split d t.
Proof.
  intros Hs Hd. induction s as [| c s IH].
  - cbn [app split]. rewrite N.eqb_refl. reflexivity.
  - cbn [forallb] in Hs. apply andb_true_iff in Hs. destruct Hs as [Hc Hs].
    cbn [app split]. destruct (N.eqb_spec c d) as [-> | _]; [congruence |].
    rewrite (IH Hs). reflexivity.
Qed.

Lemma decimal_split A :
  is_decimal A = true ->
  nth 0 (split 46 A) [] = int_part A /\ nth 1 (split 46 A) [] = frac_part A.
Proof.
  intros H. destruct (is_decimal_inv A H) as (i & f & -> & -> & Hi & Hf & _ & Hs).
  destruct Hs as [[-> ->] | ->].
  - rewrite split_digits by (exact Hi || reflexivity). split; reflexivity.
  - rewrite split_app by (exact Hi || reflexivity).
    rewrite split_digits by (exact Hf || reflexivity). split; reflexivity.
Qed.

(** [BigInt] of a string of digits. *)
Lemma is_digit_not_whitespace c : is_digit c = true -> is_whitespace c = false.
Proof. intros H. apply digit_cases in H. each_case H; reflexivity. Qed.

Lemma trimStart_digits s : forallb is_digit s = true -> trimStart s = s.
Proof.
  destruct s as [| c s]; [reflexivity |]. cbn [forallb trimStart]. intros H.
  apply andb_true_iff in H. destruct H as [Hc _].
  rewrite (is_digit_not_whitespace c Hc). reflexivity.
Qed.

Lemma trim_digits s : forallb is_digit s = true -> trim s = s.
Proof.
  intros H. unfold trim. rewrite (trimStart_digits s H).
  rewrite (trimStart_digits (rev s)) by (apply forallb_rev, H).
  apply rev_involutive.
Qed.

Lemma StringToBigInt_digits s :
  forallb is_digit s = true -> s <> [] ->
  StringToBigInt s = Some (Z.of_N (digits_value s)).
Proof.
  intros H Hne. unfold StringToBigInt. rewrite (trim_digits s H).
  assert (E : option_map Z.of_N (decimal_value s) = Some (Z.of_N (digits_value s))).
  { unfold decimal_value. rewrite H. destruct s; [congruence | reflexivity]. }
  rewrite <- E. clear E.
  destruct s as [| c t]; [congruence |].
  cbn [forallb] in H. apply andb_true_iff in H. destruct H as [Hc Ht].
  apply digit_cases in Hc. each_case Hc; try reflexivity.
  destruct t as [| d t]; [reflexivity |].
  cbn [forallb] in Ht. apply andb_true_iff in Ht. destruct Ht as [Hd _].
  apply digit_cases in Hd. each_case Hd; reflexivity.
Qed.

Lemma BigInt_toString_of_N n : BigInt_toString (Z.of_N n) = N_toString n.
Proof. destruct n; reflexivity. Qed.

(** A precision in range passes the check of both converters. *)
Lemma decimals_in_range (p : Z) :
  (0 <= p <= 18)%Z ->
  decimals_out_of_range (num p) = false /\ Number_to_nat (num p) = Z.to_nat p.
Proof.
  intros H.
  assert (E : In p [0; 1; 2; 3; 4; 5; 6; 7; 8; 9; 10; 11; 12; 13; 14; 15; 16; 17; 18]%Z)
    by (cbn [In]; lia).
  each_case E; split; reflexivity.
Qed.

Lemma padded_length f n : length (slice0 (padEnd f n 48%N) n) = n.
Proof.
  unfold slice0, padEnd. rewrite length_firstn, length_app, repeat_length. lia.
Qed.

Lemma padded_digits f n :
  forallb is_digit f = true -> forallb is_digit (slice0 (padEnd f n 48%N) n) = true.
Proof.
  intros H. unfold slice0, padEnd. apply forallb_firstn.
  rewrite forallb_app, H. apply forallb_repeat. reflexivity.
Qed.

Lemma scaled_digits_spec A p :
  is_decimal A = true ->
  forallb is_digit (scaled_digits A p) = true
  /\ scaled_digits A p <> []
  /\ digits_value (scaled_digits A p)
     = (digits_value (int_part A) * 10 ^ N.of_nat p
        + digits_value (slice0 (padEnd (frac_part A) p 48%N) p))%N.
Proof.
  intros H. unfold scaled_digits.
  destruct (is_decimal_inv A H) as (i & f & -> & -> & Hi & Hf & _ & _).
  repeat split.
  - rewrite forallb_app, padded_digits by exact Hf.
    destruct i; [reflexivity | cbn [or_default]; rewrite Hi; reflexivity].
  - destruct i; discriminate.
  - rewrite digits_value_app, padded_length. destruct i; reflexivity.
Qed.

(** [jpyToWei] on a decimal string that parses as a finite number, at a
    precision in range. *)
Lemma jpyToWei_decimal A (p : Z) :
  is_decimal A = true ->
  Number_isFinite (parseFloat A) = true ->
  (0 <= p <= 18)%Z ->
  jpyToWei (AmountString A) (num p)
  = Ok (N_toString (digits_value (scaled_digits A (Z.to_nat p)))).
Proof.
  intros H Hfin Hp. unfold jpyToWei.
  destruct (decimals_in_range p Hp) as [-> ->]. cbn [Amount_toString].
  rewrite (decimal_not_negative A H), (decimal_not_NaN A H), Hfin, (decimal_count A H).
  cbn [negb]. destruct (decimal_split A H) as [-> ->].
  replace (or_default (frac_part A) (str "")) with (frac_part A)
    by (destruct (frac_part A); reflexivity).
  fold (scaled_digits A (Z.to_nat p)).
  destruct (scaled_digits_spec A (Z.to_nat p) H) as (Hd & Hne & _).
  rewrite (StringToBigInt_digits _ Hd Hne), BigInt_toString_of_N. reflexivity.
Qed.

(** Padding with zeros multiplies by a power of ten; cutting digits off
    divides by one, rounding down. *)
Lemma padded_value f p :
  forallb is_digit f = true ->
  digits_value (slice0 (padEnd f p 48%N) p)
  = (digits_value f * 10 ^ N.of_nat p / 10 ^ N.of_nat (length f))%N.
Proof.
  intros Hf. unfold slice0, padEnd.
  assert (Hpow : forall n, (10 ^ N.of_nat n <> 0)%N)
    by (intros n; apply N.pow_nonzero; discriminate).
  destruct (Nat.le_gt_cases (length f) p) as [Hle | Hgt].
  - rewrite firstn_all2 by (rewrite length_app, repeat_length; lia).
    rewrite digits_value_app, digits_value_repeat_zero, repeat_length, N.add_0_r.
    replace (N.of_nat p) with (N.of_nat (p - length f) + N.of_nat (length f))%N by lia.
    rewrite N.pow_add_r, N.mul_assoc, N.div_mul by apply Hpow. reflexivity.
  - replace (p - length f) with 0 by lia. cbn [repeat]. rewrite app_nil_r.
    rewrite <- (firstn_skipn p f) at 2 3.
    rewrite digits_value_app, length_app, length_firstn, length_skipn.
    replace (Nat.min p (length f)) with p by lia.
    replace (N.of_nat (p + (length f - p)))
      with (N.of_nat p + N.of_nat (length f - p))%N by lia.
    rewrite N.pow_add_r, (N.mul_comm (10 ^ N.of_nat p)).
    rewrite N.Div0.div_mul_cancel_r by apply Hpow.
    rewrite N.div_add_l by apply Hpow.
    rewrite N.div_small; [lia |].
    rewrite <- (length_skipn p f).
    apply digits_value_bound.
    rewrite <- (firstn_skipn p f), forallb_app in Hf.
    apply andb_true_iff in Hf. apply Hf.
Qed.

Lemma scaled_value A p :
  is_decimal A = true ->
  digits_value (scaled_digits A p)
  = (digits_value (int_part A ++ frac_part A) * 10 ^ N.of_nat p
     / 10 ^ N.of_nat (length (frac_part A)))%N.
Proof.
  intros H. destruct (scaled_digits_spec A p H) as (_ & _ & ->).
  destruct (is_decimal_inv A H) as (i & f & -> & -> & Hi & Hf & _ & _).
  rewrite (padded_value f p Hf), digits_value_app.
  rewrite N.mul_add_distr_r.
  rewrite <- (N.mul_assoc (digits_value i)), (N.mul_comm (10 ^ N.of_nat (length f))).
  rewrite N.mul_assoc, N.div_add_l by (apply N.pow_nonzero; discriminate).
  reflexivity.
Qed.

(** The same quotient, as the floor of a rational. *)
Lemma floor_scaled A (p : Z) :
  (0 <= p)%Z ->
  Qfloor (decimal_value_Q A * inject_Z (10 ^ p))
  = Z.of_N (digits_value (int_part A ++ frac_part A) * 10 ^ Z.to_N p
            / 10 ^ N.of_nat (length (frac_part A))).
Proof.
  intros Hp. unfold decimal_value_Q.
  set (a := digits_value (int_part A ++ frac_part A)).
  set (n := length (frac_part A)).
  rewrite N2Z.inj_div, N2Z.inj_mul, !N2Z.inj_pow, Z2N.id, nat_N_Z by exact Hp.
  change (Z.of_N 10) with 10%Z.
  rewrite Zdiv_Qdiv. apply Qfloor_comp.
  rewrite inject_Z_mult. field.
  intros E.
  assert (Hnz : (10 ^ Z.of_nat n <> 0)%Z) by (apply Z.pow_nonzero; lia).
  apply Hnz. unfold Qeq in E. cbn [Qnum Qden inject_Z] in E. lia.
Qed.

End Decimal.

(** C6. For every valid decimal string [A] (digits with at most one
    separator and at least one digit, parsing as a finite number) and every
    precision [p] in [0, 18], [jpyToWei] returns the digits of the exact
    integer [floor (A * 10^p)]: digits beyond [p] are cut, not rounded, and
    no width bounds the result. The examples: the trailing [901] of
    [0.123456789012345678901] is discarded at precision 18; the number 100
    gives [100000000000000000000]; and [10^15] units at 18 fractional
    digits are exact. *)
Theorem jpyToWei_floor :
  (forall (A : JSString) (p : Z),
      is_decimal A = true ->
      Number_isFinite (parseFloat A) = true ->
      (0 <= p <= 18)%Z ->
      jpyToWei (AmountString A) (num p)
      = Ok (BigInt_toString (Qfloor (decimal_value_Q A * inject_Z (10 ^ p)))))
  /\ jpyToWei (AmountString (str "0.123456789012345678901")) (num 18)
     = Ok (str "123456789012345678")
  /\ jpyToWei (AmountNumber (num 100)) (num 18) = Ok (str "100000000000000000000")
  /\ jpyToWei (AmountString (str "999999999999999.999999999999999999")) (num 18)
     = Ok (str "999999999999999999999999999999999")
  /\ jpyToWei (AmountNumber (num (10 ^ 15))) (num 18)
     = Ok (str "1000000000000000000000000000000000").
Proof.
  split; [| repeat split; vm_compute; reflexivity].
  intros A p H Hfin Hp.
  rewrite (jpyToWei_decimal A p H Hfin Hp).
  rewrite floor_scaled by lia. rewrite BigInt_toString_of_N.
  rewrite (scaled_value A (Z.to_nat p) H), Z_nat_N. reflexivity.
Qed.

Lemma jpyToWei_floor_witness :
  jpyToWei (AmountString (str "12.3456")) (num 2)
  = Ok (BigInt_toString (Qfloor (decimal_value_Q (str "12.3456") * inject_Z (10 ^ 2)))).
Proof.
  apply (proj1 jpyToWei_floor); [reflexivity | reflexivity | lia].
Defined.

(** ** The round trip of the converter *)

Section RoundTrip.

Lemma is_digit_of_value d : (d < 10)%N -> is_digit (48 + d) = true.
Proof.
  intros H. unfold is_digit. apply andb_true_iff. split; apply N.leb_le; lia.
Qed.

Lemma N_toString_spec n :
  forallb is_digit (N_toString n) = true
  /\ N_toString n <> []
  /\ digits_value (N_toString n) = n.
Proof.
  induction n as [n IH] using (well_founded_induction N.lt_wf_0).
  destruct (N.lt_ge_cases n 10) as [Hlt | Hge].
  - rewrite N_toString_small by exact Hlt. repeat split.
    + cbn [forallb]. rewrite is_digit_of_value by exact Hlt. reflexivity.
    + discriminate.
    + unfold digits_value. cbn [digits_value_from]. lia.
  - assert (E : n = (10 * (n / 10) + n mod 10)%N) by (apply N.div_mod; discriminate).
    assert (Hq : (0 < n / 10)%N) by (apply N.div_str_pos; lia).
    assert (Hr : (n mod 10 < 10)%N) by (apply N.mod_lt; discriminate).
    destruct (IH (n / 10)%N) as (Hd & Hne & Hv).
    { apply N.div_lt; lia. }
    clear IH. remember (n / 10)%N as q. remember (n mod 10)%N as r.
    rewrite E, N_toString_step by assumption. repeat split.
    + rewrite forallb_app, Hd. cbn [forallb].
      rewrite is_digit_of_value by exact Hr. reflexivity.
    + intros F. apply app_eq_nil in F. destruct F as [_ F]. discriminate F.
    + rewrite digits_value_snoc, Hv. lia.
Qed.

(** [weiToJpy] on the digits of a non-negative integer. *)
Lemma weiToJpy_digits (w : N) (p : Z) :
  (0 <= p <= 18)%Z ->
  weiToJpy (N_toString w) (num p)
  = Ok (let intPart := N_toString (w / 10 ^ Z.to_N p) in
        let decPart :=
          padStart (N_toString (w mod 10 ^ Z.to_N p)) (Z.to_nat p) 48%N in
        match strip_trailing_zeros decPart with
        | [] => intPart
        | trimmedDecPart => intPart ++ str "." ++ trimmedDecPart
        end).
Proof.
  intros Hp. unfold weiToJpy.
  destruct (decimals_in_range p Hp) as [-> ->].
  destruct (N_toString_spec w) as (Hd & Hne & Hv).
  rewrite (StringToBigInt_digits _ Hd Hne), Hv.
  replace (10 ^ Z.of_nat (Z.to_nat p))%Z with (Z.of_N (10 ^ Z.to_N p))
    by (rewrite N2Z.inj_pow, Z2N.id, Z2Nat.id by lia; reflexivity).
  rewrite <- N2Z.inj_quot, <- N2Z.inj_rem, !BigInt_toString_of_N.
  cbv zeta.
  destruct (strip_trailing_zeros _); reflexivity.
Qed.

Lemma dropWhile_zero_split s :
  s = repeat 48%N (length s - length (dropWhile (N.eqb 48) s))
      ++ dropWhile (N.eqb 48) s.
Proof.
  induction s as [| c s IH]; [reflexivity |].
  cbn [dropWhile]. destruct (N.eqb_spec 48 c) as [<- | Hc].
  - assert (Hle : length (dropWhile (N.eqb 48) s) <= length s).
    { clear. induction s as [| d s IH]; cbn [dropWhile length]; [lia |].
      destruct (48 =? d)%N; cbn [length]; lia. }
    cbn [length].
    replace (S (length s) - length (dropWhile (N.eqb 48) s))
      with (S (length s - length (dropWhile (N.eqb 48) s))) by lia.
    cbn [repeat app]. f_equal. exact IH.
  - cbn [length]. rewrite Nat.sub_diag. reflexivity.
Qed.

(** Printing the value of a digit string and padding it back to its length
    gives the string. *)
Lemma padStart_digits s :
  forallb is_digit s = true -> s <> [] ->
  padStart (N_toString (digits_value s)) (length s) 48%N = s.
Proof.
  intros Hd Hne. rewrite (N_toString_digits_value s Hd). unfold padStart.
  pose proof (dropWhile_zero_split s) as E.
  destruct (dropWhile (N.eqb 48) s) as [| c t].
  - cbn [length] in E. rewrite app_nil_r, Nat.sub_0_r in E. cbn [length].
    destruct s as [| d s]; [congruence |]. cbn [length] in *.
    replace (S (length s) - 1) with (length s) by lia.
    rewrite E. cbn [repeat]. symmetry. apply repeat_cons.
  - symmetry. exact E.
Qed.

Lemma dropWhile_repeat_zero n s :
  dropWhile (N.eqb 48) (repeat 48%N n ++ s) = dropWhile (N.eqb 48) s.
Proof. induction n as [| n IH]; [reflexivity | exact IH]. Qed.

Lemma rev_repeat (c : CodeUnit) n : rev (repeat c n) = repeat c n.
Proof.
  induction n as [| n IH]; [reflexivity |].
  cbn [repeat rev]. rewrite IH. symmetry. apply repeat_cons.
Qed.

Lemma strip_trailing_zeros_padded f n :
  strip_trailing_zeros (f ++ repeat 48%N n) = strip_trailing_zeros f.
Proof.
  unfold strip_trailing_zeros.
  rewrite rev_app_distr, rev_repeat, dropWhile_repeat_zero. reflexivity.
Qed.

End RoundTrip.

(** C1, as amended. For every precision [p] in [0, 18] and every decimal
    string [A] (digits, at most one separator, at least one digit) with at
    most [p] fractional digits that parses as a finite number,
    [weiToJpy (jpyToWei (A, p), p)] returns the canonical form of [A]: the
    integer part without leading zeros (a single zero if it is empty or
    zero), the fractional part without trailing zeros, and no separator when
    that part is empty. *)
Theorem round_trip_decimal (A : JSString) (p : Z) :
  is_decimal A = true ->
  Number_isFinite (parseFloat A) = true ->
  (0 <= p <= 18)%Z ->
  (length (frac_part A) <= Z.to_nat p)%nat ->
  (w <- jpyToWei (AmountString A) (num p) ;; weiToJpy w (num p)) = Ok (canonical A).
Proof.
  intros H Hfin Hp Hlen.
  rewrite (jpyToWei_decimal A p H Hfin Hp). cbn [bind].
  rewrite (weiToJpy_digits _ p Hp).
  destruct (scaled_digits_spec A (Z.to_nat p) H) as (_ & _ & ->).
  destruct (is_decimal_inv A H) as (i & f & Ei & Ef & Hi & Hf & _ & _).
  unfold canonical. rewrite Ei, Ef in *.
  set (fp := slice0 (padEnd f (Z.to_nat p) 48%N) (Z.to_nat p)).
  assert (Hfp : fp = f ++ repeat 48%N (Z.to_nat p - length f)).
  { unfold fp, slice0, padEnd. apply firstn_all2.
    rewrite length_app, repeat_length. lia. }
  assert (Hfpl : length fp = Z.to_nat p) by apply padded_length.
  assert (Hfpd : forallb is_digit fp = true) by (apply padded_digits, Hf).
  assert (Hb : (digits_value fp < 10 ^ Z.to_N p)%N).
  { replace (Z.to_N p) with (N.of_nat (length fp)) by lia.
    apply digits_value_bound, Hfpd. }
  replace (Z.to_N p) with (N.of_nat (Z.to_nat p)) in * by lia.
  assert (Hpow : (10 ^ N.of_nat (Z.to_nat p) <> 0)%N)
    by (apply N.pow_nonzero; discriminate).
  rewrite N.div_add_l, N.div_small, N.add_0_r by assumption.
  rewrite N.add_comm, N.Div0.mod_add, N.mod_small by assumption.
  rewrite (N_toString_digits_value i Hi).
  assert (Ez : strip_trailing_zeros
                 (padStart (N_toString (digits_value fp)) (Z.to_nat p) 48%N)
               = strip_trailing_zeros f).
  { destruct fp as [| c fp'] eqn:Efp.
    - cbn [length] in Hfpl. rewrite <- Hfpl.
      destruct f; [reflexivity | discriminate Hfp].
    - rewrite <- Hfpl, padStart_digits by (assumption || discriminate).
      rewrite Hfp. apply strip_trailing_zeros_padded. }
  cbv zeta. rewrite Ez.
  destruct (strip_trailing_zeros f); reflexivity.
Qed.

Lemma round_trip_decimal_witness :
  (w <- jpyToWei (AmountString (str "007.2500")) (num 6) ;; weiToJpy w (num 6))
  = Ok (canonical (str "007.2500"))
  /\ canonical (str "007.2500") = str "7.25".
Proof.
  split; [| reflexivity].
  apply (round_trip_decimal (str "007.2500") 6);
    [reflexivity | reflexivity | lia | vm_compute; lia].
Defined.

(** C1, as stated, fails on a decimal string too large for a double: with
    no fractional digit and precision 0, [10^309] is a decimal string within
    the claim, [parseFloat] reads it as [Infinity], and [jpyToWei] refuses
    it instead of returning a result. *)
Lemma round_trip_overflow :
  is_decimal ten_to_the_309 = true
  /\ length (frac_part ten_to_the_309) = 0
  /\ parseFloat ten_to_the_309 = Infinity false
  /\ jpyToWei (AmountString ten_to_the_309) (num 0)
     = Throw (JPYCPaymentError (str "金額は有限の数値である必要があります")
                               INVALID_AMOUNT (DetailsAmount ten_to_the_309))
  /\ (w <- jpyToWei (AmountString ten_to_the_309) (num 0) ;; weiToJpy w (num 0))
     = Throw (JPYCPaymentError (str "金額は有限の数値である必要があります")
                               INVALID_AMOUNT (DetailsAmount ten_to_the_309)).
Proof. repeat split; vm_compute; reflexivity. Qed.

Section Numbers.

Lemma Qpower_2_nonneg (e : Z) : (0 <= e)%Z -> (Qpower 2 e == inject_Z (2 ^ e))%Q.
Proof. intros H. symmetry. apply (Zpower_Qpower 2 e H). Qed.

Lemma round_half_even_integer (x : Q) (k : Z) :
  (x == inject_Z k)%Q -> round_half_even x = k.
Proof.
  intros E. unfold round_half_even.
  assert (Hf : Qfloor x = k) by (rewrite (Qfloor_comp _ _ E); apply Qfloor_Z).
  rewrite Hf.
  assert (Hlt : (x - inject_Z k < 1 # 2)%Q).
  { rewrite E. unfold Qminus. rewrite Qplus_opp_r. reflexivity. }
  replace (x - inject_Z k ?= 1 # 2)%Q with Lt
    by (symmetry; apply Qlt_alt; exact Hlt).
  reflexivity.
Qed.

Lemma Qlog2_floor_integer (z : Z) :
  (0 < z)%Z -> Qlog2_floor (inject_Z z) = Z.log2 z.
Proof.
  intros Hz. unfold Qlog2_floor. cbn [Qnum Qden inject_Z].
  change (Z.log2 1) with 0%Z. rewrite Z.sub_0_r.
  assert (H : Qle_bool (Qpower 2 (Z.log2 z)) (inject_Z z) = true).
  { apply Qle_bool_iff. rewrite Qpower_2_nonneg by apply Z.log2_nonneg.
    rewrite <- Zle_Qle. apply Z.log2_spec, Hz. }
  rewrite H. reflexivity.
Qed.

(** An integer below [2^53] is a double: rounding keeps it. *)
Lemma round_double_integer (z : Z) :
  (0 < z < 2 ^ 53)%Z -> round_double (inject_Z z) = Finite (inject_Z z).
Proof.
  intros [Hpos Hlt]. unfold round_double.
  assert (Hc : (inject_Z z ?= 0)%Q = Gt).
  { apply Qgt_alt. change 0%Q with (inject_Z 0). rewrite <- Zlt_Qlt. exact Hpos. }
  rewrite Hc.
  assert (Ha : Qabs (inject_Z z) = inject_Z z).
  { unfold Qabs, inject_Z. rewrite Z.abs_eq by lia. reflexivity. }
  rewrite Ha, (Qlog2_floor_integer z Hpos).
  set (e := Z.log2 z).
  assert (He : (0 <= e < 53)%Z).
  { split; [apply Z.log2_nonneg |]. apply Z.log2_lt_pow2; lia. }
  replace (Z.max e (-1022) - 52)%Z with (- (52 - e))%Z by lia.
  assert (Hp : (Qpower 2 (- (52 - e)) == / inject_Z (2 ^ (52 - e)))%Q).
  { rewrite Qpower_opp, Qpower_2_nonneg by lia. reflexivity. }
  assert (Hnz : ~ (inject_Z (2 ^ (52 - e)) == 0)%Q).
  { intros E. unfold Qeq in E. cbn [Qnum Qden inject_Z] in E.
    assert (2 ^ (52 - e) <> 0)%Z by (apply Z.pow_nonzero; lia). lia. }
  assert (Hm : round_half_even (inject_Z z / Qpower 2 (- (52 - e)))
               = (z * 2 ^ (52 - e))%Z).
  { apply round_half_even_integer. rewrite Hp, inject_Z_mult. field. exact Hnz. }
  rewrite Hm.
  assert (Hv : Qred (inject_Z (z * 2 ^ (52 - e)) * Qpower 2 (- (52 - e))) = inject_Z z).
  { rewrite <- (Qcanon.Qred_identity (inject_Z z)).
    - apply Qred_complete. rewrite Hp, inject_Z_mult. field. exact Hnz.
    - cbn [Qnum Qden inject_Z]. apply Z.gcd_1_r. }
  rewrite Hv.
  assert (Hfin : Qle_bool (Qpower 2 1024) (inject_Z z) = false).
  { destruct (Qle_bool (Qpower 2 1024) (inject_Z z)) eqn:E; [| reflexivity].
    apply Qle_bool_iff in E. rewrite Qpower_2_nonneg in E by lia.
    rewrite <- Zle_Qle in E.
    assert (2 ^ 53 < 2 ^ 1024)%Z by (apply Z.pow_lt_mono_r; lia). lia. }
  rewrite Hfin. reflexivity.
Qed.

End Numbers.

(** ** The identifier codec: decoding what was encoded *)

Section Decode.

(** A safe integer prints as its digits, and its digits are read back. *)
Lemma Number_toString_safe (id : Z) :
  (0 <= id <= MAX_SAFE_INTEGER)%Z ->
  Number_toString (num id) = N_toString (Z.to_N id).
Proof.
  intros H. unfold Number_toString, num.
  rewrite Qfloor_Z, Qeq_bool_refl.
  replace (Z.abs id <=? MAX_SAFE_INTEGER)%Z with true
    by (symmetry; apply Z.leb_le; lia).
  cbn [andb]. destruct id; try reflexivity. lia.
Qed.

Lemma parseInt10_digits s :
  forallb is_digit s = true -> s <> [] ->
  parseInt10 s = round_double (inject_Z (Z.of_N (digits_value s))).
Proof.
  intros Hd Hne. unfold parseInt10. rewrite (trimStart_digits s Hd).
  destruct s as [| c t]; [congruence |].
  assert (Hc : is_digit c = true)
    by (cbn [forallb] in Hd; apply andb_true_iff in Hd; apply Hd).
  apply digit_cases in Hc.
  each_case Hc; cbv iota beta; rewrite (span_all is_digit _ Hd); reflexivity.
Qed.

Lemma parseInt10_safe (id : Z) :
  (0 < id <= MAX_SAFE_INTEGER)%Z ->
  parseInt10 (N_toString (Z.to_N id)) = num id.
Proof.
  intros H. destruct (N_toString_spec (Z.to_N id)) as (Hd & Hne & Hv).
  rewrite (parseInt10_digits _ Hd Hne), Hv, Z2N.id by lia.
  apply round_double_integer. unfold MAX_SAFE_INTEGER in H. lia.
Qed.

(** Scanning past characters that cannot start or end a match. *)
Lemma match_run_skip L C R s t :
  forallb (is_not L) s = true ->
  match_run L C R (s ++ t) = match_run L C R t.
Proof.
  intros H. induction s as [| c s IH]; [reflexivity |].
  cbn [forallb] in H. apply andb_true_iff in H. destruct H as [Hc Hs].
  cbn [app match_run]. unfold is_not in Hc. apply negb_true_iff in Hc.
  rewrite Hc. apply IH, Hs.
Qed.

Lemma match_run_here_found (C : CodeUnit -> bool) R g t :
  forallb C g = true -> C R = false -> g <> [] ->
  match_run_here C R (g ++ R :: t) = Some g.
Proof.
  intros Hg HR Hne. unfold match_run_here.
  rewrite (span_app C g R t Hg HR).
  destruct g; [congruence |]. rewrite N.eqb_refl. reflexivity.
Qed.

Lemma match_run_found L C R s g t :
  forallb (is_not L) s = true ->
  forallb C g = true -> C R = false -> g <> [] ->
  match_run L C R (s ++ L :: g ++ R :: t) = Some g.
Proof.
  intros Hs Hg HR Hne. rewrite (match_run_skip L C R s _ Hs).
  cbn [match_run]. rewrite N.eqb_refl.
  rewrite (match_run_here_found C R g t Hg HR Hne). reflexivity.
Qed.

Lemma split_none d s : forallb (is_not d) s = true -> split d s = [s].
Proof.
  intros Hs. induction s as [| c s IH]; [reflexivity |].
  cbn [forallb] in Hs. apply andb_true_iff in Hs. destruct Hs as [Hc Hs].
  unfold is_not in Hc. apply negb_true_iff in Hc.
  cbn [split]. rewrite Hc, (IH Hs). reflexivity.
Qed.

Lemma split_at d s t :
  forallb (is_not d) s = true -> split d (s ++ d :: t) = s :: split d t.
Proof.
  intros Hs. induction s as [| c s IH].
  - cbn [app split]. rewrite N.eqb_refl. reflexivity.
  - cbn [forallb] in Hs. apply andb_true_iff in Hs. destruct Hs as [Hc Hs].
    unfold is_not in Hc. apply negb_true_iff in Hc.
    cbn [app split]. rewrite Hc, (IH Hs). reflexivity.
Qed.

Lemma is_alnum_props c :
  is_alnum c = true ->
  (c < 128)%N /\ is_high_surrogate c = false /\ is_low_surrogate c = false
  /\ c <> 37%N /\ c <> 38%N /\ c <> 43%N /\ c <> 47%N /\ c <> 58%N
  /\ c <> 61%N /\ c <> 63%N /\ c <> 64%N.
Proof.
  unfold is_alnum, is_digit, is_high_surrogate, is_low_surrogate. intros H.
  to_arith; repeat split; try lia; by_cases.
Qed.

Lemma forallb_impl (p q : CodeUnit -> bool) s :
  (forall c, p c = true -> q c = true) ->
  forallb p s = true -> forallb q s = true.
Proof.
  intros Hpq. rewrite !forallb_forall. auto.
Qed.

Lemma alnum_is_not x s :
  (forall c, is_alnum c = true -> c <> x) ->
  forallb is_alnum s = true -> forallb (is_not x) s = true.
Proof.
  intros Hx. apply forallb_impl. intros c Hc. unfold is_not.
  apply negb_true_iff, N.eqb_neq, Hx, Hc.
Qed.

Lemma utf8ToBytes_alnum s : forallb is_alnum s = true -> utf8ToBytes s = s.
Proof.
  unfold utf8ToBytes. induction s as [| c s IH]; [reflexivity |].
  cbn [forallb]. intros H. apply andb_true_iff in H. destruct H as [Hc Hs].
  destruct (is_alnum_props c Hc) as (Hlt & Hh & Hl & _).
  cbn [code_points]. rewrite Hh, Hl. cbn [flat_map].
  unfold utf8_of_code_point at 1.
  replace (c <? 128)%N with true by (symmetry; apply N.ltb_lt, Hlt).
  cbn [app]. f_equal. apply IH, Hs.
Qed.

Lemma percent_decode_alnum s : forallb is_alnum s = true -> percent_decode s = s.
Proof.
  induction s as [| c s IH]; [reflexivity |].
  cbn [forallb]. intros H. apply andb_true_iff in H. destruct H as [Hc Hs].
  destruct (is_alnum_props c Hc) as (_ & _ & _ & H37 & _).
  cbn [percent_decode]. apply N.eqb_neq in H37. rewrite H37.
  f_equal. apply IH, Hs.
Qed.

Lemma plus_to_space_alnum s : forallb is_alnum s = true -> plus_to_space s = s.
Proof.
  unfold plus_to_space. induction s as [| c s IH]; [reflexivity |].
  cbn [forallb]. intros H. apply andb_true_iff in H. destruct H as [Hc Hs].
  destruct (is_alnum_props c Hc) as (_ & _ & _ & _ & _ & H43 & _).
  cbn [map]. apply N.eqb_neq in H43. rewrite H43. f_equal. apply IH, Hs.
Qed.

Lemma utf8_decode_alnum s : forallb is_alnum s = true -> utf8_decode s = s.
Proof.
  unfold utf8_decode. induction s as [| c s IH]; [reflexivity |].
  cbn [forallb]. intros H. apply andb_true_iff in H. destruct H as [Hc Hs].
  destruct (is_alnum_props c Hc) as (Hlt & _).
  cbn [utf8_decode_from utf8_step]. unfold utf8_lead.
  replace (c <? 128)%N with true by (symmetry; apply N.ltb_lt, Hlt).
  cbn [app flat_map]. unfold utf16_of_code_point at 1.
  replace (c <? 65536)%N with true by (symmetry; apply N.ltb_lt; lia).
  cbn [app]. f_equal. apply IH, Hs.
Qed.

End Decode.
Section DecodeEncoded.

Lemma utf8ToBytes_ascii s : forallb is_ascii s = true -> utf8ToBytes s = s.
Proof.
  unfold utf8ToBytes. induction s as [| c s IH]; [reflexivity |].
  cbn [forallb]. intros H. apply andb_true_iff in H. destruct H as [Hc Hs].
  unfold is_ascii in Hc. apply N.ltb_lt in Hc.
  cbn [code_points].
  replace (is_high_surrogate c) with false
    by (symmetry; unfold is_high_surrogate; by_cases).
  replace (is_low_surrogate c) with false
    by (symmetry; unfold is_low_surrogate; by_cases).
  cbn [flat_map]. unfold utf8_of_code_point at 1.
  replace (c <? 128)%N with true by (symmetry; apply N.ltb_lt, Hc).
  cbn [app]. f_equal. apply IH, Hs.
Qed.

Lemma alnum_ascii s : forallb is_alnum s = true -> forallb is_ascii s = true.
Proof.
  apply forallb_impl. intros c Hc. apply N.ltb_lt, (is_alnum_props c Hc).
Qed.

Lemma urlencoded_value s :
  forallb is_alnum s = true ->
  utf8_decode (percent_decode (plus_to_space s)) = s.
Proof.
  intros H. rewrite plus_to_space_alnum, percent_decode_alnum, utf8_decode_alnum
    by exact H. reflexivity.
Qed.

Lemma required_some m message g :
  m = Some g -> g <> [] -> required m message = Ok g.
Proof. intros -> H. destruct g; [congruence | reflexivity]. Qed.

Ltac no_char :=
  lazymatch goal with
  | |- forallb _ (_ ++ _) = true =>
      rewrite forallb_app; apply andb_true_iff; split; no_char
  | |- forallb _ (_ :: _) = true =>
      cbn [forallb]; apply andb_true_iff; split; [reflexivity | no_char]
  | |- forallb _ [] = true => reflexivity
  | |- forallb _ (str _) = true => reflexivity
  | |- forallb is_ascii _ = true => apply alnum_ascii; assumption
  | |- forallb (is_not _) _ = true =>
      apply alnum_is_not;
      [let x := fresh in let Hx := fresh in
       intros x Hx; apply (is_alnum_props x Hx)
      | assumption]
  end.

(** [decodeEIP681] on an identifier whose addresses and amount are made of
    letters and digits and whose chain id is made of digits. *)
Lemma decodeEIP681_identifier contract chain recipient amount :
  forallb is_alnum contract = true -> contract <> [] ->
  forallb is_digit chain = true -> chain <> [] ->
  forallb is_alnum recipient = true -> recipient <> [] ->
  forallb is_alnum amount = true -> amount <> [] ->
  decodeEIP681 (identifier contract chain recipient amount)
  = Ok {| DecodedEIP681.scheme := str "ethereum";
          DecodedEIP681.contractAddress := contract;
          DecodedEIP681.chainId := parseInt10 chain;
          DecodedEIP681.functionName := str "transfer";
          DecodedEIP681.recipientAddress := recipient;
          DecodedEIP681.amount := amount |}.
Proof.
  intros Hc Hcn Hi Hin Hr Hrn Ha Han.
  assert (Hia : forallb is_alnum chain = true).
  { revert Hi. apply forallb_impl. intros c Hd. unfold is_alnum. rewrite Hd. reflexivity. }
  unfold decodeEIP681.
  (* scheme *)
  assert (E1 : match_run_here (is_not 58) 58 (identifier contract chain recipient amount)
               = Some (str "ethereum")).
  { unfold identifier. apply match_run_here_found; [reflexivity | reflexivity | discriminate]. }
  (* contract *)
  assert (E2 : match_run 58 (is_not 64) 64 (identifier contract chain recipient amount)
               = Some contract).
  { unfold identifier. apply match_run_found; try reflexivity; try assumption.
    no_char. }
  (* chain id *)
  assert (E3 : match_run 64 is_digit 47 (identifier contract chain recipient amount)
               = Some chain).
  { unfold identifier.
    replace (str "ethereum" ++ 58%N :: contract ++ 64%N :: chain ++ 47%N :: str "transfer"
             ++ 63%N :: str "address=" ++ recipient ++ 38%N :: str "uint256=" ++ amount)
      with ((str "ethereum" ++ 58%N :: contract) ++ 64%N :: chain ++ 47%N :: str "transfer"
             ++ 63%N :: str "address=" ++ recipient ++ 38%N :: str "uint256=" ++ amount)
      by (rewrite <- app_assoc; reflexivity).
    apply match_run_found; try reflexivity; try assumption. no_char. }
  (* function name *)
  assert (E4 : match_run 47 (is_not 63) 63 (identifier contract chain recipient amount)
               = Some (str "transfer")).
  { unfold identifier.
    replace (str "ethereum" ++ 58%N :: contract ++ 64%N :: chain ++ 47%N :: str "transfer"
             ++ 63%N :: str "address=" ++ recipient ++ 38%N :: str "uint256=" ++ amount)
      with ((str "ethereum" ++ 58%N :: contract ++ 64%N :: chain) ++ 47%N :: str "transfer"
             ++ 63%N :: str "address=" ++ recipient ++ 38%N :: str "uint256=" ++ amount)
      by (rewrite <- app_assoc; cbn [app]; rewrite <- app_assoc; reflexivity).
    apply match_run_found; try reflexivity; try discriminate. no_char. }
  (* query string *)
  set (query := str "address=" ++ recipient ++ 38%N :: str "uint256=" ++ amount).
  assert (E5 : nth_error (split 63 (identifier contract chain recipient amount)) 1
               = Some query).
  { unfold identifier.
    replace (str "ethereum" ++ 58%N :: contract ++ 64%N :: chain ++ 47%N :: str "transfer"
             ++ 63%N :: str "address=" ++ recipient ++ 38%N :: str "uint256=" ++ amount)
      with ((str "ethereum" ++ 58%N :: contract ++ 64%N :: chain ++ 47%N :: str "transfer")
             ++ 63%N :: query)
      by (unfold query; rewrite <- app_assoc; cbn [app]; rewrite <- app_assoc;
          cbn [app]; rewrite <- app_assoc; reflexivity).
    rewrite split_at by no_char.
    rewrite split_none by (unfold query; no_char). reflexivity. }
  (* parameters *)
  assert (E6 : URLSearchParams query
               = [(str "address", recipient); (str "uint256", amount)]).
  { assert (Hq : forallb is_ascii query = true) by (unfold query; no_char).
    assert (E : URLSearchParams query
                = map urlencoded_pair
                    (filter (fun bytes => match bytes with [] => false | _ => true end)
                            (split 38 (utf8ToBytes query)))) by reflexivity.
    rewrite E, (utf8ToBytes_ascii query Hq). clear E Hq.
    unfold query.
    replace (str "address=" ++ recipient ++ 38%N :: str "uint256=" ++ amount)
      with ((str "address=" ++ recipient) ++ 38%N :: str "uint256=" ++ amount)
      by (rewrite <- app_assoc; reflexivity).
    rewrite split_at by no_char. rewrite split_none by no_char.
    change (str "address=" ++ recipient) with (str "address" ++ 61%N :: recipient).
    change (str "uint256=" ++ amount) with (str "uint256" ++ 61%N :: amount).
    replace (filter (fun bytes : list CodeUnit =>
                       match bytes with [] => false | _ => true end)
                    [str "address" ++ 61%N :: recipient; str "uint256" ++ 61%N :: amount])
      with [str "address" ++ 61%N :: recipient; str "uint256" ++ 61%N :: amount]
      by reflexivity.
    cbn [map]. unfold urlencoded_pair.
    rewrite !span_app by reflexivity.
    rewrite !urlencoded_value by (assumption || reflexivity).
    reflexivity. }
  rewrite (required_some _ _ _ E1) by discriminate.
  rewrite (required_some _ _ _ E2) by assumption.
  rewrite (required_some _ _ _ E3) by assumption.
  rewrite (required_some _ _ _ E4) by discriminate.
  rewrite (required_some _ _ _ E5) by discriminate.
  cbn [bind]. rewrite E6.
  replace (URLSearchParams_get [(str "address", recipient); (str "uint256", amount)]
                               (str "address"))
    with (Some recipient) by reflexivity.
  replace (URLSearchParams_get [(str "address", recipient); (str "uint256", amount)]
                               (str "uint256"))
    with (Some amount) by reflexivity.
  rewrite (required_some _ _ recipient eq_refl) by assumption.
  rewrite (required_some _ _ amount eq_refl) by assumption.
  reflexivity.
Qed.

End DecodeEncoded.

Lemma is_hex_alnum c : is_hex c = true -> is_alnum c = true.
Proof.
  unfold is_hex, is_alnum, is_digit. intros H. to_arith; by_cases.
Qed.

Lemma address_alnum address :
  ADDRESS_REGEX_test address = true ->
  forallb is_alnum address = true /\ address <> [].
Proof.
  intros H. destruct (ADDRESS_REGEX_test_inv address H) as (digits & -> & _ & Hx).
  split; [| discriminate].
  cbn [forallb]. apply andb_true_iff. split; [reflexivity |].
  apply andb_true_iff. split; [reflexivity |].
  revert Hx. apply forallb_impl, is_hex_alnum.
Qed.

(** C2, as amended. For format-valid addresses [c] and [r], a non-empty
    string [m] of decimal digits and a chain id that is a positive integer
    up to [Number.MAX_SAFE_INTEGER], decoding what [encodeEIP681] returns
    succeeds and gives the chain id, the amount [m] as written, and the
    checksummed forms of [c] and [r] (with the scheme and the function
    name). *)
Theorem decodeEIP681_encodeEIP681 :
  forall (c r m : JSString) (id : Z),
    ADDRESS_REGEX_test c = true ->
    ADDRESS_REGEX_test r = true ->
    forallb is_digit m = true ->
    m <> [] ->
    (0 < id <= MAX_SAFE_INTEGER)%Z ->
    exists checksummedContract checksummedRecipient,
      toChecksumAddress c = Ok checksummedContract
      /\ toChecksumAddress r = Ok checksummedRecipient
      /\ (uri <- encodeEIP681 c r m (num id) ;; decodeEIP681 uri)
         = Ok {| DecodedEIP681.scheme := str "ethereum";
                 DecodedEIP681.contractAddress := checksummedContract;
                 DecodedEIP681.chainId := num id;
                 DecodedEIP681.functionName := str "transfer";
                 DecodedEIP681.recipientAddress := checksummedRecipient;
                 DecodedEIP681.amount := m |}.
Proof.
  intros c r m id Hc Hr Hm Hmn Hid.
  destruct (toChecksumAddress_total c Hc) as (cc & Ecc & Hcc).
  destruct (toChecksumAddress_total r Hr) as (cr & Ecr & Hcr).
  exists cc, cr. split; [exact Ecc |]. split; [exact Ecr |].
  destruct (address_alnum cc Hcc) as [Hca Hcn].
  destruct (address_alnum cr Hcr) as [Hra Hrn].
  destruct (N_toString_spec (Z.to_N id)) as (Hd & Hdn & _).
  assert (Hma : forallb is_alnum m = true).
  { revert Hm. apply forallb_impl. intros x Hx. unfold is_alnum. rewrite Hx. reflexivity. }
  unfold encodeEIP681. rewrite Ecc, Ecr. cbn [bind try_catch].
  rewrite Number_toString_safe by lia.
  change (EIP681_SCHEME ++ str ":" ++ cc ++ str "@" ++ N_toString (Z.to_N id)
          ++ str "/" ++ TRANSFER_FUNCTION ++ str "?address=" ++ cr
          ++ str "&uint256=" ++ m)
    with (identifier cc (N_toString (Z.to_N id)) cr m).
  rewrite decodeEIP681_identifier by assumption.
  rewrite parseInt10_safe by exact Hid. reflexivity.
Qed.

Lemma decodeEIP681_encodeEIP681_witness :
  exists checksummedContract checksummedRecipient,
    toChecksumAddress (str "0xe7c3d8c9a439fede00d2600032d5db0be71c3c29")
    = Ok checksummedContract
    /\ toChecksumAddress (str "0x1234567890123456789012345678901234567890")
       = Ok checksummedRecipient
    /\ (uri <- encodeEIP681 (str "0xe7c3d8c9a439fede00d2600032d5db0be71c3c29")
                            (str "0x1234567890123456789012345678901234567890")
                            (str "1000000000000000000") (num 137) ;;
        decodeEIP681 uri)
       = Ok {| DecodedEIP681.scheme := str "ethereum";
               DecodedEIP681.contractAddress := checksummedContract;
               DecodedEIP681.chainId := num 137;
               DecodedEIP681.functionName := str "transfer";
               DecodedEIP681.recipientAddress := checksummedRecipient;
               DecodedEIP681.amount := str "1000000000000000000" |}.
Proof.
  apply (decodeEIP681_encodeEIP681
           (str "0xe7c3d8c9a439fede00d2600032d5db0be71c3c29")
           (str "0x1234567890123456789012345678901234567890")
           (str "1000000000000000000") 137);
    [vm_compute; reflexivity | vm_compute; reflexivity | reflexivity
    | discriminate | unfold MAX_SAFE_INTEGER; lia].
Defined.

(** C2, as stated, fails at the chain id [10^21], a positive integer and a
    double: [`${chainId}`] is [1e+21], which the encoder writes into the
    identifier, and the decoder finds no run of digits between ["@"] and
    ["/"]. *)
Lemma decodeEIP681_encodeEIP681_large_chain_id :
  encodeEIP681 (str "0xe7c3d8c9a439fede00d2600032d5db0be71c3c29")
               (str "0x1234567890123456789012345678901234567890")
               (str "1") (num (10 ^ 21))
  = Ok (str "ethereum:0xE7C3D8C9a439feDe00D2600032D5dB0Be71C3c29@1e+21/transfer?address=0x1234567890123456789012345678901234567890&uint256=1")
  /\ (uri <- encodeEIP681 (str "0xe7c3d8c9a439fede00d2600032d5db0be71c3c29")
                          (str "0x1234567890123456789012345678901234567890")
                          (str "1") (num (10 ^ 21)) ;;
      decodeEIP681 uri)
     = Throw (JPYCPaymentError
                (str "EIP-681 URIのデコードに失敗しました") ENCODING_FAILED
                (DetailsUriError
                   (str "ethereum:0xE7C3D8C9a439feDe00D2600032D5dB0Be71C3c29@1e+21/transfer?address=0x1234567890123456789012345678901234567890&uint256=1")
                   (Error (str "チェーンIDが見つかりません")))).
Proof. split; vm_compute; reflexivity. Qed.

(** ** The identifier codec: missing fields *)

Section MissingFields.

Lemma match_run_here_sound C R s g :
  match_run_here C R s = Some g ->
  exists post, s = g ++ R :: post /\ g <> [] /\ forallb C g = true.
Proof.
  unfold match_run_here. destruct (span_spec C s) as (E & Hg & _).
  destruct (span C s) as [a b]. cbn [fst snd] in *.
  destruct a as [| c a]; [discriminate |].
  destruct b as [| r b]; [discriminate |].
  destruct (N.eqb_spec r R) as [-> | _]; [| discriminate].
  intros [= <-]. exists b. repeat split; [exact E | discriminate | exact Hg].
Qed.

Lemma match_run_sound L C R s g :
  match_run L C R s = Some g -> occurs L C R s /\ g <> [] /\ forallb C g = true.
Proof.
  induction s as [| c s IH]; [discriminate |]. cbn [match_run].
  assert (Hrec : match_run L C R s = Some g ->
                 occurs L C R (c :: s) /\ g <> [] /\ forallb C g = true).
  { intros H. destruct (IH H) as ((pre & g' & post & -> & Hn & Hg) & Hgn & Hgc).
    repeat split; try assumption. exists (c :: pre), g', post. auto. }
  destruct (N.eqb_spec c L) as [-> | _]; [| exact Hrec].
  destruct (match_run_here C R s) as [g' |] eqn:E; [| exact Hrec].
  intros [= <-]. destruct (match_run_here_sound C R s g' E) as (post & -> & Hn & Hg).
  repeat split; try assumption. exists [], g', post. auto.
Qed.

(** The two ways out of [required]. *)
Lemma required_cases m message :
  (exists g, m = Some g /\ g <> [] /\ required m message = Ok g)
  \/ ((m = None \/ m = Some []) /\ required m message = Throw (Error message)).
Proof.
  destruct m as [[| c g] |]; cbn [required]; [right | left | right]; eauto.
  exists (c :: g). repeat split. discriminate.
Qed.

(** The decoder either throws its own error with the identifier attached, or
    every step found its field. *)
Lemma decodeEIP681_cases uri :
  (exists cause,
      decodeEIP681 uri
      = Throw (JPYCPaymentError (str "EIP-681 URIのデコードに失敗しました")
                                ENCODING_FAILED (DetailsUriError uri (Error cause))))
  \/ (exists scheme contract chain function recipient amount,
         match_run_here (is_not 58) 58 uri = Some scheme /\ scheme <> []
         /\ match_run 58 (is_not 64) 64 uri = Some contract /\ contract <> []
         /\ match_run 64 is_digit 47 uri = Some chain /\ chain <> []
         /\ match_run 47 (is_not 63) 63 uri = Some function /\ function <> []
         /\ query_parameter uri (str "address") = Some recipient /\ recipient <> []
         /\ query_parameter uri (str "uint256") = Some amount /\ amount <> []
         /\ decodeEIP681 uri
            = Ok {| DecodedEIP681.scheme := scheme;
                    DecodedEIP681.contractAddress := contract;
                    DecodedEIP681.chainId := parseInt10 chain;
                    DecodedEIP681.functionName := function;
                    DecodedEIP681.recipientAddress := recipient;
                    DecodedEIP681.amount := amount |}).
Proof.
  unfold decodeEIP681, query_parameter.
  destruct (required_cases (match_run_here (is_not 58) 58 uri)
              (str "スキームが見つかりません")) as [(g1 & E1 & N1 & ->) | [_ ->]];
    [| left; eexists; reflexivity].
  destruct (required_cases (match_run 58 (is_not 64) 64 uri)
              (str "コントラクトアドレスが見つかりません")) as [(g2 & E2 & N2 & ->) | [_ ->]];
    [| left; eexists; reflexivity].
  destruct (required_cases (match_run 64 is_digit 47 uri)
              (str "チェーンIDが見つかりません")) as [(g3 & E3 & N3 & ->) | [_ ->]];
    [| left; eexists; reflexivity].
  destruct (required_cases (match_run 47 (is_not 63) 63 uri)
              (str "関数名が見つかりません")) as [(g4 & E4 & N4 & ->) | [_ ->]];
    [| left; eexists; reflexivity].
  destruct (required_cases (nth_error (split 63 uri) 1)
              (str "クエリパラメータが見つかりません")) as [(q & E5 & N5 & ->) | [_ ->]];
    [| left; eexists; reflexivity].
  cbn [bind]. rewrite E5.
  destruct q as [| q0 q]; [congruence |].
  destruct (required_cases (URLSearchParams_get (URLSearchParams (q0 :: q)) (str "address"))
              (str "受取アドレスが見つかりません")) as [(g6 & E6 & N6 & ->) | [_ ->]];
    [| left; eexists; reflexivity].
  destruct (required_cases (URLSearchParams_get (URLSearchParams (q0 :: q)) (str "uint256"))
              (str "金額が見つかりません")) as [(g7 & E7 & N7 & ->) | [_ ->]];
    [| left; eexists; reflexivity].
  right. exists g1, g2, g3, g4, g6, g7. cbn [bind try_catch].
  repeat split; try assumption; reflexivity.
Qed.

End MissingFields.

(** What [decodeEIP681] refuses. A string in which one of its patterns finds
    nothing (no scheme before the first [":"]; nowhere a non-empty run
    between a [":"] and an ["@"], nowhere digits between an ["@"] and a
    ["/"], nowhere a non-empty run between a ["/"] and a ["?"]; no [address]
    or no [uint256] query parameter) makes it throw an error of kind
    [ENCODING_FAILED] that carries the string and the cause; whatever the
    decoder throws is such an error; and a record it returns has no empty
    field. An identifier without the [uint256] parameter is refused. *)
Theorem decodeEIP681_missing_field :
  (forall uri : JSString,
      ~ scheme_present uri
      \/ ~ occurs 58 (is_not 64) 64 uri
      \/ ~ occurs 64 is_digit 47 uri
      \/ ~ occurs 47 (is_not 63) 63 uri
      \/ parameter_missing uri (str "address")
      \/ parameter_missing uri (str "uint256") ->
      exists cause,
        decodeEIP681 uri
        = Throw (JPYCPaymentError (str "EIP-681 URIのデコードに失敗しました")
                                  ENCODING_FAILED (DetailsUriError uri (Error cause))))
  /\ (forall (uri : JSString) (thrown : Thrown),
         decodeEIP681 uri = Throw thrown ->
         exists cause,
           thrown = JPYCPaymentError (str "EIP-681 URIのデコードに失敗しました")
                                     ENCODING_FAILED (DetailsUriError uri (Error cause)))
  /\ (forall (uri : JSString) (d : DecodedEIP681.t),
         decodeEIP681 uri = Ok d -> complete d)
  /\ decodeEIP681 (str "ethereum:0xE7C3D8C9a439feDe00D2600032D5dB0Be71C3c29@137/transfer?address=0x1234567890123456789012345678901234567890")
     = Throw (JPYCPaymentError
                (str "EIP-681 URIのデコードに失敗しました") ENCODING_FAILED
                (DetailsUriError
                   (str "ethereum:0xE7C3D8C9a439feDe00D2600032D5dB0Be71C3c29@137/transfer?address=0x1234567890123456789012345678901234567890")
                   (Error (str "金額が見つかりません")))).
Proof.
  split; [| split; [| split; [| vm_compute; reflexivity]]].
  - intros uri H.
    destruct (decodeEIP681_cases uri)
      as [Hthrow | (s & c & i & f & r & a & E1 & N1 & E2 & N2 & E3 & N3 & E4 & N4
                    & E5 & N5 & E6 & N6 & _)]; [exact Hthrow | exfalso].
    destruct H as [H | [H | [H | [H | [H | H]]]]].
    + apply H. destruct (match_run_here_sound _ _ _ _ E1) as (post & -> & Hn & Hg).
      exists s, post. auto.
    + apply H. apply (match_run_sound _ _ _ _ _ E2).
    + apply H. apply (match_run_sound _ _ _ _ _ E3).
    + apply H. apply (match_run_sound _ _ _ _ _ E4).
    + destruct H as [H | H]; rewrite H in E5; congruence.
    + destruct H as [H | H]; rewrite H in E6; congruence.
  - intros uri thrown H.
    destruct (decodeEIP681_cases uri) as [[cause E] | (s & c & i & f & r & a & Hrest)].
    + rewrite E in H. injection H as <-. eauto.
    + destruct Hrest as (_ & _ & _ & _ & _ & _ & _ & _ & _ & _ & _ & _ & E).
      rewrite E in H. discriminate H.
  - intros uri d H.
    destruct (decodeEIP681_cases uri)
      as [[cause E] | (s & c & i & f & r & a & E1 & N1 & E2 & N2 & E3 & N3 & E4 & N4
                       & E5 & N5 & E6 & N6 & E)].
    + rewrite E in H. discriminate H.
    + rewrite E in H. injection H as <-. unfold complete. cbn.
      repeat split; try assumption.
      destruct (match_run_sound _ _ _ _ _ E3) as (_ & _ & Hd).
      rewrite (parseInt10_digits i Hd N3). apply round_double_not_NaN.
Qed.

Lemma decodeEIP681_missing_field_witness :
  exists cause,
    decodeEIP681 (str "ethereum:0xE7C3D8C9a439feDe00D2600032D5dB0Be71C3c29@137/transfer?address=0x1234567890123456789012345678901234567890")
    = Throw (JPYCPaymentError
               (str "EIP-681 URIのデコードに失敗しました") ENCODING_FAILED
               (DetailsUriError
                  (str "ethereum:0xE7C3D8C9a439feDe00D2600032D5dB0Be71C3c29@137/transfer?address=0x1234567890123456789012345678901234567890")
                  (Error cause))).
Proof.
  apply (proj1 decodeEIP681_missing_field).
  do 5 right. left. vm_compute. reflexivity.
Defined.

(** C8. [decodeEIP681] looks for the contract address, the chain id and the
    function name anywhere in the string, and not at their places: an
    identifier in which one of them is missing is not refused when the
    pattern finds a match further on, in the query. With nothing between
    [":"] and ["@"] the contract address is taken from the [address]
    parameter; with nothing between ["@"] and ["/"] the chain id is taken
    from there too; with nothing between ["/"] and ["?"] the function name
    is taken from the end of the string. *)
Theorem decodeEIP681_misplaced_fields :
  decodeEIP681 (str "ethereum:@137/transfer?address=0x:1@2&uint256=5")
  = Ok {| DecodedEIP681.scheme := str "ethereum";
          DecodedEIP681.contractAddress := str "1";
          DecodedEIP681.chainId := num 137;
          DecodedEIP681.functionName := str "transfer";
          DecodedEIP681.recipientAddress := str "0x:1@2";
          DecodedEIP681.amount := str "5" |}
  /\ decodeEIP681 (str "ethereum:0xabc@/transfer?address=a@5/b&uint256=1")
     = Ok {| DecodedEIP681.scheme := str "ethereum";
             DecodedEIP681.contractAddress := str "0xabc";
             DecodedEIP681.chainId := num 5;
             DecodedEIP681.functionName := str "transfer";
             DecodedEIP681.recipientAddress := str "a@5/b";
             DecodedEIP681.amount := str "1" |}
  /\ decodeEIP681 (str "ethereum:0xabc@1/?address=a&uint256=5/g?")
     = Ok {| DecodedEIP681.scheme := str "ethereum";
             DecodedEIP681.contractAddress := str "0xabc";
             DecodedEIP681.chainId := num 1;
             DecodedEIP681.functionName := str "g";
             DecodedEIP681.recipientAddress := str "a";
             DecodedEIP681.amount := str "5/g" |}.
Proof. repeat split; vm_compute; reflexivity. Qed.

(** ** The validator and the request builder *)

Section Validator.

Lemma validateGenerateOptions_errors options :
  ValidationResult.errors (validateGenerateOptions options)
  = validate_merchantAddress (PaymentURIOptions.merchantAddress options)
    ++ fst (validate_amount (PaymentURIOptions.amount options))
    ++ validate_network (PaymentURIOptions.network options)
    ++ fst (validate_jpycContractAddress (PaymentURIOptions.jpycContractAddress options))
    ++ fst (validate_decimals (PaymentURIOptions.decimals options)
                              (PaymentURIOptions.jpycContractAddress options)).
Proof.
  unfold validateGenerateOptions.
  destruct (validate_amount _) as [e1 w1].
  destruct (validate_jpycContractAddress _) as [e2 w2].
  destruct (validate_decimals _ _) as [e3 w3].
  cbn [ValidationResult.errors fst app]. rewrite <- !app_assoc. reflexivity.
Qed.

Lemma validateGenerateOptions_warnings options :
  ValidationResult.warnings (validateGenerateOptions options)
  = snd (validate_amount (PaymentURIOptions.amount options))
    ++ snd (validate_jpycContractAddress (PaymentURIOptions.jpycContractAddress options))
    ++ snd (validate_decimals (PaymentURIOptions.decimals options)
                              (PaymentURIOptions.jpycContractAddress options)).
Proof.
  unfold validateGenerateOptions.
  destruct (validate_amount _) as [e1 w1].
  destruct (validate_jpycContractAddress _) as [e2 w2].
  destruct (validate_decimals _ _) as [e3 w3].
  cbn [ValidationResult.warnings snd app]. rewrite <- !app_assoc. reflexivity.
Qed.

Lemma validateGenerateOptions_valid options :
  ValidationResult.valid (validateGenerateOptions options) = true
  <-> ValidationResult.errors (validateGenerateOptions options) = [].
Proof.
  unfold validateGenerateOptions.
  destruct (validate_amount _) as [e1 w1].
  destruct (validate_jpycContractAddress _) as [e2 w2].
  destruct (validate_decimals _ _) as [e3 w3].
  cbn [ValidationResult.valid ValidationResult.errors].
  rewrite Nat.eqb_eq. apply length_zero_iff_nil.
Qed.

End Validator.

(** C9. [validateGenerateOptions] is a total function (it returns a verdict
    for every options object: it cannot throw). Its list of errors is, in
    order, what each of the five checks reports, whatever the other checks
    found: one failure does not hide another, and an invalid merchant
    address and an invalid amount are both reported. The verdict is valid
    exactly when the list of errors is empty; warnings may come with a
    valid verdict. [generatePaymentURI] turns an invalid verdict into one
    [VALIDATION_FAILED] error whose message joins, and whose details list,
    every message. *)
Theorem validateGenerateOptions_aggregates :
  (forall options : PaymentURIOptions.t,
      ValidationResult.errors (validateGenerateOptions options)
      = validate_merchantAddress (PaymentURIOptions.merchantAddress options)
        ++ fst (validate_amount (PaymentURIOptions.amount options))
        ++ validate_network (PaymentURIOptions.network options)
        ++ fst (validate_jpycContractAddress
                  (PaymentURIOptions.jpycContractAddress options))
        ++ fst (validate_decimals (PaymentURIOptions.decimals options)
                                  (PaymentURIOptions.jpycContractAddress options)))
  /\ (forall (options : PaymentURIOptions.t) (address : JSString) (amount : JSString),
         PaymentURIOptions.merchantAddress options = Some address ->
         address <> [] ->
         isValidAddressFormat address = false ->
         PaymentURIOptions.amount options = Some (AmountString amount) ->
         amount <> [] ->
         Number_isNaN (parseFloat amount) = true ->
         In (str "無効な加盟店アドレス形式です: " ++ address
             ++ str "。0xで始まる42文字の16進数である必要があります")
            (ValidationResult.errors (validateGenerateOptions options))
         /\ In (str "無効な金額形式です: " ++ amount)
               (ValidationResult.errors (validateGenerateOptions options)))
  /\ (forall options : PaymentURIOptions.t,
         ValidationResult.valid (validateGenerateOptions options) = true
         <-> ValidationResult.errors (validateGenerateOptions options) = [])
  /\ (ValidationResult.valid
        (validateGenerateOptions
           (basic_options (str "0xe7c3d8c9a439fede00d2600032d5db0be71c3c29")
                          (AmountNumber (num 10000000)))) = true
      /\ map Warning.code
             (ValidationResult.warnings
                (validateGenerateOptions
                   (basic_options (str "0xe7c3d8c9a439fede00d2600032d5db0be71c3c29")
                                  (AmountNumber (num 10000000)))))
         = [str "LARGE_AMOUNT"])
  /\ (forall options : PaymentURIOptions.t,
         ValidationResult.valid (validateGenerateOptions options) = false ->
         generatePaymentURI options
         = Throw (JPYCPaymentError
                    (str "バリデーションに失敗しました: "
                     ++ join (str ", ")
                             (ValidationResult.errors (validateGenerateOptions options)))
                    VALIDATION_FAILED
                    (DetailsErrors
                       (ValidationResult.errors (validateGenerateOptions options))))).
Proof.
  split; [exact validateGenerateOptions_errors |].
  split.
  { intros options address amount Hm Hmn Hbad Ha Han HNaN.
    rewrite validateGenerateOptions_errors, Hm, Ha. split.
    - apply in_or_app. left. unfold validate_merchantAddress.
      destruct address as [| c address]; [congruence |].
      rewrite Hbad. left. reflexivity.
    - apply in_or_app. right. apply in_or_app. left. unfold validate_amount.
      destruct amount as [| c amount]; [congruence |].
      rewrite HNaN. left. reflexivity. }
  split; [exact validateGenerateOptions_valid |].
  split; [split; vm_compute; reflexivity |].
  intros options H. unfold generatePaymentURI. rewrite H. reflexivity.
Qed.

Lemma validateGenerateOptions_aggregates_witness :
  generatePaymentURI (basic_options (str "invalid") (AmountString (str "abc")))
  = Throw (JPYCPaymentError
             (str "バリデーションに失敗しました: "
              ++ join (str ", ")
                      (ValidationResult.errors
                         (validateGenerateOptions
                            (basic_options (str "invalid") (AmountString (str "abc"))))))
             VALIDATION_FAILED
             (DetailsErrors
                (ValidationResult.errors
                   (validateGenerateOptions
                      (basic_options (str "invalid") (AmountString (str "abc")))))))
  /\ length (ValidationResult.errors
               (validateGenerateOptions
                  (basic_options (str "invalid") (AmountString (str "abc"))))) = 2.
Proof.
  split; [| vm_compute; reflexivity].
  apply (proj2 (proj2 (proj2 (proj2 validateGenerateOptions_aggregates)))).
  vm_compute. reflexivity.
Defined.

Section RequestBuilder.

(** What a valid verdict says of each field. *)
Lemma validate_merchantAddress_nil m :
  validate_merchantAddress m = [] ->
  exists address, m = Some address /\ ADDRESS_REGEX_test address = true.
Proof.
  unfold validate_merchantAddress, isValidAddressFormat.
  destruct m as [[| c address] |]; try discriminate.
  destruct (ADDRESS_REGEX_test (c :: address)) eqn:E; [eauto | discriminate].
Qed.

Lemma validate_amount_nil a :
  fst (validate_amount a) = [] -> exists amount, a = Some amount.
Proof.
  destruct a as [amount |]; [eauto | discriminate].
Qed.

Lemma JSString_eqb_eq a b : JSString_eqb a b = true <-> a = b.
Proof.
  unfold JSString_eqb. destruct (list_eq_dec N.eq_dec a b); split; congruence.
Qed.

Lemma CHAIN_CONFIGS_addresses network chainConfig :
  lookup CHAIN_CONFIGS network = Some chainConfig ->
  ADDRESS_REGEX_test (ChainConfig.jpycAddress chainConfig) = true.
Proof.
  unfold CHAIN_CONFIGS. cbn [lookup].
  repeat match goal with
         | |- context [JSString_eqb ?a ?b] => destruct (JSString_eqb a b)
         end;
    intros [= <-] || discriminate; vm_compute; reflexivity.
Qed.

(** What [CHAIN_CONFIGS[network]] can be. *)
Lemma get_Own {A : Type} (object : list (JSString * A)) key value :
  lookup object key = Some value -> get object key = Some (Own value).
Proof.
  intros E. unfold get. rewrite E. reflexivity.
Qed.

Lemma get_Inherited network :
  In network Object_prototype ->
  lookup CHAIN_CONFIGS network = None
  /\ get CHAIN_CONFIGS network = Some (Inherited network).
Proof.
  unfold Object_prototype. cbn [In].
  intros H; repeat (destruct H as [<- | H]; [split; vm_compute; reflexivity |]);
    destruct H.
Qed.

Lemma get_cases {A : Type} (object : list (JSString * A)) key property :
  get object key = Some property ->
  (exists value, lookup object key = Some value /\ property = Own value)
  \/ (lookup object key = None /\ In key Object_prototype /\ property = Inherited key).
Proof.
  unfold get. destruct (lookup object key) as [value |].
  - intros [= <-]. left. eauto.
  - destruct (existsb (JSString_eqb key) Object_prototype) eqn:E; [| discriminate].
    intros [= <-]. right. repeat split.
    apply existsb_exists in E. destruct E as (k & Hk & E).
    apply JSString_eqb_eq in E. subst k. exact Hk.
Qed.

Lemma validate_network_nil n :
  validate_network n = [] ->
  exists chainConfig,
    get CHAIN_CONFIGS (match n with Some x => x | None => DEFAULT_NETWORK end)
    = Some chainConfig.
Proof.
  unfold validate_network. destruct n as [x |].
  - destruct (get CHAIN_CONFIGS x) as [c |]; [eauto | discriminate].
  - intros _. eexists. vm_compute. reflexivity.
Qed.

Lemma validate_jpycContractAddress_nil c :
  fst (validate_jpycContractAddress c) = [] ->
  match c with
  | Some address => ADDRESS_REGEX_test address = true
  | None => True
  end.
Proof.
  unfold validate_jpycContractAddress, isValidAddressFormat.
  destruct c as [address |]; [| trivial].
  destruct (ADDRESS_REGEX_test address); [reflexivity | discriminate].
Qed.

(** An address that passes the format check is checksummed and written. *)
Lemma encodeEIP681_Ok c r m chainId :
  ADDRESS_REGEX_test c = true -> ADDRESS_REGEX_test r = true ->
  exists cc cr,
    toChecksumAddress c = Ok cc /\ toChecksumAddress r = Ok cr
    /\ ADDRESS_REGEX_test cc = true /\ ADDRESS_REGEX_test cr = true
    /\ encodeEIP681 c r m chainId = Ok (identifier cc (Number_toString chainId) cr m).
Proof.
  intros Hc Hr.
  destruct (toChecksumAddress_total c Hc) as (cc & Ecc & Hcc).
  destruct (toChecksumAddress_total r Hr) as (cr & Ecr & Hcr).
  exists cc, cr. repeat split; try assumption.
  unfold encodeEIP681. rewrite Ecc, Ecr. reflexivity.
Qed.

(** On arguments of its declared types, the call is [encodeEIP681]. *)
Lemma encodeEIP681_untyped_typed c r m chainId :
  encodeEIP681_untyped (Some c) r m (Some chainId) = encodeEIP681 c r m chainId.
Proof. reflexivity. Qed.

(** What [generatePaymentURI] does once the validator has passed. *)
Lemma generatePaymentURI_passed options :
  ValidationResult.valid (validateGenerateOptions options) = true ->
  exists merchantAddress amount chainConfig,
    PaymentURIOptions.merchantAddress options = Some merchantAddress
    /\ ADDRESS_REGEX_test merchantAddress = true
    /\ PaymentURIOptions.amount options = Some amount
    /\ get CHAIN_CONFIGS (match PaymentURIOptions.network options with
                          | Some n => n
                          | None => DEFAULT_NETWORK
                          end) = Some chainConfig
    /\ match PaymentURIOptions.jpycContractAddress options with
       | Some address => ADDRESS_REGEX_test address = true
       | None => True
       end
    /\ generatePaymentURI options
       = (let network := match PaymentURIOptions.network options with
                         | Some n => n
                         | None => DEFAULT_NETWORK
                         end in
          let jpycAddress := match PaymentURIOptions.jpycContractAddress options with
                             | Some a => Some a
                             | None => Property_jpycAddress chainConfig
                             end in
          let decimals := match PaymentURIOptions.decimals options with
                          | Some d => d
                          | None => JPYC_DECIMALS
                          end in
          amountWei <- jpyToWei amount decimals ;;
          uri <- encodeEIP681_untyped jpycAddress merchantAddress amountWei
                                      (Property_chainId chainConfig) ;;
          jpycAddress <- present jpycAddress ;;
          Ok {| PaymentURIResult.uri := uri;
                PaymentURIResult.chainId := Property_chainId chainConfig;
                PaymentURIResult.network := network;
                PaymentURIResult.jpycContractAddress := jpycAddress;
                PaymentURIResult.amountWei := amountWei;
                PaymentURIResult.amountJPY := Amount_toString amount;
                PaymentURIResult.decimals := decimals;
                PaymentURIResult.warnings :=
                  ValidationResult.warnings (validateGenerateOptions options) |}).
Proof.
  intros Hvalid.
  pose proof (proj1 (validateGenerateOptions_valid options) Hvalid) as Herr.
  rewrite validateGenerateOptions_errors in Herr.
  apply app_eq_nil in Herr. destruct Herr as [H1 Herr].
  apply app_eq_nil in Herr. destruct Herr as [H2 Herr].
  apply app_eq_nil in Herr. destruct Herr as [H3 Herr].
  apply app_eq_nil in Herr. destruct Herr as [H4 _].
  destruct (validate_merchantAddress_nil _ H1) as (merchant & Em & Hm).
  destruct (validate_amount_nil _ H2) as (amount & Ea).
  destruct (validate_network_nil _ H3) as (config & Ec).
  pose proof (validate_jpycContractAddress_nil _ H4) as Hj.
  exists merchant, amount, config.
  repeat (split; [assumption |]).
  unfold generatePaymentURI. rewrite Hvalid. cbn [negb].
  rewrite Ec, Ea, Em. reflexivity.
Qed.

(** The same, when the network is one of the keys of [CHAIN_CONFIGS]. *)
Lemma generatePaymentURI_own options chainConfig :
  ValidationResult.valid (validateGenerateOptions options) = true ->
  lookup CHAIN_CONFIGS (match PaymentURIOptions.network options with
                        | Some n => n
                        | None => DEFAULT_NETWORK
                        end) = Some chainConfig ->
  exists merchantAddress amount,
    PaymentURIOptions.merchantAddress options = Some merchantAddress
    /\ ADDRESS_REGEX_test merchantAddress = true
    /\ PaymentURIOptions.amount options = Some amount
    /\ ADDRESS_REGEX_test (match PaymentURIOptions.jpycContractAddress options with
                           | Some a => a
                           | None => ChainConfig.jpycAddress chainConfig
                           end) = true
    /\ generatePaymentURI options
       = (let network := match PaymentURIOptions.network options with
                         | Some n => n
                         | None => DEFAULT_NETWORK
                         end in
          let jpycAddress := match PaymentURIOptions.jpycContractAddress options with
                             | Some a => a
                             | None => ChainConfig.jpycAddress chainConfig
                             end in
          let decimals := match PaymentURIOptions.decimals options with
                          | Some d => d
                          | None => JPYC_DECIMALS
                          end in
          amountWei <- jpyToWei amount decimals ;;
          uri <- encodeEIP681 jpycAddress merchantAddress amountWei
                              (ChainConfig.chainId chainConfig) ;;
          Ok {| PaymentURIResult.uri := uri;
                PaymentURIResult.chainId := Some (ChainConfig.chainId chainConfig);
                PaymentURIResult.network := network;
                PaymentURIResult.jpycContractAddress := jpycAddress;
                PaymentURIResult.amountWei := amountWei;
                PaymentURIResult.amountJPY := Amount_toString amount;
                PaymentURIResult.decimals := decimals;
                PaymentURIResult.warnings :=
                  ValidationResult.warnings (validateGenerateOptions options) |}).
Proof.
  intros Hvalid Ec.
  destruct (generatePaymentURI_passed options Hvalid)
    as (merchant & amount & property & Em & Hm & Ea & Eg & Hj & E).
  rewrite (get_Own _ _ _ Ec) in Eg. injection Eg as <-.
  exists merchant, amount. repeat (split; [assumption |]). split.
  { destruct (PaymentURIOptions.jpycContractAddress options).
    - exact Hj.
    - apply (CHAIN_CONFIGS_addresses _ chainConfig Ec). }
  rewrite E. cbn zeta. cbn [Property_jpycAddress Property_chainId].
  destruct (jpyToWei amount _) as [amountWei |]; [| reflexivity].
  cbn [bind].
  destruct (PaymentURIOptions.jpycContractAddress options) as [a |];
    rewrite encodeEIP681_untyped_typed;
    destruct (encodeEIP681 _ _ _ _); reflexivity.
Qed.

End RequestBuilder.

(** C10, as amended. When [validateGenerateOptions] passes, the merchant
    address and the amount are present; when moreover the network (the one
    of the options, or ['polygon']) is one of the keys of [CHAIN_CONFIGS],
    [generatePaymentURI] throws what [jpyToWei] throws on the amount, and if
    [jpyToWei] returns [amountWei] it returns the record with that network
    and its chain id, the contract address of the options or else of the
    network, the decimals of the options or else 18, [amountWei], the
    amount as a string, the warnings of the validator, and the identifier
    that [encodeEIP681] makes of them. *)
Theorem generatePaymentURI_result :
  forall (options : PaymentURIOptions.t) (chainConfig : ChainConfig.t),
    ValidationResult.valid (validateGenerateOptions options) = true ->
    lookup CHAIN_CONFIGS (match PaymentURIOptions.network options with
                          | Some n => n
                          | None => DEFAULT_NETWORK
                          end) = Some chainConfig ->
    let network := match PaymentURIOptions.network options with
                   | Some n => n
                   | None => DEFAULT_NETWORK
                   end in
    let decimals := match PaymentURIOptions.decimals options with
                    | Some d => d
                    | None => JPYC_DECIMALS
                    end in
    exists merchantAddress amount,
      PaymentURIOptions.merchantAddress options = Some merchantAddress
      /\ PaymentURIOptions.amount options = Some amount
      /\ let jpycAddress := match PaymentURIOptions.jpycContractAddress options with
                            | Some a => a
                            | None => ChainConfig.jpycAddress chainConfig
                            end in
         (forall thrown,
             jpyToWei amount decimals = Throw thrown ->
             generatePaymentURI options = Throw thrown)
         /\ (forall amountWei,
                jpyToWei amount decimals = Ok amountWei ->
                exists uri,
                  encodeEIP681 jpycAddress merchantAddress amountWei
                               (ChainConfig.chainId chainConfig) = Ok uri
                  /\ generatePaymentURI options
                     = Ok {| PaymentURIResult.uri := uri;
                             PaymentURIResult.chainId :=
                               Some (ChainConfig.chainId chainConfig);
                             PaymentURIResult.network := network;
                             PaymentURIResult.jpycContractAddress := jpycAddress;
                             PaymentURIResult.amountWei := amountWei;
                             PaymentURIResult.amountJPY := Amount_toString amount;
                             PaymentURIResult.decimals := decimals;
                             PaymentURIResult.warnings :=
                               ValidationResult.warnings
                                 (validateGenerateOptions options) |}).
Proof.
  intros options chainConfig Hvalid Ec network decimals. subst network decimals.
  destruct (generatePaymentURI_own options chainConfig Hvalid Ec)
    as (merchant & amount & Em & Hm & Ea & Hja & E).
  exists merchant, amount.
  split; [exact Em |]. split; [exact Ea |].
  intros jpycAddress. fold jpycAddress in Hja. rewrite E. cbn zeta.
  fold jpycAddress. split.
  - intros thrown Ew. rewrite Ew. reflexivity.
  - intros amountWei Ew. rewrite Ew. cbn [bind].
    destruct (encodeEIP681_Ok jpycAddress merchant amountWei
                              (ChainConfig.chainId chainConfig) Hja Hm)
      as (cc & cr & _ & _ & _ & _ & Euri).
    eexists. split; [exact Euri |]. rewrite Euri. reflexivity.
Qed.

Lemma generatePaymentURI_result_witness :
  exists merchantAddress amount,
    PaymentURIOptions.merchantAddress
      (basic_options (str "0x1234567890123456789012345678901234567890")
                     (AmountNumber (num 100))) = Some merchantAddress
    /\ PaymentURIOptions.amount
         (basic_options (str "0x1234567890123456789012345678901234567890")
                        (AmountNumber (num 100))) = Some amount.
Proof.
  destruct (generatePaymentURI_result
              (basic_options (str "0x1234567890123456789012345678901234567890")
                             (AmountNumber (num 100)))
              {| ChainConfig.chainId := num 137;
                 ChainConfig.name := str "Polygon";
                 ChainConfig.jpycAddress :=
                   str "0xe7c3d8c9a439fede00d2600032d5db0be71c3c29";
                 ChainConfig.explorerUrl := str "https://polygonscan.com" |})
    as (m & a & Hm & Ha & _).
  - vm_compute. reflexivity.
  - vm_compute. reflexivity.
  - exists m, a. split; assumption.
Defined.

(** C10, as stated, fails on the amount ["1.2.3"]: the validator reads it
    with [parseFloat] as 1.2 and passes, and [jpyToWei], which counts the
    separators, refuses it, so [generatePaymentURI] returns no record. *)
Lemma generatePaymentURI_two_separators :
  ValidationResult.valid
    (validateGenerateOptions
       (basic_options (str "0x1234567890123456789012345678901234567890")
                      (AmountString (str "1.2.3")))) = true
  /\ generatePaymentURI
       (basic_options (str "0x1234567890123456789012345678901234567890")
                      (AmountString (str "1.2.3")))
     = Throw (JPYCPaymentError (str "金額に小数点が複数含まれています: 1.2.3")
                               INVALID_AMOUNT (DetailsAmount (str "1.2.3"))).
Proof. split; vm_compute; reflexivity. Qed.

(** ** The boundary inputs of the converter *)

(** C7. A string with a numeric prefix and something after it is not
    refused as an invalid amount: [parseFloat] reads the prefix, every
    check passes, and [BigInt] throws its own [SyntaxError], which is not a
    [JPYCPaymentError] and has no error kind. The validator accepts the
    same string. *)
Theorem jpyToWei_trailing_characters :
  parseFloat (str "12abc") = num 12
  /\ jpyToWei (AmountString (str "12abc")) (num 18) = Throw SyntaxError
  /\ ValidationResult.valid
       (validateGenerateOptions
          (basic_options (str "0x1234567890123456789012345678901234567890")
                         (AmountString (str "12abc")))) = true
  /\ generatePaymentURI
       (basic_options (str "0x1234567890123456789012345678901234567890")
                      (AmountString (str "12abc")))
     = Throw SyntaxError.
Proof. repeat split; vm_compute; reflexivity. Qed.

(** ** What the other boundary inputs give *)

Section Boundary.

Lemma BigInt_toString_negative z :
  (z < 0)%Z -> startsWith (BigInt_toString z) (str "-") = true.
Proof.
  destruct z as [| q | q]; try lia. intros _. reflexivity.
Qed.

(** A number below zero prints with a leading sign. *)
Lemma Number_toString_negative x :
  Number_lt x (num 0) = true -> startsWith (Number_toString x) (str "-") = true.
Proof.
  destruct x as [| [|] | q]; try discriminate; [reflexivity |].
  unfold Number_lt, Number_compare, num. intros H.
  assert (Hq : (q < 0)%Q).
  { destruct (q ?= inject_Z 0)%Q eqn:E; try discriminate.
    apply Qlt_alt. exact E. }
  unfold Number_toString.
  destruct (Qeq_bool q (inject_Z (Qfloor q)) && (Z.abs (Qfloor q) <=? MAX_SAFE_INTEGER)%Z).
  - apply BigInt_toString_negative.
    assert (Hf : (inject_Z (Qfloor q) <= q)%Q) by apply Qfloor_le.
    apply Z.lt_nge. intros Hz.
    assert ((0 <= inject_Z (Qfloor q))%Q).
    { unfold Qle. cbn [Qnum Qden inject_Z]. lia. }
    apply (Qlt_irrefl 0). eapply Qle_lt_trans; [| exact Hq].
    eapply Qle_trans; eassumption.
  - replace (q ?= 0)%Q with Lt by (symmetry; apply Qlt_alt; exact Hq).
    reflexivity.
Qed.

(** The check of [decimals] passes on the integers 0 to 18 and on nothing
    else. *)
Lemma decimals_out_of_range_spec decimals :
  decimals_out_of_range decimals = false
  <-> exists p, (0 <= p <= 18)%Z /\ Number_eq decimals (num p) = true.
Proof.
  split.
  - unfold decimals_out_of_range. intros H.
    apply orb_false_iff in H. destruct H as [H Hi].
    apply orb_false_iff in H. destruct H as [Hl Hg].
    apply negb_false_iff in Hi.
    destruct decimals as [| s | q]; try discriminate.
    cbn [Number_isInteger] in Hi. apply Qeq_bool_iff in Hi.
    remember (Qfloor q) as z eqn:Ez. clear Ez. exists z.
    unfold Number_lt, Number_gt, Number_eq, Number_compare, num in *.
    destruct (q ?= inject_Z 0)%Q eqn:E0; try discriminate;
      destruct (q ?= inject_Z 18)%Q eqn:E18; try discriminate;
      (split; [| replace (q ?= inject_Z z)%Q with Eq;
                 [reflexivity | symmetry; apply Qeq_alt; exact Hi]]).
    all: rewrite Hi in E0, E18.
    all: unfold Qcompare in E0, E18; cbn [Qnum Qden inject_Z] in E0, E18.
    all: repeat match goal with
                | H : (_ ?= _)%Z = Eq |- _ => apply Z.compare_eq in H
                | H : (?a ?= ?b)%Z = Lt |- _ => change (a < b)%Z in H
                | H : (?a ?= ?b)%Z = Gt |- _ => change (a > b)%Z in H
                end; lia.
  - intros (p & Hp & He).
    destruct decimals as [| [|] | q]; try discriminate.
    unfold Number_eq, Number_compare, num in He.
    destruct (q ?= inject_Z p)%Q eqn:E; try discriminate.
    apply Qeq_alt in E.
    unfold decimals_out_of_range, Number_lt, Number_gt, Number_compare, num,
      Number_isInteger.
    assert (Ef : Qfloor q = p) by (rewrite E; apply Qfloor_Z).
    rewrite Ef.
    replace (Qeq_bool q (inject_Z p)) with true
      by (symmetry; apply Qeq_bool_iff; exact E).
    assert (H0 : (inject_Z 0 <= q)%Q).
    { rewrite E. unfold Qle. cbn [Qnum Qden inject_Z]. lia. }
    assert (H18 : (q <= inject_Z 18)%Q).
    { rewrite E. unfold Qle. cbn [Qnum Qden inject_Z]. lia. }
    destruct (q ?= inject_Z 0)%Q eqn:E0.
    2:{ apply Qlt_alt in E0. exfalso. eapply Qlt_irrefl, Qlt_le_trans; eassumption. }
    all: destruct (q ?= inject_Z 18)%Q eqn:E18; try reflexivity.
    all: apply Qgt_alt in E18; exfalso; eapply Qlt_irrefl, Qlt_le_trans; eassumption.
Qed.

Lemma parseFloat_unsigned c s :
  is_whitespace c = false -> c <> 45%N -> c <> 43%N ->
  parseFloat (c :: s)
  = if startsWith (c :: s) (str "Infinity") then Infinity false
    else match unsigned_decimal_prefix (c :: s) with
         | Some v => round_double v
         | None => NaN
         end.
Proof.
  intros Hw Hm Hp. unfold parseFloat. cbn [trimStart]. rewrite Hw.
  destruct c as [| q]; [reflexivity |].
  do 6 (destruct q as [q | q |]; try reflexivity); congruence.
Qed.

Lemma unsigned_decimal_prefix_none c s :
  is_digit c = false -> c <> 46%N -> unsigned_decimal_prefix (c :: s) = None.
Proof.
  intros Hd Hp. unfold unsigned_decimal_prefix. cbn [span]. rewrite Hd.
  destruct c as [| q]; [reflexivity |].
  do 6 (destruct q as [q | q |]; try reflexivity); congruence.
Qed.

(** A string that starts with a letter other than the [I] of [Infinity] has
    no numeric prefix. *)
Lemma parseFloat_letter c s :
  is_letter c = true -> c <> 73%N -> parseFloat (c :: s) = NaN.
Proof.
  intros Hc HI. unfold is_letter in Hc.
  assert (Hb : (65 <= c <= 122)%N) by (to_arith; lia).
  assert (Hw : is_whitespace c = false).
  { unfold is_whitespace. rewrite !orb_false_iff. repeat split;
      first [ apply N.eqb_neq; lia
            | apply andb_false_iff; left; apply N.leb_gt; lia
            | apply andb_false_iff; right; apply N.leb_gt; lia ]. }
  assert (Hd : is_digit c = false)
    by (unfold is_digit; apply andb_false_iff; right; apply N.leb_gt; lia).
  rewrite parseFloat_unsigned by (assumption || (to_arith; lia)).
  rewrite unsigned_decimal_prefix_none by (assumption || (to_arith; lia)).
  change (str "Infinity") with (73%N :: str "nfinity"). cbn [startsWith].
  replace (73 =? c)%N with false by (symmetry; apply N.eqb_neq; congruence).
  reflexivity.
Qed.

Lemma validate_amount_not_positive amount :
  amount <> AmountString [] ->
  Number_le (amount_number amount) (num 0) = true ->
  fst (validate_amount (Some amount))
  = [str "金額は正の数である必要があります: " ++ Number_toString (amount_number amount)].
Proof.
  intros Hne Hle.
  assert (Hnan : Number_isNaN (amount_number amount) = false)
    by (destruct (amount_number amount); [discriminate Hle | reflexivity ..]).
  destruct amount as [x | [| c s]]; [| congruence |];
    cbn [validate_amount amount_number fst] in *; rewrite Hnan, Hle; reflexivity.
Qed.

End Boundary.

(** A negative amount, a number below zero or a string with a leading sign,
    is refused by [jpyToWei] with [INVALID_AMOUNT], whatever follows the
    sign. *)
Theorem jpyToWei_negative amount decimals :
  decimals_out_of_range decimals = false ->
  negative_amount amount = true ->
  jpyToWei amount decimals
  = Throw (JPYCPaymentError (str "金額を負の数にすることはできません")
                            INVALID_AMOUNT (DetailsAmount (Amount_toString amount))).
Proof.
  intros Hd Hn. unfold jpyToWei. rewrite Hd. cbv zeta.
  replace (startsWith (Amount_toString amount) (str "-")) with true; [reflexivity |].
  symmetry. destruct amount as [x | s]; cbn [Amount_toString negative_amount] in *.
  - apply Number_toString_negative, Hn.
  - exact Hn.
Qed.

Lemma jpyToWei_negative_witness :
  jpyToWei (AmountNumber (num (-5))) (num 18)
  = Throw (JPYCPaymentError (str "金額を負の数にすることはできません")
                            INVALID_AMOUNT (DetailsAmount (str "-5")))
  /\ jpyToWei (AmountString (str "-0.5")) (num 6)
     = Throw (JPYCPaymentError (str "金額を負の数にすることはできません")
                               INVALID_AMOUNT (DetailsAmount (str "-0.5"))).
Proof.
  split.
  - apply (jpyToWei_negative (AmountNumber (num (-5))) (num 18)); reflexivity.
  - apply (jpyToWei_negative (AmountString (str "-0.5")) (num 6)); reflexivity.
Defined.

(** A string that starts with a letter (other than the [I] of [Infinity]) is
    refused by [jpyToWei] with [INVALID_AMOUNT] and the message of an
    invalid amount format. *)
Theorem jpyToWei_not_numeric c s decimals :
  decimals_out_of_range decimals = false ->
  is_letter c = true -> c <> 73%N ->
  jpyToWei (AmountString (c :: s)) decimals
  = Throw (JPYCPaymentError (str "無効な金額形式です: " ++ c :: s)
                            INVALID_AMOUNT (DetailsAmount (c :: s))).
Proof.
  intros Hd Hc HI. unfold jpyToWei. rewrite Hd. cbv zeta.
  cbn [Amount_toString]. rewrite (parseFloat_letter c s Hc HI).
  change (str "-") with [45%N]. cbn [startsWith].
  replace (45 =? c)%N with false; [reflexivity |].
  symmetry. apply N.eqb_neq. unfold is_letter in Hc. to_arith; lia.
Qed.

Lemma jpyToWei_not_numeric_witness :
  jpyToWei (AmountString (str "abc")) (num 18)
  = Throw (JPYCPaymentError (str "無効な金額形式です: abc")
                            INVALID_AMOUNT (DetailsAmount (str "abc"))).
Proof.
  apply (jpyToWei_not_numeric 97%N (str "bc") (num 18)); [reflexivity | reflexivity |].
  discriminate.
Defined.

(** A precision that is not one of the integers 0 to 18 is refused with
    [INVALID_DECIMALS], by [jpyToWei] and by [weiToJpy], before the amount is
    looked at. *)
Theorem jpyToWei_invalid_decimals amount weiAmount decimals :
  (forall p, (0 <= p <= 18)%Z -> Number_eq decimals (num p) = false) ->
  jpyToWei amount decimals = Throw (decimals_error decimals)
  /\ weiToJpy weiAmount decimals = Throw (decimals_error decimals).
Proof.
  intros H.
  assert (E : decimals_out_of_range decimals = true).
  { destruct (decimals_out_of_range decimals) eqn:E; [reflexivity |].
    apply decimals_out_of_range_spec in E. destruct E as (p & Hp & He).
    rewrite (H p Hp) in He. discriminate. }
  unfold jpyToWei, weiToJpy. rewrite E. split; reflexivity.
Qed.

Lemma jpyToWei_invalid_decimals_witness :
  jpyToWei (AmountNumber (num 100)) (num 19)
  = Throw (JPYCPaymentError (str "decimalsは0から18の整数である必要があります: 19")
                            INVALID_DECIMALS NoDetails)
  /\ weiToJpy (str "1000") (num 19)
     = Throw (JPYCPaymentError (str "decimalsは0から18の整数である必要があります: 19")
                               INVALID_DECIMALS NoDetails).
Proof.
  apply (jpyToWei_invalid_decimals (AmountNumber (num 100)) (str "1000") (num 19)).
  intros p Hp. unfold Number_eq, Number_compare, num, Qcompare.
  cbn [Qnum Qden inject_Z].
  destruct (Z.compare_spec (19 * 1) (p * 1)); [lia | reflexivity | reflexivity].
Defined.

(** An amount that is zero or negative is refused by the validator, which
    reports that the amount must be positive, and [generatePaymentURI] then
    throws [VALIDATION_FAILED]. *)
Theorem validateGenerateOptions_not_positive options amount :
  PaymentURIOptions.amount options = Some amount ->
  amount <> AmountString [] ->
  Number_le (amount_number amount) (num 0) = true ->
  ValidationResult.valid (validateGenerateOptions options) = false
  /\ In (str "金額は正の数である必要があります: "
         ++ Number_toString (amount_number amount))
        (ValidationResult.errors (validateGenerateOptions options))
  /\ generatePaymentURI options
     = Throw (JPYCPaymentError
                (str "バリデーションに失敗しました: "
                 ++ join (str ", ")
                      (ValidationResult.errors (validateGenerateOptions options)))
                VALIDATION_FAILED
                (DetailsErrors
                   (ValidationResult.errors (validateGenerateOptions options)))).
Proof.
  intros Ha Hne Hle.
  set (validation := validateGenerateOptions options).
  assert (Hin : In (str "金額は正の数である必要があります: "
                    ++ Number_toString (amount_number amount))
                   (ValidationResult.errors validation)).
  { unfold validation. rewrite validateGenerateOptions_errors, Ha.
    rewrite (validate_amount_not_positive amount Hne Hle).
    apply in_or_app. right. left. reflexivity. }
  assert (Hv : ValidationResult.valid validation = false).
  { destruct (ValidationResult.valid validation) eqn:E; [| reflexivity].
    apply validateGenerateOptions_valid in E. fold validation in E.
    rewrite E in Hin. destruct Hin. }
  repeat split; [exact Hv | exact Hin |].
  unfold generatePaymentURI. fold validation. rewrite Hv. reflexivity.
Qed.

Lemma validateGenerateOptions_not_positive_witness :
  ValidationResult.valid
    (validateGenerateOptions
       (basic_options (str "0x1234567890123456789012345678901234567890")
                      (AmountNumber (num 0)))) = false
  /\ In (str "金額は正の数である必要があります: 0")
        (ValidationResult.errors
           (validateGenerateOptions
              (basic_options (str "0x1234567890123456789012345678901234567890")
                             (AmountNumber (num 0))))).
Proof.
  destruct (validateGenerateOptions_not_positive
              (basic_options (str "0x1234567890123456789012345678901234567890")
                             (AmountNumber (num 0)))
              (AmountNumber (num 0)))
    as (Hv & Hin & _); [reflexivity | discriminate | reflexivity |].
  split; [exact Hv | exact Hin].
Defined.

(** The converter itself does not refuse the amount zero: it has no check of
    positivity, and returns the minor-unit amount ["0"]. *)
Example jpyToWei_zero :
  jpyToWei (AmountNumber (num 0)) (num 18) = Ok (str "0")
  /\ jpyToWei (AmountString (str "0")) (num 18) = Ok (str "0")
  /\ jpyToWei (AmountString (str "0.0")) (num 18) = Ok (str "0").
Proof. repeat split; vm_compute; reflexivity. Qed.

(** ** More on the checksum *)

Section ChecksumMore.

Lemma ADDRESS_REGEX_test_intro digits :
  length digits = 40 -> forallb is_hex digits = true ->
  ADDRESS_REGEX_test (48%N :: 120%N :: digits) = true.
Proof.
  intros Hl Hx. unfold ADDRESS_REGEX_test. rewrite str_0x. cbn [startsWith skipn].
  rewrite !N.eqb_refl, Hl, Hx. reflexivity.
Qed.

(** The casing loop leaves decimal digits as they are. *)
Lemma checksum_chars_decimal lower hashHex :
  forallb is_digit lower = true -> length lower <= length hashHex ->
  checksum_chars lower hashHex = lower.
Proof.
  revert hashHex. induction lower as [| c lower IH]; intros [| h hashHex];
    cbn [checksum_chars forallb length]; intros H Hlen; try reflexivity; try lia.
  apply andb_true_iff in H. destruct H as [Hc Hs].
  rewrite IH by (assumption || lia).
  assert (E : toUpperCase_unit c = c).
  { unfold toUpperCase_unit, is_digit in *. to_arith; by_cases. }
  rewrite E. destruct (match radix_digit 16 h with Some v => (8 <=? v)%N | None => false end);
    reflexivity.
Qed.

Lemma toLowerCase_decimal s : forallb is_digit s = true -> toLowerCase s = s.
Proof.
  induction s as [| c s IH]; cbn [forallb toLowerCase map]; [reflexivity |].
  intros H. apply andb_true_iff in H. destruct H as [Hc Hs].
  fold (toLowerCase s). rewrite IH by exact Hs. f_equal.
  unfold toLowerCase_unit, is_digit in *. to_arith; by_cases.
Qed.

Lemma is_digit_is_hex s : forallb is_digit s = true -> forallb is_hex s = true.
Proof.
  apply forallb_impl. intros c Hc. unfold is_hex. rewrite Hc. reflexivity.
Qed.

Lemma toChecksumAddress_Ok address checksummed :
  toChecksumAddress address = Ok checksummed -> ADDRESS_REGEX_test address = true.
Proof.
  unfold toChecksumAddress.
  destruct (startsWith address (str "0x")); [| discriminate].
  destruct (length address =? 42); [| discriminate].
  destruct (ADDRESS_REGEX_test address); [reflexivity | discriminate].
Qed.


End ChecksumMore.

(** [toChecksumAddress] returns exactly on the addresses of the format
    [0x] and forty hexadecimal digits. On any other string it throws
    [INVALID_ADDRESS], with the message of the first check that fails: the
    prefix, then the length (reported in the details), then the digits. *)
Theorem toChecksumAddress_errors (address : JSString) :
  ((exists checksummed, toChecksumAddress address = Ok checksummed)
   <-> isValidAddressFormat address = true)
  /\ (startsWith address (str "0x") = false ->
      toChecksumAddress address
      = Throw (JPYCPaymentError (str "アドレスは0xで始まる必要があります")
                                INVALID_ADDRESS (DetailsAddress address)))
  /\ (startsWith address (str "0x") = true -> length address <> 42 ->
      toChecksumAddress address
      = Throw (JPYCPaymentError
                 (str "アドレスは42文字（0x + 40文字の16進数）である必要があります")
                 INVALID_ADDRESS (DetailsAddressLength address (length address))))
  /\ (startsWith address (str "0x") = true -> length address = 42 ->
      isValidAddressFormat address = false ->
      toChecksumAddress address
      = Throw (JPYCPaymentError (str "アドレスは16進数文字のみを含む必要があります")
                                INVALID_ADDRESS (DetailsAddress address))).
Proof.
  repeat split.
  - intros [c Hc]. exact (toChecksumAddress_Ok address c Hc).
  - intros H. destruct (toChecksumAddress_total address H) as (c & Hc & _). eauto.
  - intros H. unfold toChecksumAddress. rewrite H. reflexivity.
  - intros H Hl. unfold toChecksumAddress. rewrite H.
    replace (length address =? 42) with false by (symmetry; apply Nat.eqb_neq; exact Hl).
    reflexivity.
  - intros H Hl Hf. unfold toChecksumAddress, isValidAddressFormat in *.
    rewrite H, Hl, Hf. reflexivity.
Qed.

(** The checksummed form of a format-valid address differs from it in the
    case of letters only: it has the same 42 characters up to case, it is
    format-valid, and it passes [isValidChecksumAddress]. *)
Theorem toChecksumAddress_same_digits (address : JSString) :
  isValidAddressFormat address = true ->
  exists checksummed,
    toChecksumAddress address = Ok checksummed
    /\ length checksummed = 42
    /\ toLowerCase checksummed = toLowerCase address
    /\ isValidAddressFormat checksummed = true
    /\ isValidChecksumAddress checksummed = true.
Proof.
  unfold isValidAddressFormat. intros H.
  destruct (ADDRESS_REGEX_test_inv address H) as (digits & -> & Hlen & Hhex).
  destruct (checksummed_valid digits Hlen Hhex) as (Hl & Hx & Hlow).
  cbv zeta in Hl, Hx, Hlow.
  set (c := checksum_chars (toLowerCase digits) (hashHex_of (toLowerCase digits))) in *.
  exists (48%N :: 120%N :: c). repeat split.
  - apply toChecksumAddress_valid; assumption.
  - cbn [length]. rewrite Hl. reflexivity.
  - cbn [toLowerCase map]. fold (toLowerCase c). fold (toLowerCase digits).
    rewrite Hlow. reflexivity.
  - apply ADDRESS_REGEX_test_intro; assumption.
  - unfold isValidChecksumAddress. rewrite toChecksumAddress_valid by assumption.
    rewrite Hlow. fold c. apply JSString_eqb_eq. reflexivity.
Qed.

Lemma toChecksumAddress_same_digits_witness :
  exists checksummed,
    toChecksumAddress (str "0xe7c3d8c9a439fede00d2600032d5db0be71c3c29") = Ok checksummed
    /\ length checksummed = 42
    /\ toLowerCase checksummed
       = toLowerCase (str "0xe7c3d8c9a439fede00d2600032d5db0be71c3c29")
    /\ isValidAddressFormat checksummed = true
    /\ isValidChecksumAddress checksummed = true.
Proof.
  apply (toChecksumAddress_same_digits (str "0xe7c3d8c9a439fede00d2600032d5db0be71c3c29")).
  reflexivity.
Defined.

(** [isValidChecksumAddress] never throws: it is true exactly on the strings
    that [toChecksumAddress] returns unchanged, false on every string that is
    not format-valid, and true on every format-valid address without a
    letter, where there is no case to choose. *)
Theorem isValidChecksumAddress_spec (address : JSString) :
  (isValidChecksumAddress address = true <-> toChecksumAddress address = Ok address)
  /\ (isValidAddressFormat address = false -> isValidChecksumAddress address = false)
  /\ (isValidAddressFormat address = true ->
      forallb is_digit (skipn 2 address) = true ->
      isValidChecksumAddress address = true).
Proof.
  repeat split.
  - unfold isValidChecksumAddress. destruct (toChecksumAddress address) as [c | e];
      [| discriminate]. intros H. apply JSString_eqb_eq in H. congruence.
  - intros H. unfold isValidChecksumAddress. rewrite H. apply JSString_eqb_eq. reflexivity.
  - intros H. unfold isValidChecksumAddress, toChecksumAddress.
    unfold isValidAddressFormat in H. rewrite H.
    destruct (negb (startsWith address (str "0x"))); [reflexivity |].
    destruct (negb (length address =? 42)); reflexivity.
  - unfold isValidAddressFormat. intros H Hd.
    destruct (ADDRESS_REGEX_test_inv address H) as (digits & -> & Hlen & Hhex).
    cbn [skipn] in Hd. unfold isValidChecksumAddress.
    rewrite toChecksumAddress_valid by assumption.
    rewrite (toLowerCase_decimal digits Hd).
    assert (Hle : length digits <= length (hashHex_of digits)).
    { rewrite hashHex_of_length. rewrite Hlen. lia. }
    rewrite checksum_chars_decimal by assumption.
    apply JSString_eqb_eq. reflexivity.
Qed.

(** ** What [weiToJpy] writes *)

Section Rendering.

Lemma dropWhile_idem (p : CodeUnit -> bool) s :
  dropWhile p (dropWhile p s) = dropWhile p s.
Proof.
  induction s as [| c s IH]; [reflexivity |]. cbn [dropWhile].
  destruct (p c) eqn:E; [exact IH |]. cbn [dropWhile]. rewrite E. reflexivity.
Qed.

Lemma strip_trailing_zeros_idem s :
  strip_trailing_zeros (strip_trailing_zeros s) = strip_trailing_zeros s.
Proof.
  unfold strip_trailing_zeros. rewrite rev_involutive, dropWhile_idem. reflexivity.
Qed.

Lemma strip_trailing_zeros_split s :
  s = strip_trailing_zeros s
      ++ repeat 48%N (length s - length (strip_trailing_zeros s)).
Proof.
  unfold strip_trailing_zeros.
  pose proof (dropWhile_zero_split (rev s)) as E.
  apply (f_equal (@rev CodeUnit)) in E.
  rewrite rev_involutive, rev_app_distr, rev_repeat in E.
  rewrite !length_rev in *. exact E.
Qed.

Lemma strip_trailing_zeros_digits s :
  forallb is_digit s = true -> forallb is_digit (strip_trailing_zeros s) = true.
Proof.
  intros H. unfold strip_trailing_zeros.
  apply forallb_rev, dropWhile_digits, forallb_rev, H.
Qed.

Lemma digits_value_leading_zeros n s :
  digits_value (repeat 48%N n ++ s) = digits_value s.
Proof.
  rewrite digits_value_app, digits_value_repeat_zero. lia.
Qed.

Lemma digits_value_trailing_zeros s n :
  digits_value (s ++ repeat 48%N n) = (digits_value s * 10 ^ N.of_nat n)%N.
Proof.
  rewrite digits_value_app, digits_value_repeat_zero, repeat_length. lia.
Qed.

(** [N_toString] writes no leading zero. *)
Lemma N_toString_head n :
  N_toString n = [48%N] \/ exists c t, N_toString n = c :: t /\ c <> 48%N.
Proof.
  destruct (N_toString_spec n) as (Hd & Hne & Hv).
  pose proof (N_toString_digits_value (N_toString n) Hd) as E. rewrite Hv in E.
  destruct (dropWhile (N.eqb 48) (N_toString n)) as [| c t] eqn:D; [left; exact E |].
  right. exists c, t. split; [exact E |].
  intros ->. clear -D. induction (N_toString n) as [| d s IH]; [discriminate D |].
  cbn [dropWhile] in D. destruct (N.eqb_spec 48 d) as [<- | Hd]; [auto |].
  injection D as -> _. congruence.
Qed.

Lemma N_toString_canonical n :
  match dropWhile (N.eqb 48) (N_toString n) with
  | [] => [48%N]
  | t => t
  end = N_toString n.
Proof.
  destruct (N_toString_spec n) as (Hd & _ & Hv).
  pose proof (N_toString_digits_value (N_toString n) Hd) as E.
  rewrite Hv in E. symmetry. exact E.
Qed.

Lemma N_toString_length n k :
  (n < 10 ^ N.of_nat k)%N -> 1 <= k -> length (N_toString n) <= k.
Proof.
  intros Hn Hk. destruct (N_toString_spec n) as (Hd & _ & Hv).
  destruct (N_toString_head n) as [-> | (c & t & E & Hc)]; [cbn; lia |].
  rewrite E in *. cbn [forallb] in Hd. apply andb_true_iff in Hd.
  destruct Hd as [Hcd Htd]. apply is_digit_bounds in Hcd.
  rewrite digits_value_cons in Hv. cbn [length].
  destruct (Nat.le_gt_cases (S (length t)) k) as [Hle | Hgt]; [exact Hle | exfalso].
  assert (Hpow : (10 ^ N.of_nat k <= 10 ^ N.of_nat (length t))%N)
    by (apply N.pow_le_mono_r; lia).
  assert (Hone : (1 * 10 ^ N.of_nat (length t) <= (c - 48) * 10 ^ N.of_nat (length t))%N)
    by (apply N.mul_le_mono_r; lia).
  lia.
Qed.

(** The two shapes that [weiToJpy] writes are decimal strings. *)
Lemma decimal_parts i f :
  forallb is_digit i = true -> forallb is_digit f = true -> i <> [] ->
  let A := match f with [] => i | _ => i ++ str "." ++ f end in
  is_decimal A = true /\ int_part A = i /\ frac_part A = f.
Proof.
  intros Hi Hf Hne A.
  assert (Hlen : negb (length (i ++ f) =? 0) = true)
    by (destruct i; [congruence | reflexivity]).
  destruct f as [| d f].
  - subst A. unfold is_decimal, int_part, frac_part.
    rewrite (span_all is_digit i Hi). cbn [fst snd]. rewrite app_nil_r in *.
    rewrite Hlen. auto.
  - subst A. unfold is_decimal, int_part, frac_part.
    change (i ++ str "." ++ d :: f) with (i ++ 46%N :: d :: f).
    replace (span is_digit (i ++ 46%N :: d :: f)) with (i, 46%N :: d :: f)
      by (symmetry; apply span_app; [exact Hi | reflexivity]).
    cbn [fst snd]. rewrite N.eqb_refl, Hf, Hlen. auto.
Qed.

(** What [weiToJpy] writes for the quotient [q] and the remainder [m] of a
    division by [10^p]. *)
Lemma rendered q m p :
  (m < 10 ^ N.of_nat p)%N ->
  let f := strip_trailing_zeros (padStart (N_toString m) p 48%N) in
  let r := match f with
           | [] => N_toString q
           | _ => N_toString q ++ str "." ++ f
           end in
  is_decimal r = true /\ int_part r = N_toString q /\ frac_part r = f
  /\ length f <= p
  /\ strip_trailing_zeros f = f
  /\ (digits_value f * 10 ^ N.of_nat (p - length f) = m)%N.
Proof.
  intros Hm f r.
  destruct (N_toString_spec q) as (Hqd & Hqn & Hqv).
  destruct (N_toString_spec m) as (Hmd & Hmn & Hmv).
  set (dec := padStart (N_toString m) p 48%N) in *.
  assert (Hdd : forallb is_digit dec = true).
  { unfold dec, padStart. rewrite forallb_app, Hmd, andb_true_r.
    apply forallb_repeat. reflexivity. }
  assert (Hdv : digits_value dec = m)
    by (unfold dec, padStart; rewrite digits_value_leading_zeros; exact Hmv).
  assert (Hfd : forallb is_digit f = true) by (apply strip_trailing_zeros_digits, Hdd).
  destruct (decimal_parts (N_toString q) f Hqd Hfd Hqn) as (Hdec & Hi & Hf).
  pose proof (strip_trailing_zeros_split dec) as Hsplit. fold f in Hsplit.
  assert (Hval : (digits_value f * 10 ^ N.of_nat (length dec - length f) = m)%N).
  { pose proof (digits_value_trailing_zeros f (length dec - length f)) as Ht.
    unfold CodeUnit in *. rewrite <- Hsplit in Ht. congruence. }
  assert (Hfl : length f <= length dec).
  { rewrite Hsplit at 1. rewrite length_app. lia. }
  repeat split; try assumption; try apply strip_trailing_zeros_idem.
  - destruct p as [| p'].
    + assert (Em : m = 0%N) by (change (10 ^ N.of_nat 0)%N with 1%N in Hm; lia).
      unfold f, dec. rewrite Em. vm_compute. lia.
    + assert (length dec = S p'); [| lia].
      unfold dec, padStart. rewrite length_app, repeat_length.
      pose proof (N_toString_length m (S p') Hm). lia.
  - destruct p as [| p'].
    + assert (Em : m = 0%N) by (change (10 ^ N.of_nat 0)%N with 1%N in Hm; lia).
      unfold f, dec. rewrite Em. vm_compute. reflexivity.
    + assert (E : length dec = S p').
      { unfold dec, padStart. rewrite length_app, repeat_length.
        pose proof (N_toString_length m (S p') Hm). lia. }
      rewrite <- E. exact Hval.
Qed.

Lemma weiToJpy_digit_string w (p : Z) :
  forallb is_digit w = true -> w <> [] -> (0 <= p <= 18)%Z ->
  weiToJpy w (num p) = weiToJpy (N_toString (digits_value w)) (num p).
Proof.
  intros Hd Hne Hp. unfold weiToJpy.
  destruct (N_toString_spec (digits_value w)) as (Hd' & Hne' & Hv).
  rewrite (StringToBigInt_digits w Hd Hne), (StringToBigInt_digits _ Hd' Hne'), Hv.
  reflexivity.
Qed.

End Rendering.

Section RenderingValue.

Lemma weiToJpy_rendered w (p : Z) :
  forallb is_digit w = true -> w <> [] -> (0 <= p <= 18)%Z ->
  exists r,
    weiToJpy w (num p) = Ok r
    /\ is_decimal r = true
    /\ length (frac_part r) <= Z.to_nat p
    /\ canonical r = r
    /\ (digits_value (int_part r ++ frac_part r)
        * 10 ^ N.of_nat (Z.to_nat p - length (frac_part r)) = digits_value w)%N.
Proof.
  intros Hd Hne Hp.
  rewrite (weiToJpy_digit_string w p Hd Hne Hp), (weiToJpy_digits _ p Hp).
  set (n := digits_value w).
  assert (Hpow : (10 ^ Z.to_N p <> 0)%N) by (apply N.pow_nonzero; discriminate).
  assert (Hm : (n mod 10 ^ Z.to_N p < 10 ^ N.of_nat (Z.to_nat p))%N).
  { replace (N.of_nat (Z.to_nat p)) with (Z.to_N p) by lia. apply N.mod_lt, Hpow. }
  destruct (rendered (n / 10 ^ Z.to_N p) (n mod 10 ^ Z.to_N p) (Z.to_nat p) Hm)
    as (Hdec & Hi & Hf & Hlen & Hstrip & Hval).
  cbv zeta in *.
  remember (strip_trailing_zeros
              (padStart (N_toString (n mod 10 ^ Z.to_N p)) (Z.to_nat p) 48%N))
    as f eqn:Ef.
  set (r := match f with
            | [] => N_toString (n / 10 ^ Z.to_N p)
            | _ :: _ => N_toString (n / 10 ^ Z.to_N p) ++ str "." ++ f
            end) in *.
  exists r. split; [unfold r; destruct f; reflexivity |]. split; [exact Hdec |].
  rewrite Hi, Hf. split; [exact Hlen |]. split.
  - unfold canonical. rewrite Hi, Hf, Hstrip, N_toString_canonical.
    unfold r. destruct f; reflexivity.
  - destruct (N_toString_spec (n / 10 ^ Z.to_N p)) as (_ & _ & Hq).
    rewrite digits_value_app, Hq, N.mul_add_distr_r, Hval, <- N.mul_assoc.
    rewrite <- N.pow_add_r.
    replace (N.of_nat (length f) + N.of_nat (Z.to_nat p - length f))%N
      with (Z.to_N p) by lia.
    rewrite N.mul_comm. symmetry. apply N.div_mod. exact Hpow.
Qed.

End RenderingValue.

(** [weiToJpy] is exact on a string of decimal digits: for a precision [p]
    in 0..18 it returns a decimal string in canonical form, with at most [p]
    fractional digits, whose value is the amount divided by [10^p]. *)
Theorem weiToJpy_exact (weiAmount : JSString) (p : Z) :
  forallb is_digit weiAmount = true -> weiAmount <> [] -> (0 <= p <= 18)%Z ->
  exists r,
    weiToJpy weiAmount (num p) = Ok r
    /\ is_decimal r = true
    /\ length (frac_part r) <= Z.to_nat p
    /\ canonical r = r
    /\ (decimal_value_Q r * inject_Z (10 ^ p)
        == inject_Z (Z.of_N (digits_value weiAmount)))%Q.
Proof.
  intros Hd Hne Hp.
  destruct (weiToJpy_rendered weiAmount p Hd Hne Hp) as (r & Hr & Hdec & Hlen & Hcan & Hval).
  exists r. repeat split; try assumption.
  unfold decimal_value_Q. rewrite <- Hval.
  set (X := digits_value (int_part r ++ frac_part r)).
  set (lf := length (frac_part r)) in *.
  rewrite N2Z.inj_mul, N2Z.inj_pow, nat_N_Z. change (Z.of_N 10) with 10%Z.
  replace p with (Z.of_nat lf + Z.of_nat (Z.to_nat p - lf))%Z at 1 by lia.
  rewrite Z.pow_add_r, !inject_Z_mult by lia.
  field. intros E.
  assert (Hnz : (10 ^ Z.of_nat lf <> 0)%Z) by (apply Z.pow_nonzero; lia).
  apply Hnz. unfold Qeq in E. cbn [Qnum Qden inject_Z] in E. lia.
Qed.

Lemma weiToJpy_exact_witness :
  exists r,
    weiToJpy (str "1500000000000000000") (num 18) = Ok r
    /\ is_decimal r = true
    /\ length (frac_part r) <= Z.to_nat 18
    /\ canonical r = r
    /\ (decimal_value_Q r * inject_Z (10 ^ 18)
        == inject_Z (Z.of_N (digits_value (str "1500000000000000000"))))%Q.
Proof.
  apply (weiToJpy_exact (str "1500000000000000000") 18);
    [reflexivity | discriminate | lia].
Defined.

(** The round trip that starts from the minor units: what [weiToJpy] writes
    for a string of decimal digits, [jpyToWei] reads back as the same integer
    (without its leading zeros), provided [parseFloat] reads that decimal as a
    finite number, which [jpyToWei] requires. *)
Theorem jpyToWei_weiToJpy (weiAmount : JSString) (p : Z) (r : JSString) :
  forallb is_digit weiAmount = true -> weiAmount <> [] -> (0 <= p <= 18)%Z ->
  weiToJpy weiAmount (num p) = Ok r ->
  Number_isFinite (parseFloat r) = true ->
  jpyToWei (AmountString r) (num p) = Ok (N_toString (digits_value weiAmount)).
Proof.
  intros Hd Hne Hp Hr Hfin.
  destruct (weiToJpy_rendered weiAmount p Hd Hne Hp) as (r' & Hr' & Hdec & Hlen & _ & Hval).
  assert (r' = r) by congruence. subst r'.
  rewrite (jpyToWei_decimal r p Hdec Hfin Hp), (scaled_value r _ Hdec).
  f_equal. f_equal. rewrite <- Hval.
  set (X := digits_value (int_part r ++ frac_part r)).
  set (lf := length (frac_part r)) in *.
  replace (N.of_nat (Z.to_nat p)) with (N.of_nat (Z.to_nat p - lf) + N.of_nat lf)%N by lia.
  rewrite N.pow_add_r, N.mul_assoc.
  apply N.div_mul, N.pow_nonzero. discriminate.
Qed.

Lemma jpyToWei_weiToJpy_witness :
  weiToJpy (str "0001500000000000000000") (num 18) = Ok (str "1.5")
  /\ jpyToWei (AmountString (str "1.5")) (num 18) = Ok (str "1500000000000000000").
Proof.
  split; [vm_compute; reflexivity |].
  apply (jpyToWei_weiToJpy (str "0001500000000000000000") 18 (str "1.5"));
    [reflexivity | discriminate | lia | vm_compute; reflexivity
    | vm_compute; reflexivity].
Defined.

Section NegativeMinorUnits.

Lemma trimStart_solid s :
  forallb (fun c => negb (is_whitespace c)) s = true -> trimStart s = s.
Proof.
  destruct s as [| c s]; [reflexivity |]. cbn [forallb trimStart]. intros H.
  apply andb_true_iff in H. destruct H as [Hc _].
  apply negb_true_iff in Hc. rewrite Hc. reflexivity.
Qed.

Lemma trim_solid s :
  forallb (fun c => negb (is_whitespace c)) s = true -> trim s = s.
Proof.
  intros H. unfold trim. rewrite (trimStart_solid s H).
  rewrite (trimStart_solid (rev s)) by (apply forallb_rev, H).
  apply rev_involutive.
Qed.

Lemma StringToBigInt_negative_digits n :
  StringToBigInt (45%N :: N_toString n) = Some (- Z.of_N n)%Z.
Proof.
  destruct (N_toString_spec n) as (Hd & Hne & Hv).
  unfold StringToBigInt. rewrite trim_solid.
  - cbv iota beta. unfold decimal_value. rewrite Hd, Hv.
    destruct (N_toString n); [congruence | reflexivity].
  - cbn [forallb]. apply andb_true_iff. split; [reflexivity |].
    revert Hd. apply forallb_impl. intros c Hc.
    rewrite (is_digit_not_whitespace c Hc). reflexivity.
Qed.

Lemma strip_trailing_zeros_keeps c s :
  In c s -> c <> 48%N -> In c (strip_trailing_zeros s).
Proof.
  intros Hin Hc. rewrite (strip_trailing_zeros_split s) in Hin.
  apply in_app_or in Hin. destruct Hin as [H | H]; [exact H |].
  apply repeat_spec in H. congruence.
Qed.

End NegativeMinorUnits.

(** [weiToJpy] does not refuse a negative amount, and does not write one
    correctly unless it is a multiple of [10^p]: the remainder of the
    division keeps its sign, so the sign is written among the fractional
    digits (["-5"] at 18 decimals gives ["0.0000000000000000-5"]). *)
Theorem weiToJpy_negative (n : N) (p : Z) :
  (0 <= p <= 18)%Z -> (n mod 10 ^ Z.to_N p <> 0)%N ->
  exists fraction,
    weiToJpy (45%N :: N_toString n) (num p)
    = Ok (BigInt_toString (- Z.of_N (n / 10 ^ Z.to_N p)) ++ str "." ++ fraction)
    /\ In 45%N fraction.
Proof.
  intros Hp Hm. unfold weiToJpy.
  destruct (decimals_in_range p Hp) as [-> ->].
  rewrite StringToBigInt_negative_digits.
  rewrite Z2Nat.id by lia.
  assert (Hd : (10 ^ p)%Z = Z.of_N (10 ^ Z.to_N p))
    by (rewrite N2Z.inj_pow, Z2N.id by lia; reflexivity).
  rewrite Hd, Z.quot_opp_l, Z.rem_opp_l by lia.
  rewrite <- N2Z.inj_quot, <- N2Z.inj_rem.
  set (m := (n mod 10 ^ Z.to_N p)%N) in *.
  assert (Er : BigInt_toString (- Z.of_N m) = 45%N :: N_toString m).
  { destruct m as [| q]; [congruence | reflexivity]. }
  rewrite Er. cbv zeta.
  set (decPart := padStart (45%N :: N_toString m) (Z.to_nat p) 48%N).
  assert (Hin : In 45%N (strip_trailing_zeros decPart)).
  { apply strip_trailing_zeros_keeps; [| discriminate].
    unfold decPart, padStart. apply in_or_app. right. left. reflexivity. }
  exists (strip_trailing_zeros decPart). split; [| exact Hin].
  destruct (strip_trailing_zeros decPart); [destruct Hin | reflexivity].
Qed.

Lemma weiToJpy_negative_witness :
  exists fraction,
    weiToJpy (str "-5") (num 18) = Ok (str "0" ++ str "." ++ fraction)
    /\ In 45%N fraction.
Proof.
  apply (weiToJpy_negative 5 18); [lia | vm_compute; discriminate].
Defined.

(** ** Integer amounts and the errors of [encodeEIP681] *)

Section IntegerAmounts.

Lemma parseFloat_digits s :
  forallb is_digit s = true -> s <> [] ->
  parseFloat s = round_double (inject_Z (Z.of_N (digits_value s))).
Proof.
  intros Hd Hne.
  assert (E : parseFloat s = match unsigned_decimal_prefix s with
                             | Some v => round_double v
                             | None => NaN
                             end).
  { destruct s as [| c t]; [congruence |].
    assert (Hc : is_digit c = true)
      by (cbn [forallb] in Hd; apply andb_true_iff in Hd; apply Hd).
    apply digit_cases in Hc. each_case Hc; reflexivity. }
  rewrite E. unfold unsigned_decimal_prefix. rewrite (span_all is_digit s Hd).
  destruct s as [| c t]; [congruence |].
  f_equal. unfold Qmult, inject_Z, exponent_part. cbn [Qnum Qden Qpower Qpower_positive].
  rewrite Z.mul_1_r. reflexivity.
Qed.

Lemma is_decimal_digits s :
  forallb is_digit s = true -> s <> [] ->
  is_decimal s = true /\ int_part s = s /\ frac_part s = [].
Proof.
  intros Hd Hne. apply (decimal_parts s [] Hd eq_refl Hne).
Qed.

End IntegerAmounts.

(** An amount given as a number that is a non-negative integer up to
    [Number.MAX_SAFE_INTEGER] is converted exactly: the result is the
    decimal string of [n * 10^p], an integer that no [number] could hold. *)
Theorem jpyToWei_safe_integer (n p : Z) :
  (0 <= n <= MAX_SAFE_INTEGER)%Z -> (0 <= p <= 18)%Z ->
  jpyToWei (AmountNumber (num n)) (num p) = Ok (BigInt_toString (n * 10 ^ p)).
Proof.
  intros Hn Hp.
  destruct (N_toString_spec (Z.to_N n)) as (Hd & Hne & Hv).
  destruct (is_decimal_digits _ Hd Hne) as (Hdec & Hi & Hf).
  assert (Hfin : Number_isFinite (parseFloat (N_toString (Z.to_N n))) = true).
  { rewrite (parseFloat_digits _ Hd Hne), Hv, Z2N.id by lia.
    destruct (Z.eq_dec n 0) as [-> | Hnz]; [reflexivity |].
    rewrite round_double_integer; [reflexivity |]. unfold MAX_SAFE_INTEGER in Hn. lia. }
  pose proof (jpyToWei_decimal _ p Hdec Hfin Hp) as E.
  unfold jpyToWei in *. cbn [Amount_toString] in *.
  rewrite (Number_toString_safe n Hn). rewrite E.
  rewrite (scaled_value _ _ Hdec), Hi, Hf, app_nil_r, Hv. cbn [length].
  change (10 ^ N.of_nat 0)%N with 1%N. rewrite N.div_1_r.
  f_equal. rewrite <- BigInt_toString_of_N. f_equal.
  rewrite N2Z.inj_mul, N2Z.inj_pow, Z2N.id, nat_N_Z, Z2Nat.id by lia. reflexivity.
Qed.

Lemma jpyToWei_safe_integer_witness :
  jpyToWei (AmountNumber (num 9007199254740991)) (num 18)
  = Ok (str "9007199254740991000000000000000000").
Proof.
  apply (jpyToWei_safe_integer 9007199254740991 18); [unfold MAX_SAFE_INTEGER |]; lia.
Defined.



(** ** What the validator accepts *)

Section ValidatorMore.

Lemma lookup_CHAIN_CONFIGS network :
  (exists chainConfig, lookup CHAIN_CONFIGS network = Some chainConfig)
  <-> supported_network network.
Proof.
  unfold supported_network, CHAIN_CONFIGS. cbn [lookup]. split.
  - intros [c H].
    destruct (JSString_eqb (str "ethereum") network) eqn:E1;
      [apply JSString_eqb_eq in E1; auto |].
    destruct (JSString_eqb (str "polygon") network) eqn:E2;
      [apply JSString_eqb_eq in E2; auto |].
    destruct (JSString_eqb (str "avalanche") network) eqn:E3;
      [apply JSString_eqb_eq in E3; auto | discriminate H].
  - intros [-> | [-> | ->]]; eexists; vm_compute; reflexivity.
Qed.

Lemma CHAIN_CONFIGS_chainId network chainConfig :
  lookup CHAIN_CONFIGS network = Some chainConfig ->
  exists id, ChainConfig.chainId chainConfig = num id /\ (0 < id <= MAX_SAFE_INTEGER)%Z.
Proof.
  unfold CHAIN_CONFIGS. cbn [lookup].
  repeat match goal with
         | |- context [JSString_eqb ?a ?b] => destruct (JSString_eqb a b)
         end;
    intros [= <-] || discriminate; eexists; (split; [reflexivity | vm_compute; split; congruence]).
Qed.

Lemma Number_gt_le a b :
  Number_isNaN a = false -> Number_isNaN b = false ->
  Number_gt a b = negb (Number_le a b).
Proof.
  unfold Number_gt, Number_le. destruct a as [| [|] | q], b as [| [|] | r];
    try discriminate; try reflexivity.
  cbn [Number_compare]. intros _ _. destruct (q ?= r)%Q; reflexivity.
Qed.

Lemma validate_amount_number amount n :
  amount <> AmountString [] -> amount_number amount = n ->
  fst (validate_amount (Some amount)) = []
  <-> negb (Number_isNaN n) && Number_isFinite n
      && Number_gt n (num 0) && Number_le n MAX_SAFE_AMOUNT = true.
Proof.
  intros Hne <-.
  assert (E : fst (validate_amount (Some amount))
              = let amountNum := amount_number amount in
                if Number_isNaN amountNum then
                  [str "無効な金額形式です: " ++ Amount_toString amount]
                else if Number_le amountNum (num 0) then
                  [str "金額は正の数である必要があります: " ++ Number_toString amountNum]
                else if negb (Number_isFinite amountNum) then
                  [str "金額は有限の数値である必要があります"]
                else if Number_gt amountNum MAX_SAFE_AMOUNT then
                  [str "金額が大きすぎます: " ++ Number_toString amountNum
                   ++ str "。最大値は " ++ Number_toString MAX_SAFE_AMOUNT ++ str " JPYです"]
                else [])
    by (destruct amount as [x | [| c s]]; [reflexivity | congruence | reflexivity]).
  rewrite E. cbv zeta. clear E.
  destruct (Number_isNaN (amount_number amount)) eqn:Hnan;
    [split; discriminate |].
  rewrite (Number_gt_le _ (num 0) Hnan eq_refl).
  destruct (Number_le (amount_number amount) (num 0));
    [split; [discriminate | rewrite andb_false_r; discriminate] |].
  destruct (Number_isFinite (amount_number amount));
    [| split; discriminate]. cbn [negb andb].
  rewrite (Number_gt_le _ MAX_SAFE_AMOUNT Hnan eq_refl).
  destruct (Number_le (amount_number amount) MAX_SAFE_AMOUNT); split;
    (discriminate || reflexivity).
Qed.

Lemma validate_amount_isValidAmount amount :
  fst (validate_amount (Some amount)) = [] <-> isValidAmount amount = true.
Proof.
  destruct amount as [x | [| c s]]; [| split; discriminate |].
  - apply (validate_amount_number (AmountNumber x) x); [discriminate | reflexivity].
  - apply (validate_amount_number (AmountString (c :: s)) (parseFloat (c :: s)));
      [discriminate | reflexivity].
Qed.

Lemma validate_decimals_nil d c :
  fst (validate_decimals d c) = []
  <-> match d with
      | Some decimals => decimals_out_of_range decimals = false /\ falsy c = false
      | None => True
      end.
Proof.
  destruct d as [decimals |]; [| cbn; tauto].
  cbn [validate_decimals fst]. unfold decimals_out_of_range.
  destruct (Number_isInteger decimals), (Number_lt decimals (num 0)),
    (Number_gt decimals (num 18)), (falsy c); cbn; split;
    (discriminate || reflexivity || (intros [? ?]; discriminate) || auto).
Qed.

Lemma validate_merchantAddress_valid m :
  validate_merchantAddress m = []
  <-> exists address, m = Some address /\ isValidAddressFormat address = true.
Proof.
  split; [apply validate_merchantAddress_nil |].
  intros (address & -> & H). unfold validate_merchantAddress.
  destruct address as [| c address]; [discriminate H |]. rewrite H. reflexivity.
Qed.

Lemma validate_network_valid n :
  validate_network n = []
  <-> match n with
      | Some network => supported_network network \/ In network Object_prototype
      | None => True
      end.
Proof.
  destruct n as [network |]; [| cbn; tauto].
  unfold validate_network.
  destruct (get CHAIN_CONFIGS network) as [property |] eqn:E; split.
  - intros _. destruct (get_cases _ _ _ E) as [(c & Ec & _) | (_ & Hin & _)].
    + left. apply lookup_CHAIN_CONFIGS. eauto.
    + right. exact Hin.
  - reflexivity.
  - discriminate.
  - intros [H | H].
    + apply lookup_CHAIN_CONFIGS in H. destruct H as [c Ec].
      rewrite (get_Own _ _ _ Ec) in E. discriminate E.
    + rewrite (proj2 (get_Inherited _ H)) in E. discriminate E.
Qed.

Lemma validate_jpycContractAddress_valid c :
  fst (validate_jpycContractAddress c) = []
  <-> match c with
      | Some address => isValidAddressFormat address = true
      | None => True
      end.
Proof.
  destruct c as [address |]; [| cbn; tauto]. unfold validate_jpycContractAddress.
  destruct (isValidAddressFormat address); cbn; split; (discriminate || reflexivity).
Qed.

Lemma app_nil_iff (A : Type) (l l' : list A) : l ++ l' = [] <-> l = [] /\ l' = [].
Proof.
  split; [apply app_eq_nil | intros [-> ->]; reflexivity].
Qed.

Lemma valid_address_not_empty address :
  isValidAddressFormat address = true -> falsy (Some address) = false.
Proof. destruct address; [discriminate | reflexivity]. Qed.

End ValidatorMore.

(** The verdict of [validateGenerateOptions] is [valid] exactly when the
    merchant address is format-valid, the amount passes [isValidAmount]
    (a number, or a string that [parseFloat] reads as one, that is finite,
    above zero and at most 10^15), the network, if given, names a property
    of the object [CHAIN_CONFIGS] (one of the three supported networks, or a
    member of [Object.prototype] such as [toString], which the object
    inherits), the contract address, if given, is format-valid, and the
    precision, if given, is an integer in 0..18 and comes with a contract
    address. *)
Theorem validateGenerateOptions_valid_iff (options : PaymentURIOptions.t) :
  ValidationResult.valid (validateGenerateOptions options) = true
  <-> (exists merchantAddress,
          PaymentURIOptions.merchantAddress options = Some merchantAddress
          /\ isValidAddressFormat merchantAddress = true)
      /\ (exists amount,
             PaymentURIOptions.amount options = Some amount
             /\ isValidAmount amount = true)
      /\ (forall network,
             PaymentURIOptions.network options = Some network ->
             supported_network network \/ In network Object_prototype)
      /\ (forall address,
             PaymentURIOptions.jpycContractAddress options = Some address ->
             isValidAddressFormat address = true)
      /\ (forall decimals,
             PaymentURIOptions.decimals options = Some decimals ->
             (exists p, precision decimals p)
             /\ PaymentURIOptions.jpycContractAddress options <> None).
Proof.
  rewrite validateGenerateOptions_valid, validateGenerateOptions_errors.
  rewrite !app_nil_iff.
  rewrite validate_merchantAddress_valid, validate_network_valid,
    validate_jpycContractAddress_valid, validate_decimals_nil.
  destruct options as [m a n c d]. cbn [PaymentURIOptions.merchantAddress
    PaymentURIOptions.amount PaymentURIOptions.network
    PaymentURIOptions.jpycContractAddress PaymentURIOptions.decimals].
  split.
  - intros (Hm & Ha & Hn & Hc & Hd). split; [exact Hm |]. split.
    { destruct a as [amount |]; [| discriminate Ha].
      exists amount. split; [reflexivity |]. apply validate_amount_isValidAmount, Ha. }
    split; [intros network ->; exact Hn |].
    split; [intros address ->; exact Hc |].
    intros decimals ->. destruct Hd as [Hr Hf]. split.
    + apply decimals_out_of_range_spec, Hr.
    + intros ->. discriminate Hf.
  - intros (Hm & (amount & -> & Ha) & Hn & Hc & Hd). split; [exact Hm |].
    split; [apply validate_amount_isValidAmount, Ha |].
    split; [destruct n; [apply Hn; reflexivity | exact I] |].
    split; [destruct c; [apply Hc; reflexivity | exact I] |].
    destruct d as [decimals |]; [| exact I].
    destruct (Hd decimals eq_refl) as [Hp Hne]. split.
    + apply decimals_out_of_range_spec, Hp.
    + destruct c as [address |]; [| congruence].
      apply valid_address_not_empty, Hc. reflexivity.
Qed.

Section Warnings.

Lemma In_existsb (x : JSString) l : In x l <-> existsb (JSString_eqb x) l = true.
Proof.
  rewrite existsb_exists. split.
  - intros H. exists x. split; [exact H | apply JSString_eqb_eq; reflexivity].
  - intros (y & Hy & E). apply JSString_eqb_eq in E. subst y. exact Hy.
Qed.

Lemma Number_lt_gt_apart n :
  Number_lt n (num 1) = true -> Number_gt n (num 1000000) = true -> False.
Proof.
  unfold Number_lt, Number_gt, num. destruct n as [| [|] | q]; try discriminate.
  cbn [Number_compare].
  destruct (q ?= inject_Z 1)%Q eqn:E1; try discriminate.
  destruct (q ?= inject_Z 1000000)%Q eqn:E2; try discriminate. intros _ _.
  apply Qlt_alt in E1. apply Qgt_alt in E2.
  apply (Qlt_irrefl q). eapply Qlt_trans; [exact E1 |].
  eapply Qlt_trans; [| exact E2]. reflexivity.
Qed.

(** The codes of the warnings, for options that pass. *)
Lemma warning_codes_valid options amount :
  ValidationResult.valid (validateGenerateOptions options) = true ->
  PaymentURIOptions.amount options = Some amount ->
  warning_codes options
  = (if Number_lt (amount_number amount) (num 1) then [str "SMALL_AMOUNT"] else [])
    ++ (if Number_gt (amount_number amount) (num 1000000)
        then [str "LARGE_AMOUNT"] else [])
    ++ match PaymentURIOptions.jpycContractAddress options with
       | Some _ => [str "CUSTOM_CONTRACT"]
       | None => []
       end
    ++ match PaymentURIOptions.decimals options with
       | Some decimals =>
           if Number_eq decimals (num 18) then [] else [str "CUSTOM_DECIMALS"]
       | None => []
       end.
Proof.
  intros Hvalid Ha.
  pose proof (proj1 (validateGenerateOptions_valid options) Hvalid) as Herr.
  rewrite validateGenerateOptions_errors in Herr.
  apply app_eq_nil in Herr. destruct Herr as [_ Herr].
  apply app_eq_nil in Herr. destruct Herr as [H2 Herr].
  apply app_eq_nil in Herr. destruct Herr as [_ Herr].
  apply app_eq_nil in Herr. destruct Herr as [H4 _].
  unfold warning_codes. rewrite validateGenerateOptions_warnings, !map_app, Ha.
  rewrite Ha in H2. apply validate_amount_isValidAmount in H2.
  rewrite (app_assoc (if Number_lt _ _ then _ else _)).
  f_equal; [| f_equal].
  - assert (Hgt : Number_gt (amount_number amount) (num 0) = true).
    { unfold isValidAmount in H2. fold (amount_number amount) in H2.
      apply andb_true_iff in H2. destruct H2 as [H2 _].
      apply andb_true_iff in H2. apply H2. }
    assert (Hne : amount <> AmountString [])
      by (intros ->; discriminate H2).
    assert (E : snd (validate_amount (Some amount))
                = (if Number_lt (amount_number amount) (num 1)
                      && Number_gt (amount_number amount) (num 0)
                   then [ {| Warning.code := str "SMALL_AMOUNT";
                             Warning.message :=
                               str "金額が1 JPY未満です: "
                               ++ Number_toString (amount_number amount)
                               ++ str "。意図した金額か確認してください" |} ]
                   else [])
                  ++ (if Number_gt (amount_number amount) (num 1000000)
                      then [ {| Warning.code := str "LARGE_AMOUNT";
                                Warning.message :=
                                  str "金額が100万JPYを超えています: "
                                  ++ Number_toString (amount_number amount)
                                  ++ str "。意図した金額か確認してください" |} ]
                      else []))
      by (destruct amount as [x | [| c s]]; [reflexivity | congruence | reflexivity]).
    rewrite E, map_app, Hgt, andb_true_r.
    destruct (Number_lt (amount_number amount) (num 1)),
      (Number_gt (amount_number amount) (num 1000000)); reflexivity.
  - apply validate_jpycContractAddress_valid in H4.
    unfold validate_jpycContractAddress.
    destruct (PaymentURIOptions.jpycContractAddress options) as [address |];
      [| reflexivity].
    rewrite H4. reflexivity.
  - unfold validate_decimals.
    destruct (PaymentURIOptions.decimals options) as [decimals |]; [| reflexivity].
    cbn [snd]. destruct (Number_eq decimals (num 18)); reflexivity.
Qed.

End Warnings.

(** For options that pass, the warnings are: [SMALL_AMOUNT] exactly when the
    amount is below 1, [LARGE_AMOUNT] exactly when it is above 1,000,000
    (never both), [CUSTOM_CONTRACT] exactly when a contract address is
    given, and [CUSTOM_DECIMALS] exactly when a precision other than 18 is
    given. *)
Theorem validateGenerateOptions_warning_codes
  (options : PaymentURIOptions.t) (amount : Amount) :
  ValidationResult.valid (validateGenerateOptions options) = true ->
  PaymentURIOptions.amount options = Some amount ->
  (In (str "SMALL_AMOUNT") (warning_codes options)
   <-> Number_lt (amount_number amount) (num 1) = true)
  /\ (In (str "LARGE_AMOUNT") (warning_codes options)
      <-> Number_gt (amount_number amount) (num 1000000) = true)
  /\ ~ (In (str "SMALL_AMOUNT") (warning_codes options)
        /\ In (str "LARGE_AMOUNT") (warning_codes options))
  /\ (In (str "CUSTOM_CONTRACT") (warning_codes options)
      <-> PaymentURIOptions.jpycContractAddress options <> None)
  /\ (In (str "CUSTOM_DECIMALS") (warning_codes options)
      <-> exists decimals,
            PaymentURIOptions.decimals options = Some decimals
            /\ Number_eq decimals (num 18) = false).
Proof.
  intros Hvalid Ha. rewrite (warning_codes_valid options amount Hvalid Ha).
  pose proof (Number_lt_gt_apart (amount_number amount)) as Hapart.
  destruct (Number_lt (amount_number amount) (num 1)),
    (Number_gt (amount_number amount) (num 1000000));
    try (exfalso; apply Hapart; reflexivity); clear Hapart.
  all: destruct (PaymentURIOptions.jpycContractAddress options) as [address |].
  all: destruct (PaymentURIOptions.decimals options) as [decimals |];
    [destruct (Number_eq decimals (num 18)) eqn:E18 |].
  all: rewrite !In_existsb.
  all: repeat match goal with
              | |- context [existsb ?f ?l] =>
                  let b := eval vm_compute in (existsb f l) in
                  change (existsb f l) with b
              end.
  all: repeat split; try discriminate; try reflexivity; try congruence.
  all: try (intros [? ?]; discriminate).
  all: try (intros (d' & [= <-] & ?); congruence).
  all: try (intros (d' & ? & ?); discriminate).
  all: try (intros _; eexists; split; [reflexivity | assumption]).
Qed.

Lemma validateGenerateOptions_warning_codes_witness :
  (In (str "SMALL_AMOUNT")
      (warning_codes (basic_options (str "0x1234567890123456789012345678901234567890")
                                    (AmountString (str "0.5"))))
   <-> Number_lt (amount_number (AmountString (str "0.5"))) (num 1) = true)
  /\ warning_codes (basic_options (str "0x1234567890123456789012345678901234567890")
                                  (AmountString (str "0.5")))
     = [str "SMALL_AMOUNT"].
Proof.
  split; [| vm_compute; reflexivity].
  refine (proj1 (validateGenerateOptions_warning_codes
                   (basic_options (str "0x1234567890123456789012345678901234567890")
                                  (AmountString (str "0.5")))
                   (AmountString (str "0.5")) _ _)); vm_compute; reflexivity.
Defined.

(** ** Amounts that the validator accepts, in the converter *)

Section Signs.

Lemma round_half_even_nonneg x : (0 <= x)%Q -> (0 <= round_half_even x)%Z.
Proof.
  intros H. unfold round_half_even.
  assert (Hf : (0 <= Qfloor x)%Z).
  { change 0%Z with (Qfloor 0). apply Qfloor_resp_le, H. }
  destruct (x - inject_Z (Qfloor x) ?= 1 # 2)%Q; [destruct (Z.even _) | |]; lia.
Qed.

(** A real that is not positive does not round to a positive double. *)
Lemma round_double_nonpos q :
  (q <= 0)%Q -> Number_gt (round_double q) (num 0) = false.
Proof.
  intros Hq. unfold round_double.
  destruct (q ?= 0)%Q eqn:E; [reflexivity | |].
  - set (t := (Z.max (Qlog2_floor (Qabs q)) (-1022) - 52)%Z).
    set (m := round_half_even (Qabs q / Qpower 2 t)).
    assert (Hp : (0 < Qpower 2 t)%Q) by (apply Qpower_0_lt; reflexivity).
    assert (Hm : (0 <= m)%Z).
    { apply round_half_even_nonneg. unfold Qdiv.
      apply Qmult_le_0_compat; [apply Qabs_nonneg |].
      apply Qinv_le_0_compat, Qlt_le_weak, Hp. }
    assert (Hv : (0 <= Qred (inject_Z m * Qpower 2 t))%Q).
    { rewrite Qred_correct. apply Qmult_le_0_compat; [| apply Qlt_le_weak, Hp].
      unfold Qle. cbn [Qnum Qden inject_Z]. lia. }
    cbv zeta.
    destruct (Qle_bool (Qpower 2 1024) (Qred (inject_Z m * Qpower 2 t)));
      [reflexivity |].
    unfold Number_gt, Number_compare, num.
    destruct (- Qred (inject_Z m * Qpower 2 t) ?= inject_Z 0)%Q eqn:Ec;
      try reflexivity.
    apply Qgt_alt in Ec. pose proof (Qopp_le_compat 0 _ Hv) as Hn.
    exfalso. apply (Qlt_irrefl 0). eapply Qlt_le_trans; [exact Ec | exact Hn].
  - apply Qgt_alt in E. exfalso. apply (Qlt_irrefl 0).
    eapply Qlt_le_trans; eassumption.
Qed.

Lemma unsigned_decimal_prefix_nonneg u v :
  unsigned_decimal_prefix u = Some v -> (0 <= v)%Q.
Proof.
  assert (Hn : forall n e, (0 <= inject_Z (Z.of_N n) * Qpower 10 e)%Q).
  { intros n e. apply Qmult_le_0_compat.
    - unfold Qle. cbn [Qnum Qden inject_Z]. lia.
    - apply Qpower_0_le. discriminate. }
  unfold unsigned_decimal_prefix.
  destruct (span is_digit u) as [i r1].
  assert (Hplain : match i with
                   | [] => None
                   | _ :: _ => Some (inject_Z (Z.of_N (digits_value i))
                                     * Qpower 10 (exponent_part r1))%Q
                   end = Some v -> (0 <= v)%Q)
    by (destruct i; [discriminate | intros [= <-]; apply Hn]).
  destruct r1 as [| c r1']; [exact Hplain |].
  destruct (N.eq_dec c 46) as [-> | Hc].
  - destruct (span is_digit r1') as [f r2].
    destruct i, f; try discriminate; intros [= <-]; apply Hn.
  - replace (match c with 46%N => _ | _ => _ end)
      with (match i with
            | [] => None
            | _ :: _ => Some (inject_Z (Z.of_N (digits_value i))
                              * Qpower 10 (exponent_part (c :: r1')))%Q
            end); [exact Hplain |].
    destruct c as [| q]; [reflexivity |].
    do 6 (destruct q as [q | q |]; try reflexivity). congruence.
Qed.

(** The white space in front of a string. *)
Lemma trimStart_split s :
  exists ws, s = ws ++ trimStart s /\ forallb is_whitespace ws = true.
Proof.
  induction s as [| c s (ws & E & Hws)]; [exists []; auto |].
  cbn [trimStart]. destruct (is_whitespace c) eqn:Hc.
  - exists (c :: ws). cbn [app forallb]. rewrite Hc, Hws. rewrite E at 1. auto.
  - exists []. auto.
Qed.

Lemma trimStart_head s c r : trimStart s = c :: r -> is_whitespace c = false.
Proof.
  induction s as [| d s IH]; [discriminate |]. cbn [trimStart].
  destruct (is_whitespace d) eqn:Hd; [exact IH |]. intros [= <- _]. exact Hd.
Qed.

Lemma trimStart_app ws s :
  forallb is_whitespace ws = true -> trimStart (ws ++ s) = trimStart s.
Proof.
  induction ws as [| c ws IH]; [reflexivity |]. cbn [forallb app trimStart].
  intros H. apply andb_true_iff in H. destruct H as [-> H]. exact (IH H).
Qed.

Lemma trimStart_stop c s : is_whitespace c = false -> trimStart (c :: s) = c :: s.
Proof. intros H. cbn [trimStart]. rewrite H. reflexivity. Qed.

Lemma trimStart_snoc s c :
  is_whitespace c = false -> exists t, trimStart (s ++ [c]) = t ++ [c].
Proof.
  intros Hc. induction s as [| d s (t & IH)].
  - exists []. cbn [app trimStart]. rewrite Hc. reflexivity.
  - cbn [app trimStart]. destruct (is_whitespace d); [eauto |].
    exists (d :: s). reflexivity.
Qed.

(** [trim] keeps the first character that is not white space. *)
Lemma trim_head ws c s :
  forallb is_whitespace ws = true -> is_whitespace c = false ->
  exists t, trim (ws ++ c :: s) = c :: t.
Proof.
  intros Hws Hc. unfold trim.
  rewrite (trimStart_app ws _ Hws), (trimStart_stop c s Hc).
  cbn [rev]. destruct (trimStart_snoc (rev s) c Hc) as (t & ->).
  rewrite rev_app_distr. cbn [rev app]. eauto.
Qed.

Lemma trim_app_first ws c s t :
  forallb is_whitespace ws = true -> is_whitespace c = false ->
  trim (ws ++ c :: s) = 45%N :: t -> c = 45%N.
Proof.
  intros Hws Hc H. destruct (trim_head ws c s Hws Hc) as (t' & E).
  rewrite E in H. injection H as H _. exact H.
Qed.

Lemma trim_cons_first c s t :
  is_whitespace c = false -> trim (c :: s) = 45%N :: t -> c = 45%N.
Proof. apply (trim_app_first [] c s t eq_refl). Qed.

Lemma trim_whitespace ws : forallb is_whitespace ws = true -> trim ws = [].
Proof.
  intros H. unfold trim.
  rewrite <- (app_nil_r ws), (trimStart_app ws [] H). reflexivity.
Qed.

(** [BigInt] of a string is negative only if the string, trimmed, starts
    with the sign. *)
Lemma StringToBigInt_negative s z :
  StringToBigInt s = Some z -> (z < 0)%Z -> exists t, trim s = 45%N :: t.
Proof.
  unfold StringToBigInt. intros H Hz.
  destruct (trim s) as [| c t]; [injection H as <-; lia |].
  destruct (N.eq_dec c 45) as [-> | Hc]; [eauto |]. exfalso.
  assert (Hnn : forall o : option N, option_map Z.of_N o = Some z -> False)
    by (intros [n |]; [intros [= <-]; lia | discriminate]).
  destruct c as [| q]; [exact (Hnn _ H) |].
  do 6 (destruct q as [q | q |]; try exact (Hnn _ H)); try congruence.
  all: destruct t as [| d t]; try exact (Hnn _ H).
  all: destruct d as [| q]; try exact (Hnn _ H).
  all: do 7 (destruct q as [q | q |]; try exact (Hnn _ H)).
Qed.

End Signs.

Section PositiveAmounts.

Lemma parseFloat_trimStart ws t :
  forallb is_whitespace ws = true -> parseFloat (ws ++ t) = parseFloat t.
Proof.
  intros H. unfold parseFloat. rewrite (trimStart_app ws t H). reflexivity.
Qed.

Lemma parseFloat_negative r :
  Number_gt (parseFloat (45%N :: r)) (num 0) = false.
Proof.
  assert (E : parseFloat (45%N :: r)
              = if startsWith r (str "Infinity") then Infinity true
                else match unsigned_decimal_prefix r with
                     | Some v => round_double (- v)
                     | None => NaN
                     end) by reflexivity.
  rewrite E. clear E.
  destruct (startsWith r (str "Infinity")); [reflexivity |].
  destruct (unsigned_decimal_prefix r) as [v |] eqn:E; [| reflexivity].
  apply round_double_nonpos.
  exact (Qopp_le_compat 0 v (unsigned_decimal_prefix_nonneg r v E)).
Qed.

Lemma parseFloat_point r :
  Number_isNaN (parseFloat (46%N :: r)) = false ->
  exists d r', r = d :: r' /\ is_digit d = true.
Proof.
  assert (E : parseFloat (46%N :: r)
              = match unsigned_decimal_prefix (46%N :: r) with
                | Some v => round_double v
                | None => NaN
                end) by reflexivity.
  rewrite E. clear E.
  destruct r as [| d r']; [discriminate |].
  destruct (is_digit d) eqn:Hd; [eauto |].
  unfold unsigned_decimal_prefix. cbn [span].
  change (is_digit 46%N) with false. cbv iota beta. cbn [span]. rewrite Hd. discriminate.
Qed.

Lemma parseFloat_positive_head s :
  Number_gt (parseFloat s) (num 0) = true -> unsigned_head s.
Proof.
  intros Hgt. destruct (trimStart_split s) as (ws & E & Hws).
  rewrite E, (parseFloat_trimStart ws _ Hws) in Hgt.
  destruct (trimStart s) as [| c r] eqn:Et; [discriminate Hgt |].
  exists ws, c, r. split; [exact E |]. split; [exact Hws |].
  split; [exact (trimStart_head s c r Et) |]. split.
  - intros ->. rewrite parseFloat_negative in Hgt. discriminate Hgt.
  - intros ->. apply parseFloat_point. revert Hgt.
    destruct (parseFloat _); [discriminate | reflexivity ..].
Qed.

Lemma digit_head n : exists c r, N_toString n = c :: r /\ is_digit c = true.
Proof.
  destruct (N_toString_spec n) as (Hd & Hne & _).
  destruct (N_toString n) as [| c r]; [congruence |].
  cbn [forallb] in Hd. apply andb_true_iff in Hd. destruct Hd as [Hc _]. eauto.
Qed.

Lemma Number_toString_positive_head q :
  exists c r, Number_toString_positive q = c :: r /\ is_digit c = true.
Proof.
  unfold Number_toString_positive.
  destruct (shortest_decimal q (Qlog10_floor q + 1) 1 17) as [[s n] k].
  destruct (digit_head (Z.to_N s)) as (d & rest & -> & Hd).
  destruct ((k <=? n)%Z && (n <=? 21)%Z); [cbn [app]; eauto |].
  destruct ((0 <? n)%Z && (n <=? 21)%Z) eqn:E.
  - apply andb_true_iff in E. destruct E as [E _]. apply Z.ltb_lt in E.
    destruct (Z.to_nat n) as [| k'] eqn:En; [lia |]. cbn [firstn app]. eauto.
  - destruct ((-6 <? n)%Z && (n <=? 0)%Z); [eauto |].
    destruct rest; eauto.
Qed.

Lemma Number_toString_head x :
  Number_gt x (num 0) = true -> Number_isFinite x = true ->
  exists c r, Number_toString x = c :: r /\ is_digit c = true.
Proof.
  destruct x as [| neg | q]; try discriminate. intros Hgt _.
  unfold Number_gt, Number_compare, num in Hgt.
  destruct (q ?= inject_Z 0)%Q eqn:E; try discriminate. clear Hgt.
  unfold Number_toString.
  destruct (Qeq_bool q (inject_Z (Qfloor q)) && (Z.abs (Qfloor q) <=? MAX_SAFE_INTEGER)%Z).
  - assert (Hf : (0 <= Qfloor q)%Z).
    { change 0%Z with (Qfloor 0). apply Qfloor_resp_le, Qlt_le_weak, Qgt_alt, E. }
    destruct (Qfloor q) as [| z | z]; try lia; apply digit_head.
  - change (inject_Z 0) with 0%Q in E. rewrite E. apply Number_toString_positive_head.
Qed.

Lemma is_digit_unsigned c : is_digit c = true -> is_whitespace c = false /\ c <> 45%N /\ c <> 46%N.
Proof.
  intros H. split; [apply is_digit_not_whitespace, H |].
  apply is_digit_bounds in H. split; lia.
Qed.

Lemma positive_amount_head amount :
  isValidAmount amount = true -> unsigned_head (Amount_toString amount).
Proof.
  unfold isValidAmount. intros H.
  apply andb_true_iff in H. destruct H as [H _].
  apply andb_true_iff in H. destruct H as [H Hgt].
  apply andb_true_iff in H. destruct H as [_ Hfin].
  destruct amount as [x | s]; cbn [Amount_toString].
  - destruct (Number_toString_head x Hgt Hfin) as (c & r & -> & Hc).
    destruct (is_digit_unsigned c Hc) as (Hw & H45 & H46).
    exists [], c, r. repeat split; try assumption. intros ->. congruence.
  - apply parseFloat_positive_head, Hgt.
Qed.

Lemma whitespace_not_point ws :
  forallb is_whitespace ws = true -> forallb (is_not 46) ws = true.
Proof.
  apply forallb_impl. intros c Hc. unfold is_not.
  destruct (N.eqb_spec c 46) as [-> | _]; [discriminate Hc | reflexivity].
Qed.

Lemma split_first d c s :
  c <> d -> nth 0 (split d (c :: s)) [] = c :: nth 0 (split d s) [].
Proof.
  intros H. cbn [split].
  replace (c =? d)%N with false by (symmetry; apply N.eqb_neq, H).
  destruct (split d s); reflexivity.
Qed.

Lemma split_prefix d pre rest :
  forallb (is_not d) pre = true ->
  nth 0 (split d (pre ++ rest)) [] = pre ++ nth 0 (split d rest) [].
Proof.
  intros H. induction pre as [| c pre IH]; [reflexivity |].
  cbn [forallb] in H. apply andb_true_iff in H. destruct H as [Hc H].
  unfold is_not in Hc. apply negb_true_iff, N.eqb_neq in Hc.
  cbn [app]. rewrite (split_first d c _ Hc), (IH H). reflexivity.
Qed.

(** The string that [jpyToWei] hands to [BigInt] does not denote a negative
    integer when the amount has an unsigned head. *)
Lemma scaled_nonneg s p z :
  unsigned_head s ->
  StringToBigInt
    (or_default (nth 0 (split 46 s) []) (str "0")
     ++ slice0 (padEnd (or_default (nth 1 (split 46 s) []) (str "")) p 48%N) p)
  = Some z ->
  (0 <= z)%Z.
Proof.
  intros (ws & c & r & -> & Hws & Hc & H45 & H46) Hz.
  destruct (Z.lt_ge_cases z 0) as [Hneg | Hok]; [exfalso | exact Hok].
  destruct (StringToBigInt_negative _ z Hz Hneg) as (t & Ht). clear Hz Hneg.
  pose proof (whitespace_not_point ws Hws) as Hnp.
  destruct (N.eq_dec c 46) as [-> | Hcp].
  - destruct (H46 eq_refl) as (d & r' & -> & Hd).
    destruct (is_digit_unsigned d Hd) as (Hdw & Hd45 & Hd46).
    rewrite (split_at 46 ws (d :: r') Hnp) in Ht. cbn [nth] in Ht.
    rewrite (split_first 46 d r' Hd46) in Ht. cbn [or_default] in Ht.
    unfold slice0, padEnd in Ht.
    destruct p as [| p'].
    + cbn [firstn] in Ht. rewrite app_nil_r in Ht.
      destruct ws as [| w ws'].
      * cbn [or_default] in Ht. vm_compute in Ht. discriminate Ht.
      * cbn [or_default] in Ht. rewrite (trim_whitespace _ Hws) in Ht. discriminate Ht.
    + cbn [app firstn] in Ht.
      destruct ws as [| w ws'].
      * cbn [or_default] in Ht. change (str "0") with [48%N] in Ht. cbn [app] in Ht.
        apply trim_cons_first in Ht; [discriminate Ht | reflexivity].
      * cbn [or_default] in Ht.
        apply trim_app_first in Ht; [congruence | exact Hws | exact Hdw].
  - assert (Hpre : forallb (is_not 46) (ws ++ [c]) = true).
    { rewrite forallb_app, Hnp. cbn [forallb]. unfold is_not.
      replace (c =? 46)%N with false by (symmetry; apply N.eqb_neq, Hcp). reflexivity. }
    replace (ws ++ c :: r) with ((ws ++ [c]) ++ r) in Ht
      by (rewrite <- app_assoc; reflexivity).
    rewrite (split_prefix 46 _ r Hpre) in Ht.
    rewrite <- !app_assoc in Ht. cbn [app] in Ht.
    assert (Hor : forall x, or_default (ws ++ c :: x) (str "0") = ws ++ c :: x)
      by (intros x; destruct ws; reflexivity).
    rewrite Hor, <- app_assoc in Ht. cbn [app] in Ht.
    apply trim_app_first in Ht; [congruence | exact Hws | exact Hc].
Qed.

Lemma BigInt_toString_digits z :
  (0 <= z)%Z ->
  forallb is_digit (BigInt_toString z) = true /\ BigInt_toString z <> [].
Proof.
  intros H.
  assert (E : BigInt_toString z = N_toString (Z.to_N z))
    by (destruct z; [reflexivity | reflexivity | lia]).
  rewrite E. destruct (N_toString_spec (Z.to_N z)) as (Hd & Hne & _). auto.
Qed.

(** The minor-unit amount of an amount that the validator accepts is a
    string of decimal digits. *)
Lemma jpyToWei_valid_digits amount decimals w :
  isValidAmount amount = true -> jpyToWei amount decimals = Ok w ->
  forallb is_digit w = true /\ w <> [].
Proof.
  intros Hv. pose proof (positive_amount_head amount Hv) as Hhead.
  unfold jpyToWei.
  repeat match goal with
         | |- context [if ?b then Throw _ else _] => destruct b; [discriminate |]
         end.
  cbv zeta.
  destruct (StringToBigInt _) as [z |] eqn:Ez; [| discriminate].
  intros [= <-]. apply BigInt_toString_digits.
  exact (scaled_nonneg _ _ z Hhead Ez).
Qed.

End PositiveAmounts.

(** ** Generation, end to end *)

Section Generation.

Lemma precision_to_nat decimals p :
  precision decimals p -> Number_to_nat decimals = Z.to_nat p.
Proof.
  intros [_ H]. destruct decimals as [| [|] | q]; try discriminate.
  unfold Number_eq, Number_compare, num in H.
  destruct (q ?= inject_Z p)%Q eqn:E; try discriminate.
  apply Qeq_alt in E. cbn [Number_to_nat]. rewrite (Qfloor_comp _ _ E), Qfloor_Z.
  reflexivity.
Qed.

(** The converter reads a precision through its integer value only. *)
Lemma jpyToWei_precision amount decimals p :
  precision decimals p -> jpyToWei amount decimals = jpyToWei amount (num p).
Proof.
  intros Hp.
  assert (Hr : decimals_out_of_range decimals = false)
    by (apply decimals_out_of_range_spec; exists p; exact Hp).
  destruct (decimals_in_range p (proj1 Hp)) as [Hr' Hn'].
  unfold jpyToWei. rewrite Hr, Hr', Hn', (precision_to_nat decimals p Hp). reflexivity.
Qed.

Lemma decodeEIP681_valid cc cr m id :
  ADDRESS_REGEX_test cc = true -> ADDRESS_REGEX_test cr = true ->
  forallb is_digit m = true -> m <> [] -> (0 < id <= MAX_SAFE_INTEGER)%Z ->
  decodeEIP681 (identifier cc (Number_toString (num id)) cr m)
  = Ok {| DecodedEIP681.scheme := str "ethereum";
          DecodedEIP681.contractAddress := cc;
          DecodedEIP681.chainId := num id;
          DecodedEIP681.functionName := str "transfer";
          DecodedEIP681.recipientAddress := cr;
          DecodedEIP681.amount := m |}.
Proof.
  intros Hcc Hcr Hm Hmn Hid.
  destruct (address_alnum cc Hcc) as [Hca Hcn].
  destruct (address_alnum cr Hcr) as [Hra Hrn].
  destruct (N_toString_spec (Z.to_N id)) as (Hd & Hdn & _).
  assert (Hma : forallb is_alnum m = true).
  { revert Hm. apply forallb_impl. intros x Hx. unfold is_alnum. rewrite Hx. reflexivity. }
  rewrite Number_toString_safe by lia.
  rewrite decodeEIP681_identifier by assumption.
  rewrite parseInt10_safe by exact Hid. reflexivity.
Qed.

(** What a passing verdict says of the amount and of the precision. *)
Lemma valid_amount_precision options amount :
  ValidationResult.valid (validateGenerateOptions options) = true ->
  PaymentURIOptions.amount options = Some amount ->
  isValidAmount amount = true
  /\ exists p, precision (match PaymentURIOptions.decimals options with
                          | Some d => d
                          | None => JPYC_DECIMALS
                          end) p.
Proof.
  intros Hvalid Ea.
  pose proof (proj1 (validateGenerateOptions_valid options) Hvalid) as Herr.
  rewrite validateGenerateOptions_errors in Herr.
  apply app_eq_nil in Herr. destruct Herr as [_ Herr].
  apply app_eq_nil in Herr. destruct Herr as [H2 Herr].
  apply app_eq_nil in Herr. destruct Herr as [_ Herr].
  apply app_eq_nil in Herr. destruct Herr as [_ H5].
  rewrite Ea in H2. apply validate_amount_isValidAmount in H2.
  apply validate_decimals_nil in H5. split; [exact H2 |].
  destruct (PaymentURIOptions.decimals options) as [d |].
  - apply decimals_out_of_range_spec, H5.
  - exists 18%Z. split; [lia | reflexivity].
Qed.

(** A network that is omitted or supported is a key of [CHAIN_CONFIGS]. *)
Lemma supported_lookup (n : option JSString) :
  (forall network, n = Some network -> supported_network network) ->
  exists chainConfig,
    lookup CHAIN_CONFIGS (match n with Some x => x | None => DEFAULT_NETWORK end)
    = Some chainConfig.
Proof.
  intros H. destruct n as [network |].
  - apply lookup_CHAIN_CONFIGS, H. reflexivity.
  - eexists. vm_compute. reflexivity.
Qed.

(** What [generatePaymentURI] does once the validator has passed, on a
    network that is a key of [CHAIN_CONFIGS]. *)
Lemma generatePaymentURI_valid options chainConfig :
  ValidationResult.valid (validateGenerateOptions options) = true ->
  lookup CHAIN_CONFIGS (match PaymentURIOptions.network options with
                        | Some n => n
                        | None => DEFAULT_NETWORK
                        end) = Some chainConfig ->
  exists merchantAddress amount p,
    PaymentURIOptions.merchantAddress options = Some merchantAddress
    /\ ADDRESS_REGEX_test merchantAddress = true
    /\ PaymentURIOptions.amount options = Some amount
    /\ isValidAmount amount = true
    /\ ADDRESS_REGEX_test (match PaymentURIOptions.jpycContractAddress options with
                           | Some a => a
                           | None => ChainConfig.jpycAddress chainConfig
                           end) = true
    /\ precision (match PaymentURIOptions.decimals options with
                  | Some d => d
                  | None => JPYC_DECIMALS
                  end) p
    /\ generatePaymentURI options
       = (let network := match PaymentURIOptions.network options with
                         | Some n => n
                         | None => DEFAULT_NETWORK
                         end in
          let jpycAddress := match PaymentURIOptions.jpycContractAddress options with
                             | Some a => a
                             | None => ChainConfig.jpycAddress chainConfig
                             end in
          let decimals := match PaymentURIOptions.decimals options with
                          | Some d => d
                          | None => JPYC_DECIMALS
                          end in
          amountWei <- jpyToWei amount decimals ;;
          uri <- encodeEIP681 jpycAddress merchantAddress amountWei
                              (ChainConfig.chainId chainConfig) ;;
          Ok {| PaymentURIResult.uri := uri;
                PaymentURIResult.chainId := Some (ChainConfig.chainId chainConfig);
                PaymentURIResult.network := network;
                PaymentURIResult.jpycContractAddress := jpycAddress;
                PaymentURIResult.amountWei := amountWei;
                PaymentURIResult.amountJPY := Amount_toString amount;
                PaymentURIResult.decimals := decimals;
                PaymentURIResult.warnings :=
                  ValidationResult.warnings (validateGenerateOptions options) |}).
Proof.
  intros Hvalid Ec.
  destruct (generatePaymentURI_own options chainConfig Hvalid Ec)
    as (merchant & amount & Em & Hm & Ea & Hj & E).
  destruct (valid_amount_precision options amount Hvalid Ea) as [Hv [p Hp]].
  exists merchant, amount, p. repeat (split; [assumption |]). exact E.
Qed.

(** The same, on a network that [CHAIN_CONFIGS] inherits from
    [Object.prototype]: the chain id is [undefined], and so is the contract
    address unless the options give one. *)
Lemma generatePaymentURI_inherited options network :
  ValidationResult.valid (validateGenerateOptions options) = true ->
  PaymentURIOptions.network options = Some network ->
  In network Object_prototype ->
  exists merchantAddress amount p,
    PaymentURIOptions.merchantAddress options = Some merchantAddress
    /\ ADDRESS_REGEX_test merchantAddress = true
    /\ PaymentURIOptions.amount options = Some amount
    /\ isValidAmount amount = true
    /\ match PaymentURIOptions.jpycContractAddress options with
       | Some address => ADDRESS_REGEX_test address = true
       | None => True
       end
    /\ precision (match PaymentURIOptions.decimals options with
                  | Some d => d
                  | None => JPYC_DECIMALS
                  end) p
    /\ generatePaymentURI options
       = (let jpycAddress := PaymentURIOptions.jpycContractAddress options in
          let decimals := match PaymentURIOptions.decimals options with
                          | Some d => d
                          | None => JPYC_DECIMALS
                          end in
          amountWei <- jpyToWei amount decimals ;;
          uri <- encodeEIP681_untyped jpycAddress merchantAddress amountWei None ;;
          jpycAddress <- present jpycAddress ;;
          Ok {| PaymentURIResult.uri := uri;
                PaymentURIResult.chainId := None;
                PaymentURIResult.network := network;
                PaymentURIResult.jpycContractAddress := jpycAddress;
                PaymentURIResult.amountWei := amountWei;
                PaymentURIResult.amountJPY := Amount_toString amount;
                PaymentURIResult.decimals := decimals;
                PaymentURIResult.warnings :=
                  ValidationResult.warnings (validateGenerateOptions options) |}).
Proof.
  intros Hvalid En Hin.
  destruct (generatePaymentURI_passed options Hvalid)
    as (merchant & amount & property & Em & Hm & Ea & Eg & Hj & E).
  rewrite En in Eg, E. rewrite (proj2 (get_Inherited network Hin)) in Eg.
  injection Eg as <-.
  destruct (valid_amount_precision options amount Hvalid Ea) as [Hv [p Hp]].
  exists merchant, amount, p. repeat (split; [assumption |]).
  rewrite E. cbn zeta. cbn [Property_jpycAddress Property_chainId].
  destruct (PaymentURIOptions.jpycContractAddress options); reflexivity.
Qed.

(** The call of [encodeEIP681] with a chain id that may be [undefined]. *)
Lemma encodeEIP681_untyped_Ok c r m chainId :
  ADDRESS_REGEX_test c = true -> ADDRESS_REGEX_test r = true ->
  exists cc cr,
    toChecksumAddress c = Ok cc /\ toChecksumAddress r = Ok cr
    /\ ADDRESS_REGEX_test cc = true /\ ADDRESS_REGEX_test cr = true
    /\ encodeEIP681_untyped (Some c) r m chainId
       = Ok (identifier cc (template_chainId chainId) cr m).
Proof.
  intros Hc Hr.
  destruct (toChecksumAddress_total c Hc) as (cc & Ecc & Hcc).
  destruct (toChecksumAddress_total r Hr) as (cr & Ecr & Hcr).
  exists cc, cr. repeat split; try assumption.
  unfold encodeEIP681_untyped. cbn [present bind]. rewrite Ecc, Ecr. reflexivity.
Qed.

(** The network of a record is the one of the options, or the default. *)
Lemma generatePaymentURI_network options result :
  generatePaymentURI options = Ok result ->
  PaymentURIResult.network result
  = match PaymentURIOptions.network options with
    | Some n => n
    | None => DEFAULT_NETWORK
    end.
Proof.
  unfold generatePaymentURI.
  destruct (negb _); [discriminate |].
  destruct (get CHAIN_CONFIGS _); [| discriminate].
  destruct (present (PaymentURIOptions.amount options)); [| discriminate]. cbn [bind].
  destruct (jpyToWei _ _); [| discriminate]. cbn [bind].
  destruct (present (PaymentURIOptions.merchantAddress options)); [| discriminate].
  cbn [bind].
  destruct (encodeEIP681_untyped _ _ _ _); [| discriminate]. cbn [bind].
  destruct (present _); [| discriminate]. cbn [bind].
  intros [= <-]. reflexivity.
Qed.

End Generation.

Section Throws.

Lemma unsigned_head_not_negative s : unsigned_head s -> startsWith s (str "-") = false.
Proof.
  intros (ws & c & r & -> & Hws & Hc & H45 & _).
  change (str "-") with [45%N]. destruct ws as [| w ws'].
  - cbn [app startsWith]. rewrite andb_true_r. apply N.eqb_neq. congruence.
  - cbn [app startsWith]. rewrite andb_true_r. apply N.eqb_neq.
    cbn [forallb] in Hws. apply andb_true_iff in Hws. destruct Hws as [Hw _].
    intros <-. discriminate Hw.
Qed.

Lemma jpyToWei_Throw amount decimals thrown :
  decimals_out_of_range decimals = false ->
  jpyToWei amount decimals = Throw thrown ->
  thrown = SyntaxError
  \/ exists message,
       thrown = JPYCPaymentError message INVALID_AMOUNT
                                 (DetailsAmount (Amount_toString amount)).
Proof.
  intros Hr. unfold jpyToWei. rewrite Hr. cbv zeta.
  repeat match goal with
         | |- context [if ?b then Throw _ else _] =>
             destruct b; [intros [= <-]; right; eauto |]
         end.
  destruct (StringToBigInt _); [discriminate | intros [= <-]; left; reflexivity].
Qed.

End Throws.

(** For an amount that [isValidAmount] accepts and a precision in 0..18,
    whatever [jpyToWei] returns is a non-empty string of decimal digits (no
    sign), and whatever it throws is a [SyntaxError] of [BigInt] or an
    [INVALID_AMOUNT] error about that amount, never for a negative amount. *)
Theorem jpyToWei_valid_amount (amount : Amount) (decimals : JSNumber) :
  isValidAmount amount = true ->
  decimals_out_of_range decimals = false ->
  (forall amountWei,
      jpyToWei amount decimals = Ok amountWei ->
      forallb is_digit amountWei = true /\ amountWei <> [])
  /\ (forall thrown,
         jpyToWei amount decimals = Throw thrown ->
         thrown = SyntaxError
         \/ exists message,
              thrown = JPYCPaymentError message INVALID_AMOUNT
                                        (DetailsAmount (Amount_toString amount))
              /\ message <> str "金額を負の数にすることはできません").
Proof.
  intros Hv Hr. split.
  - intros w. apply jpyToWei_valid_digits, Hv.
  - intros thrown. pose proof (positive_amount_head amount Hv) as Hhead.
    apply unsigned_head_not_negative in Hhead.
    unfold jpyToWei. rewrite Hr. cbv zeta.
    revert Hhead. generalize (Amount_toString amount). intros amountStr Hhead.
    rewrite Hhead.
    assert (Hnan : forall t : JSString,
               nth 0 (str "無効な金額形式です: " ++ t) 0%N
               <> nth 0 (str "金額を負の数にすることはできません") 0%N)
      by (intros t; vm_compute; discriminate).
    assert (Hcount : forall t : JSString,
               nth 2 (str "金額に小数点が複数含まれています: " ++ t) 0%N
               <> nth 2 (str "金額を負の数にすることはできません") 0%N)
      by (intros t; vm_compute; discriminate).
    destruct (Number_isNaN (parseFloat amountStr)).
    { intros [= <-]. right. eexists. split; [reflexivity |].
      intros E. apply (Hnan amountStr).
      exact (f_equal (fun m : JSString => nth 0 m 0%N) E). }
    destruct (negb (Number_isFinite (parseFloat amountStr))).
    { intros [= <-]. right. eexists. split; [reflexivity |].
      intros E. apply (f_equal (fun m : JSString => nth 2 m 0%N)) in E.
      vm_compute in E. discriminate E. }
    destruct (1 <? count_matches 46 amountStr).
    { intros [= <-]. right. eexists. split; [reflexivity |].
      intros E. apply (Hcount amountStr).
      exact (f_equal (fun m : JSString => nth 2 m 0%N) E). }
    destruct (StringToBigInt _); [discriminate | intros [= <-]; left; reflexivity].
Qed.

Lemma jpyToWei_valid_amount_witness :
  (forall amountWei,
      jpyToWei (AmountString (str " +7.5")) (num 18) = Ok amountWei ->
      forallb is_digit amountWei = true /\ amountWei <> [])
  /\ jpyToWei (AmountString (str " +7.5")) (num 18) = Ok (str "7500000000000000000").
Proof.
  split; [| vm_compute; reflexivity].
  apply (jpyToWei_valid_amount (AmountString (str " +7.5")) (num 18));
    vm_compute; reflexivity.
Defined.

(** Every error of [generatePaymentURI] is one of these: [VALIDATION_FAILED]
    with the validator's list, when the validator refuses the options;
    otherwise what [jpyToWei] throws on an amount that the validator accepted,
    an [INVALID_AMOUNT] error or the [SyntaxError] of [BigInt]; otherwise
    [ENCODING_FAILED] around a [TypeError], which happens only when the
    network is a name that [CHAIN_CONFIGS] inherits from [Object.prototype]
    and the options give no contract address. The branch that throws
    [INVALID_NETWORK] is never taken, and no [INVALID_ADDRESS] or
    [INVALID_DECIMALS] error comes out. *)
Theorem generatePaymentURI_throws (options : PaymentURIOptions.t) (thrown : Thrown) :
  generatePaymentURI options = Throw thrown ->
  (ValidationResult.valid (validateGenerateOptions options) = false
   /\ thrown
      = JPYCPaymentError
          (str "バリデーションに失敗しました: "
           ++ join (str ", ") (ValidationResult.errors (validateGenerateOptions options)))
          VALIDATION_FAILED
          (DetailsErrors (ValidationResult.errors (validateGenerateOptions options))))
  \/ (ValidationResult.valid (validateGenerateOptions options) = true
      /\ (thrown = SyntaxError
          \/ exists message amount,
               thrown = JPYCPaymentError message INVALID_AMOUNT (DetailsAmount amount)))
  \/ (ValidationResult.valid (validateGenerateOptions options) = true
      /\ (exists network,
             PaymentURIOptions.network options = Some network
             /\ In network Object_prototype)
      /\ PaymentURIOptions.jpycContractAddress options = None
      /\ thrown = JPYCPaymentError (str "EIP-681 URIのエンコードに失敗しました")
                                   ENCODING_FAILED (DetailsError TypeError)).
Proof.
  intros H.
  destruct (ValidationResult.valid (validateGenerateOptions options)) eqn:Hvalid.
  2:{ left. split; [reflexivity |].
      unfold generatePaymentURI in H. rewrite Hvalid in H. cbn [negb] in H.
      injection H as <-. reflexivity. }
  right.
  destruct (generatePaymentURI_passed options Hvalid)
    as (m0 & a0 & property & _ & _ & _ & Eg & _ & _).
  destruct (get_cases _ _ _ Eg) as [(config & Ec & _) | (Enone & Hin & _)].
  - left. split; [reflexivity |].
    destruct (generatePaymentURI_valid options config Hvalid Ec)
      as (m & amount & p & Em & Hm & Ea & Hv & Hj & Hp & E).
    rewrite E in H. cbv zeta in H.
    assert (Hr : decimals_out_of_range
                   (match PaymentURIOptions.decimals options with
                    | Some d => d
                    | None => JPYC_DECIMALS
                    end) = false)
      by (apply decimals_out_of_range_spec; exists p; exact Hp).
    destruct (jpyToWei amount _) as [w | e] eqn:Ew; cbn [bind] in H.
    + destruct (encodeEIP681_Ok _ m w (ChainConfig.chainId config) Hj Hm)
        as (cc & cr & _ & _ & _ & _ & Eu).
      rewrite Eu in H. discriminate H.
    + injection H as <-.
      destruct (jpyToWei_Throw _ _ _ Hr Ew) as [-> | [message ->]]; eauto.
  - destruct (PaymentURIOptions.network options) as [network |] eqn:En;
      [| vm_compute in Enone; discriminate Enone].
    destruct (generatePaymentURI_inherited options network Hvalid En Hin)
      as (m & amount & p & Em & Hm & Ea & Hv & Hj & Hp & E).
    rewrite E in H. cbv zeta in H.
    assert (Hr : decimals_out_of_range
                   (match PaymentURIOptions.decimals options with
                    | Some d => d
                    | None => JPYC_DECIMALS
                    end) = false)
      by (apply decimals_out_of_range_spec; exists p; exact Hp).
    destruct (jpyToWei amount _) as [w | e] eqn:Ew; cbn [bind] in H.
    + destruct (PaymentURIOptions.jpycContractAddress options) as [c |] eqn:Ej.
      * destruct (encodeEIP681_untyped_Ok c m w None Hj Hm)
          as (cc & cr & _ & _ & _ & _ & Eu).
        rewrite Eu in H. discriminate H.
      * right. split; [reflexivity |]. split; [eauto |]. split; [reflexivity |].
        injection H as <-. reflexivity.
    + left. split; [reflexivity |]. injection H as <-.
      destruct (jpyToWei_Throw _ _ _ Hr Ew) as [-> | [message ->]]; eauto.
Qed.

Lemma generatePaymentURI_throws_witness :
  (ValidationResult.valid
     (validateGenerateOptions
        (basic_options (str "0x1234567890123456789012345678901234567890")
                       (AmountString (str "1.2.3")))) = false
   /\ JPYCPaymentError (str "金額に小数点が複数含まれています: 1.2.3")
                       INVALID_AMOUNT (DetailsAmount (str "1.2.3"))
      = JPYCPaymentError
          (str "バリデーションに失敗しました: "
           ++ join (str ", ")
                (ValidationResult.errors
                   (validateGenerateOptions
                      (basic_options (str "0x1234567890123456789012345678901234567890")
                       (AmountString (str "1.2.3"))))))
          VALIDATION_FAILED
          (DetailsErrors
             (ValidationResult.errors
                (validateGenerateOptions
                   (basic_options (str "0x1234567890123456789012345678901234567890")
                       (AmountString (str "1.2.3")))))))
  \/ (ValidationResult.valid
        (validateGenerateOptions
           (basic_options (str "0x1234567890123456789012345678901234567890")
                       (AmountString (str "1.2.3")))) = true
      /\ (JPYCPaymentError (str "金額に小数点が複数含まれています: 1.2.3")
                           INVALID_AMOUNT (DetailsAmount (str "1.2.3"))
          = SyntaxError
          \/ exists message amount,
               JPYCPaymentError (str "金額に小数点が複数含まれています: 1.2.3")
                                INVALID_AMOUNT (DetailsAmount (str "1.2.3"))
               = JPYCPaymentError message INVALID_AMOUNT (DetailsAmount amount)))
  \/ (ValidationResult.valid
        (validateGenerateOptions
           (basic_options (str "0x1234567890123456789012345678901234567890")
                       (AmountString (str "1.2.3")))) = true
      /\ (exists network,
             PaymentURIOptions.network
               (basic_options (str "0x1234567890123456789012345678901234567890")
                       (AmountString (str "1.2.3"))) = Some network
             /\ In network Object_prototype)
      /\ PaymentURIOptions.jpycContractAddress
           (basic_options (str "0x1234567890123456789012345678901234567890")
                       (AmountString (str "1.2.3"))) = None
      /\ JPYCPaymentError (str "金額に小数点が複数含まれています: 1.2.3")
                          INVALID_AMOUNT (DetailsAmount (str "1.2.3"))
         = JPYCPaymentError (str "EIP-681 URIのエンコードに失敗しました")
                            ENCODING_FAILED (DetailsError TypeError)).
Proof.
  apply (generatePaymentURI_throws
           (basic_options (str "0x1234567890123456789012345678901234567890")
                       (AmountString (str "1.2.3")))).
  vm_compute. reflexivity.
Defined.

(** For options that pass, whose network is omitted or one of the three
    supported ones, and whose amount is a decimal string,
    [generatePaymentURI] never throws: it returns a record whose [amountWei]
    is the floor of the amount times [10^p], [p] the precision in use, whose
    [amountJPY] is the amount as given, whose chain id is defined, and whose
    [uri] is written with the checksummed contract and merchant addresses,
    that chain id and that [amountWei]. *)
Theorem generatePaymentURI_decimal (options : PaymentURIOptions.t) (A : JSString) :
  PaymentURIOptions.amount options = Some (AmountString A) ->
  is_decimal A = true ->
  ValidationResult.valid (validateGenerateOptions options) = true ->
  (forall network,
      PaymentURIOptions.network options = Some network -> supported_network network) ->
  exists result p merchantAddress checksummedContract checksummedMerchant chainId,
    generatePaymentURI options = Ok result
    /\ precision (PaymentURIResult.decimals result) p
    /\ PaymentURIResult.amountWei result
       = BigInt_toString (Qfloor (decimal_value_Q A * inject_Z (10 ^ p)))
    /\ PaymentURIResult.amountJPY result = A
    /\ PaymentURIOptions.merchantAddress options = Some merchantAddress
    /\ toChecksumAddress merchantAddress = Ok checksummedMerchant
    /\ toChecksumAddress (PaymentURIResult.jpycContractAddress result)
       = Ok checksummedContract
    /\ PaymentURIResult.chainId result = Some chainId
    /\ PaymentURIResult.uri result
       = str "ethereum:" ++ checksummedContract ++ str "@"
         ++ Number_toString chainId
         ++ str "/transfer?address=" ++ checksummedMerchant
         ++ str "&uint256=" ++ PaymentURIResult.amountWei result.
Proof.
  intros Ha Hdec Hvalid Hn.
  destruct (supported_lookup _ Hn) as [config Ec].
  destruct (generatePaymentURI_valid options config Hvalid Ec)
    as (m & amount & p & Em & Hm & Ea & Hv & Hj & Hp & E).
  rewrite Ha in Ea. injection Ea as <-.
  assert (Hfin : Number_isFinite (parseFloat A) = true).
  { unfold isValidAmount in Hv.
    apply andb_true_iff in Hv. destruct Hv as [Hv _].
    apply andb_true_iff in Hv. destruct Hv as [Hv _].
    apply andb_true_iff in Hv. apply Hv. }
  cbv zeta in E.
  rewrite (jpyToWei_precision _ _ p Hp), (jpyToWei_decimal A p Hdec Hfin (proj1 Hp)) in E.
  cbn [bind] in E.
  destruct (encodeEIP681_Ok _ m (N_toString (digits_value (scaled_digits A (Z.to_nat p))))
              (ChainConfig.chainId config) Hj Hm)
    as (cc & cm & Ecc & Ecm & _ & _ & Eu).
  rewrite Eu in E. cbn [bind] in E.
  eexists. exists p, m, cc, cm, (ChainConfig.chainId config). split; [exact E |].
  cbn [PaymentURIResult.decimals PaymentURIResult.amountWei PaymentURIResult.amountJPY
       PaymentURIResult.jpycContractAddress PaymentURIResult.uri
       PaymentURIResult.chainId Amount_toString].
  repeat split; try assumption; try apply Hp.
  rewrite floor_scaled by apply Hp. rewrite BigInt_toString_of_N.
  rewrite (scaled_value A (Z.to_nat p) Hdec), Z_nat_N. reflexivity.
Qed.

Lemma generatePaymentURI_decimal_witness :
  exists result p merchantAddress checksummedContract checksummedMerchant chainId,
    generatePaymentURI
      (basic_options (str "0x1234567890123456789012345678901234567890")
                     (AmountString (str "100.5"))) = Ok result
    /\ precision (PaymentURIResult.decimals result) p
    /\ PaymentURIResult.amountWei result
       = BigInt_toString (Qfloor (decimal_value_Q (str "100.5") * inject_Z (10 ^ p)))
    /\ PaymentURIResult.amountJPY result = str "100.5"
    /\ PaymentURIOptions.merchantAddress
         (basic_options (str "0x1234567890123456789012345678901234567890")
                        (AmountString (str "100.5"))) = Some merchantAddress
    /\ toChecksumAddress merchantAddress = Ok checksummedMerchant
    /\ toChecksumAddress (PaymentURIResult.jpycContractAddress result)
       = Ok checksummedContract
    /\ PaymentURIResult.chainId result = Some chainId
    /\ PaymentURIResult.uri result
       = str "ethereum:" ++ checksummedContract ++ str "@"
         ++ Number_toString chainId
         ++ str "/transfer?address=" ++ checksummedMerchant
         ++ str "&uint256=" ++ PaymentURIResult.amountWei result.
Proof.
  apply (generatePaymentURI_decimal
           (basic_options (str "0x1234567890123456789012345678901234567890")
                          (AmountString (str "100.5")))
           (str "100.5"));
    [vm_compute; reflexivity | vm_compute; reflexivity | vm_compute; reflexivity |].
  intros network E. vm_compute in E. discriminate E.
Defined.

(** Every identifier that [generatePaymentURI] returns for a network that is
    one of the three supported ones decodes, with [decodeEIP681], to the
    fields of the record it came in: the scheme, the checksummed contract
    address, the chain id, the function name, the checksummed merchant
    address and the minor-unit amount. *)
Theorem decodeEIP681_generatePaymentURI
  (options : PaymentURIOptions.t) (result : PaymentURIResult.t) :
  generatePaymentURI options = Ok result ->
  supported_network (PaymentURIResult.network result) ->
  exists merchantAddress checksummedContract checksummedMerchant chainId,
    PaymentURIOptions.merchantAddress options = Some merchantAddress
    /\ toChecksumAddress merchantAddress = Ok checksummedMerchant
    /\ toChecksumAddress (PaymentURIResult.jpycContractAddress result)
       = Ok checksummedContract
    /\ PaymentURIResult.chainId result = Some chainId
    /\ decodeEIP681 (PaymentURIResult.uri result)
       = Ok {| DecodedEIP681.scheme := str "ethereum";
               DecodedEIP681.contractAddress := checksummedContract;
               DecodedEIP681.chainId := chainId;
               DecodedEIP681.functionName := str "transfer";
               DecodedEIP681.recipientAddress := checksummedMerchant;
               DecodedEIP681.amount := PaymentURIResult.amountWei result |}.
Proof.
  intros H Hs.
  destruct (ValidationResult.valid (validateGenerateOptions options)) eqn:Hvalid.
  2:{ unfold generatePaymentURI in H. rewrite Hvalid in H. discriminate H. }
  rewrite (generatePaymentURI_network _ _ H) in Hs.
  apply lookup_CHAIN_CONFIGS in Hs. destruct Hs as [config Ec].
  destruct (generatePaymentURI_valid options config Hvalid Ec)
    as (m & amount & p & Em & Hm & Ea & Hv & Hj & Hp & E).
  rewrite E in H. cbv zeta in H. clear E.
  destruct (jpyToWei amount _) as [w | e] eqn:Ew; [| discriminate H].
  cbn [bind] in H.
  destruct (jpyToWei_valid_digits _ _ w Hv Ew) as [Hwd Hwn].
  destruct (encodeEIP681_Ok _ m w (ChainConfig.chainId config) Hj Hm)
    as (cc & cm & Ecc & Ecm & Hcc & Hcm & Eu).
  rewrite Eu in H. cbn [bind] in H. injection H as <-.
  destruct (CHAIN_CONFIGS_chainId _ config Ec) as (id & Eid & Hid).
  exists m, cc, cm, (ChainConfig.chainId config).
  cbn [PaymentURIResult.jpycContractAddress PaymentURIResult.uri
       PaymentURIResult.chainId PaymentURIResult.amountWei].
  repeat split; try assumption.
  rewrite Eid. apply decodeEIP681_valid; assumption.
Qed.

Lemma decodeEIP681_generatePaymentURI_witness :
  exists merchantAddress checksummedContract checksummedMerchant chainId,
    PaymentURIOptions.merchantAddress
      (basic_options (str "0x1234567890123456789012345678901234567890")
                     (AmountNumber (num 100))) = Some merchantAddress
    /\ toChecksumAddress merchantAddress = Ok checksummedMerchant
    /\ toChecksumAddress (str "0xe7c3d8c9a439fede00d2600032d5db0be71c3c29")
       = Ok checksummedContract
    /\ Some (num 137) = Some chainId
    /\ decodeEIP681
         (str "ethereum:0xE7C3D8C9a439feDe00D2600032D5dB0Be71C3c29@137/transfer?address=0x1234567890123456789012345678901234567890&uint256=100000000000000000000")
       = Ok {| DecodedEIP681.scheme := str "ethereum";
               DecodedEIP681.contractAddress := checksummedContract;
               DecodedEIP681.chainId := chainId;
               DecodedEIP681.functionName := str "transfer";
               DecodedEIP681.recipientAddress := checksummedMerchant;
               DecodedEIP681.amount := str "100000000000000000000" |}.
Proof.
  apply (decodeEIP681_generatePaymentURI
           (basic_options (str "0x1234567890123456789012345678901234567890")
                          (AmountNumber (num 100)))
           {| PaymentURIResult.uri := str "ethereum:0xE7C3D8C9a439feDe00D2600032D5dB0Be71C3c29@137/transfer?address=0x1234567890123456789012345678901234567890&uint256=100000000000000000000";
              PaymentURIResult.chainId := Some (num 137);
              PaymentURIResult.network := str "polygon";
              PaymentURIResult.jpycContractAddress :=
                str "0xe7c3d8c9a439fede00d2600032d5db0be71c3c29";
              PaymentURIResult.amountWei := str "100000000000000000000";
              PaymentURIResult.amountJPY := str "100";
              PaymentURIResult.decimals := num 18;
              PaymentURIResult.warnings := [] |}).
  - vm_compute. reflexivity.
  - right. left. reflexivity.
Defined.

(** ** What [decodeEIP681] does not check *)

Section DecodeShape.

Ltac no_delimiter :=
  lazymatch goal with
  | |- forallb _ (_ ++ _) = true =>
      rewrite forallb_app; apply andb_true_iff; split; no_delimiter
  | |- forallb _ (_ :: _) = true =>
      cbn [forallb]; apply andb_true_iff; split; [reflexivity | no_delimiter]
  | |- forallb _ [] = true => reflexivity
  | |- forallb _ (str _) = true => reflexivity
  | |- forallb is_ascii _ = true => apply alnum_ascii; assumption
  | |- forallb (is_not _) _ = true =>
      apply alnum_is_not;
      [let x := fresh in let Hx := fresh in
       intros x Hx; apply (is_alnum_props x Hx)
      | assumption]
  end.

(** [decodeEIP681] on a string of the shape of an identifier: the four
    leading fields are read as they stand, the two others come from the
    query. *)
Lemma decodeEIP681_shaped scheme contract chain function query recipient amount :
  forallb is_alnum scheme = true -> scheme <> [] ->
  forallb is_alnum contract = true -> contract <> [] ->
  forallb is_digit chain = true -> chain <> [] ->
  forallb is_alnum function = true -> function <> [] ->
  forallb (is_not 63) query = true -> query <> [] ->
  URLSearchParams_get (URLSearchParams query) (str "address") = Some recipient ->
  recipient <> [] ->
  URLSearchParams_get (URLSearchParams query) (str "uint256") = Some amount ->
  amount <> [] ->
  decodeEIP681 (shaped scheme contract chain function query)
  = Ok {| DecodedEIP681.scheme := scheme;
          DecodedEIP681.contractAddress := contract;
          DecodedEIP681.chainId := parseInt10 chain;
          DecodedEIP681.functionName := function;
          DecodedEIP681.recipientAddress := recipient;
          DecodedEIP681.amount := amount |}.
Proof.
  intros Hs Hsn Hc Hcn Hi Hin Hf Hfn Hq Hqn Er Hrn Ea Han.
  assert (Hia : forallb is_alnum chain = true).
  { revert Hi. apply forallb_impl. intros c Hd. unfold is_alnum. rewrite Hd. reflexivity. }
  unfold decodeEIP681.
  assert (E1 : match_run_here (is_not 58) 58 (shaped scheme contract chain function query)
               = Some scheme).
  { unfold shaped. apply match_run_here_found; [no_delimiter | reflexivity | assumption]. }
  assert (E2 : match_run 58 (is_not 64) 64 (shaped scheme contract chain function query)
               = Some contract).
  { unfold shaped. apply match_run_found; try reflexivity; try assumption; no_delimiter. }
  assert (E3 : match_run 64 is_digit 47 (shaped scheme contract chain function query)
               = Some chain).
  { unfold shaped.
    replace (scheme ++ 58%N :: contract ++ 64%N :: chain ++ 47%N :: function ++ 63%N :: query)
      with ((scheme ++ 58%N :: contract) ++ 64%N :: chain ++ 47%N :: function ++ 63%N :: query)
      by (rewrite <- app_assoc; reflexivity).
    apply match_run_found; try reflexivity; try assumption. no_delimiter. }
  assert (E4 : match_run 47 (is_not 63) 63 (shaped scheme contract chain function query)
               = Some function).
  { unfold shaped.
    replace (scheme ++ 58%N :: contract ++ 64%N :: chain ++ 47%N :: function ++ 63%N :: query)
      with ((scheme ++ 58%N :: contract ++ 64%N :: chain) ++ 47%N :: function ++ 63%N :: query)
      by (rewrite <- app_assoc; cbn [app]; rewrite <- app_assoc; reflexivity).
    apply match_run_found; try reflexivity; try assumption; no_delimiter. }
  assert (E5 : nth_error (split 63 (shaped scheme contract chain function query)) 1
               = Some query).
  { unfold shaped.
    replace (scheme ++ 58%N :: contract ++ 64%N :: chain ++ 47%N :: function ++ 63%N :: query)
      with ((scheme ++ 58%N :: contract ++ 64%N :: chain ++ 47%N :: function) ++ 63%N :: query)
      by (rewrite <- app_assoc; cbn [app]; rewrite <- app_assoc;
          cbn [app]; rewrite <- app_assoc; reflexivity).
    rewrite split_at by no_delimiter.
    rewrite split_none by exact Hq. reflexivity. }
  rewrite (required_some _ _ _ E1) by assumption.
  rewrite (required_some _ _ _ E2) by assumption.
  rewrite (required_some _ _ _ E3) by assumption.
  rewrite (required_some _ _ _ E4) by assumption.
  rewrite (required_some _ _ _ E5) by assumption.
  cbn [bind]. rewrite Er, Ea.
  rewrite (required_some _ _ recipient eq_refl) by assumption.
  rewrite (required_some _ _ amount eq_refl) by assumption.
  reflexivity.
Qed.

Lemma URLSearchParams_plain query :
  hd 0%N query <> 63%N ->
  URLSearchParams query
  = map urlencoded_pair
      (filter (fun bytes => match bytes with [] => false | _ => true end)
              (split 38 (utf8ToBytes query))).
Proof.
  destruct query as [| c q]; [reflexivity |]. cbn [hd]. intros H.
  unfold URLSearchParams. destruct c as [| p]; [reflexivity |].
  do 6 (destruct p as [p | p |]; try reflexivity). congruence.
Qed.

(** The query of two parameters, in the two orders. *)
Lemma URLSearchParams_two name1 value1 name2 value2 :
  forallb is_alnum name1 = true -> name1 <> [] -> forallb is_alnum value1 = true ->
  forallb is_alnum name2 = true -> forallb is_alnum value2 = true ->
  URLSearchParams (name1 ++ 61%N :: value1 ++ 38%N :: name2 ++ 61%N :: value2)
  = [(name1, value1); (name2, value2)].
Proof.
  intros H1 H1n Hv1 H2 Hv2.
  set (query := name1 ++ 61%N :: value1 ++ 38%N :: name2 ++ 61%N :: value2).
  assert (Hq : forallb is_ascii query = true) by (unfold query; no_delimiter).
  assert (Hhead : hd 0%N query <> 63%N).
  { unfold query. destruct name1 as [| c name1]; [congruence |].
    cbn [forallb] in H1. apply andb_true_iff in H1. destruct H1 as [Hc _].
    cbn [app hd]. apply (is_alnum_props c Hc). }
  rewrite (URLSearchParams_plain query Hhead), (utf8ToBytes_ascii query Hq).
  unfold query.
  replace (name1 ++ 61%N :: value1 ++ 38%N :: name2 ++ 61%N :: value2)
    with ((name1 ++ 61%N :: value1) ++ 38%N :: name2 ++ 61%N :: value2)
    by (rewrite <- app_assoc; reflexivity).
  rewrite split_at by no_delimiter. rewrite split_none by no_delimiter.
  assert (Hne : forall n v : JSString, n <> [] ->
            (match n ++ 61%N :: v with [] => false | _ => true end) = true)
    by (intros [| ? ?] v Hn; [congruence | reflexivity]).
  cbn [filter]. rewrite (Hne name1 value1 H1n).
  destruct (match name2 ++ 61%N :: value2 with [] => false | _ => true end) eqn:E2;
    [| destruct name2; discriminate E2].
  cbn [map]. unfold urlencoded_pair.
  rewrite !span_app by (reflexivity || no_delimiter).
  rewrite !urlencoded_value by assumption. reflexivity.
Qed.

(** On a string of that shape whose chain id does not start with a digit
    and that has no other ["@"], the pattern of the chain id finds nothing. *)
Lemma decodeEIP681_no_chainId scheme contract c rest :
  forallb is_alnum scheme = true -> scheme <> [] ->
  forallb is_alnum contract = true -> contract <> [] ->
  is_digit c = false ->
  forallb (is_not 64) (c :: rest) = true ->
  decodeEIP681 (scheme ++ 58%N :: contract ++ 64%N :: c :: rest)
  = Throw (JPYCPaymentError
             (str "EIP-681 URIのデコードに失敗しました") ENCODING_FAILED
             (DetailsUriError (scheme ++ 58%N :: contract ++ 64%N :: c :: rest)
                              (Error (str "チェーンIDが見つかりません")))).
Proof.
  intros Hs Hsn Hc Hcn Hd Hrest.
  set (uri := scheme ++ 58%N :: contract ++ 64%N :: c :: rest).
  assert (E1 : match_run_here (is_not 58) 58 uri = Some scheme).
  { unfold uri. apply match_run_here_found; [no_delimiter | reflexivity | assumption]. }
  assert (E2 : match_run 58 (is_not 64) 64 uri = Some contract).
  { unfold uri. apply match_run_found; try reflexivity; try assumption; no_delimiter. }
  assert (E3 : match_run 64 is_digit 47 uri = None).
  { unfold uri.
    replace (scheme ++ 58%N :: contract ++ 64%N :: c :: rest)
      with ((scheme ++ 58%N :: contract) ++ 64%N :: c :: rest)
      by (rewrite <- app_assoc; reflexivity).
    rewrite match_run_skip by no_delimiter.
    assert (Hnone : match_run 64 is_digit 47 (c :: rest) = None).
    { pose proof (match_run_skip 64 is_digit 47 (c :: rest) [] Hrest) as H.
      rewrite app_nil_r in H. exact H. }
    assert (Hstep : forall t : JSString,
               match_run 64 is_digit 47 (64%N :: t)
               = match match_run_here is_digit 47 t with
                 | Some g => Some g
                 | None => match_run 64 is_digit 47 t
                 end) by (intros t; reflexivity).
    rewrite Hstep, Hnone. unfold match_run_here. cbn [span]. rewrite Hd. reflexivity. }
  unfold decodeEIP681. fold uri.
  rewrite (required_some _ _ _ E1) by assumption.
  rewrite (required_some _ _ _ E2) by assumption.
  rewrite E3. reflexivity.
Qed.

End DecodeShape.

(** [decodeEIP681] reads the structure of the string and nothing more: with
    parts made of letters and digits, any scheme, any function name and any
    contract and recipient strings are returned as they stand (no check of
    ["ethereum"], of ["transfer"] or of the address format), and the two
    query parameters may come in either order. *)
Theorem decodeEIP681_unchecked
  (scheme contract chain function recipient amount : JSString) :
  forallb is_alnum scheme = true -> scheme <> [] ->
  forallb is_alnum contract = true -> contract <> [] ->
  forallb is_digit chain = true -> chain <> [] ->
  forallb is_alnum function = true -> function <> [] ->
  forallb is_alnum recipient = true -> recipient <> [] ->
  forallb is_alnum amount = true -> amount <> [] ->
  let decoded := {| DecodedEIP681.scheme := scheme;
                    DecodedEIP681.contractAddress := contract;
                    DecodedEIP681.chainId := parseInt10 chain;
                    DecodedEIP681.functionName := function;
                    DecodedEIP681.recipientAddress := recipient;
                    DecodedEIP681.amount := amount |} in
  decodeEIP681 (shaped scheme contract chain function
                       (str "address=" ++ recipient ++ str "&uint256=" ++ amount))
  = Ok decoded
  /\ decodeEIP681 (shaped scheme contract chain function
                          (str "uint256=" ++ amount ++ str "&address=" ++ recipient))
     = Ok decoded.
Proof.
  intros Hs Hsn Hc Hcn Hi Hin Hf Hfn Hr Hrn Ha Han decoded.
  assert (Ealnum : forall x, is_alnum x = true -> is_not 63 x = true).
  { intros x Hx. unfold is_not. apply negb_true_iff, N.eqb_neq.
    apply (is_alnum_props x Hx). }
  assert (Hr63 : forallb (is_not 63) recipient = true)
    by (revert Hr; apply forallb_impl, Ealnum).
  assert (Ha63 : forallb (is_not 63) amount = true)
    by (revert Ha; apply forallb_impl, Ealnum).
  split; apply decodeEIP681_shaped; try assumption; try discriminate.
  - rewrite !forallb_app, Hr63, Ha63. reflexivity.
  - change (str "address=" ++ recipient ++ str "&uint256=" ++ amount)
      with (str "address" ++ 61%N :: recipient ++ 38%N :: str "uint256" ++ 61%N :: amount).
    rewrite URLSearchParams_two by (assumption || reflexivity || discriminate).
    reflexivity.
  - change (str "address=" ++ recipient ++ str "&uint256=" ++ amount)
      with (str "address" ++ 61%N :: recipient ++ 38%N :: str "uint256" ++ 61%N :: amount).
    rewrite URLSearchParams_two by (assumption || reflexivity || discriminate).
    reflexivity.
  - rewrite !forallb_app, Hr63, Ha63. reflexivity.
  - change (str "uint256=" ++ amount ++ str "&address=" ++ recipient)
      with (str "uint256" ++ 61%N :: amount ++ 38%N :: str "address" ++ 61%N :: recipient).
    rewrite URLSearchParams_two by (assumption || reflexivity || discriminate).
    reflexivity.
  - change (str "uint256=" ++ amount ++ str "&address=" ++ recipient)
      with (str "uint256" ++ 61%N :: amount ++ 38%N :: str "address" ++ 61%N :: recipient).
    rewrite URLSearchParams_two by (assumption || reflexivity || discriminate).
    reflexivity.
Qed.

Lemma decodeEIP681_unchecked_witness :
  decodeEIP681 (str "bitcoin:nobody@5/burn?uint256=7&address=me")
  = Ok {| DecodedEIP681.scheme := str "bitcoin";
          DecodedEIP681.contractAddress := str "nobody";
          DecodedEIP681.chainId := num 5;
          DecodedEIP681.functionName := str "burn";
          DecodedEIP681.recipientAddress := str "me";
          DecodedEIP681.amount := str "7" |}.
Proof.
  refine (proj2 (decodeEIP681_unchecked (str "bitcoin") (str "nobody") (str "5")
                   (str "burn") (str "me") (str "7") _ _ _ _ _ _ _ _ _ _ _ _));
    (reflexivity || discriminate).
Defined.

(** ** A network name that the object inherits *)

(** A network name that [CHAIN_CONFIGS] only inherits from
    [Object.prototype] (["toString"], ["constructor"], ...) passes the
    validator, and [generatePaymentURI] goes on with a chain configuration
    that has no chain id and no contract address. It throws what [jpyToWei]
    throws; when [jpyToWei] returns and the options give no contract
    address, [encodeEIP681] is called with [undefined] and the error is
    [ENCODING_FAILED] around a [TypeError]; when they give one, a record is
    returned whose chain id is [undefined] and whose identifier reads
    ["@undefined/"], which [decodeEIP681] refuses for want of a chain id. *)
Theorem generatePaymentURI_inherited_network
  (options : PaymentURIOptions.t) (network : JSString) :
  ValidationResult.valid (validateGenerateOptions options) = true ->
  PaymentURIOptions.network options = Some network ->
  In network Object_prototype ->
  let decimals := match PaymentURIOptions.decimals options with
                  | Some d => d
                  | None => JPYC_DECIMALS
                  end in
  exists merchantAddress amount,
    PaymentURIOptions.merchantAddress options = Some merchantAddress
    /\ PaymentURIOptions.amount options = Some amount
    /\ (forall thrown,
           jpyToWei amount decimals = Throw thrown ->
           generatePaymentURI options = Throw thrown)
    /\ (forall amountWei,
           jpyToWei amount decimals = Ok amountWei ->
           match PaymentURIOptions.jpycContractAddress options with
           | None =>
               generatePaymentURI options
               = Throw (JPYCPaymentError (str "EIP-681 URIのエンコードに失敗しました")
                                         ENCODING_FAILED (DetailsError TypeError))
           | Some contract =>
               exists checksummedContract checksummedMerchant,
                 toChecksumAddress contract = Ok checksummedContract
                 /\ toChecksumAddress merchantAddress = Ok checksummedMerchant
                 /\ let uri := str "ethereum:" ++ checksummedContract
                               ++ str "@undefined/transfer?address="
                               ++ checksummedMerchant ++ str "&uint256=" ++ amountWei in
                    generatePaymentURI options
                    = Ok {| PaymentURIResult.uri := uri;
                            PaymentURIResult.chainId := None;
                            PaymentURIResult.network := network;
                            PaymentURIResult.jpycContractAddress := contract;
                            PaymentURIResult.amountWei := amountWei;
                            PaymentURIResult.amountJPY := Amount_toString amount;
                            PaymentURIResult.decimals := decimals;
                            PaymentURIResult.warnings :=
                              ValidationResult.warnings
                                (validateGenerateOptions options) |}
                    /\ decodeEIP681 uri
                       = Throw (JPYCPaymentError
                                  (str "EIP-681 URIのデコードに失敗しました")
                                  ENCODING_FAILED
                                  (DetailsUriError
                                     uri (Error (str "チェーンIDが見つかりません"))))
           end).
Proof.
  intros Hvalid En Hin decimals. subst decimals.
  destruct (generatePaymentURI_inherited options network Hvalid En Hin)
    as (m & amount & p & Em & Hm & Ea & Hv & Hj & Hp & E).
  exists m, amount. split; [exact Em |]. split; [exact Ea |].
  rewrite E. cbv zeta. split.
  - intros thrown Ew. rewrite Ew. reflexivity.
  - intros w Ew. rewrite Ew. cbn [bind].
    destruct (PaymentURIOptions.jpycContractAddress options) as [contract |];
      [| reflexivity].
    destruct (encodeEIP681_untyped_Ok contract m w None Hj Hm)
      as (cc & cm & Ecc & Ecm & Hcc & Hcm & Eu).
    exists cc, cm. split; [exact Ecc |]. split; [exact Ecm |].
    rewrite Eu. cbn [bind present]. split; [reflexivity |].
    destruct (jpyToWei_valid_digits _ _ w Hv Ew) as [Hwd Hwn].
    destruct (address_alnum cc Hcc) as [Hca Hcn].
    destruct (address_alnum cm Hcm) as [Hma Hmn].
    assert (Hwa : forallb is_alnum w = true).
    { revert Hwd. apply forallb_impl. intros x Hx. unfold is_alnum. rewrite Hx.
      reflexivity. }
    change (str "ethereum:" ++ cc ++ str "@undefined/transfer?address=" ++ cm
            ++ str "&uint256=" ++ w)
      with (str "ethereum" ++ 58%N :: cc ++ 64%N :: 117%N
            :: (str "ndefined/transfer?address=" ++ cm ++ str "&uint256=" ++ w)).
    apply decodeEIP681_no_chainId; try assumption;
      [reflexivity | discriminate | reflexivity |].
    cbn [forallb]. apply andb_true_iff. split; [reflexivity |].
    rewrite !forallb_app. rewrite !andb_true_iff.
    repeat split; try reflexivity;
      (apply alnum_is_not; [intros x Hx; apply (is_alnum_props x Hx) | assumption]).
Qed.

Lemma generatePaymentURI_inherited_network_witness :
  generatePaymentURI
    {| PaymentURIOptions.merchantAddress :=
                   Some (str "0x1234567890123456789012345678901234567890");
                 PaymentURIOptions.amount := Some (AmountNumber (num 100));
                 PaymentURIOptions.network := Some (str "toString");
                 PaymentURIOptions.jpycContractAddress := None;
                 PaymentURIOptions.decimals := None |}
  = Throw (JPYCPaymentError (str "EIP-681 URIのエンコードに失敗しました")
                            ENCODING_FAILED (DetailsError TypeError)).
Proof.
  destruct (generatePaymentURI_inherited_network
              {| PaymentURIOptions.merchantAddress :=
                   Some (str "0x1234567890123456789012345678901234567890");
                 PaymentURIOptions.amount := Some (AmountNumber (num 100));
                 PaymentURIOptions.network := Some (str "toString");
                 PaymentURIOptions.jpycContractAddress := None;
                 PaymentURIOptions.decimals := None |}
              (str "toString"))
    as (m & a & Em & Ea & _ & H).
  - vm_compute. reflexivity.
  - reflexivity.
  - vm_compute. tauto.
  - injection Ea as <-.
    apply (H (str "100000000000000000000")). vm_compute. reflexivity.
Defined.

(** ** The QR functions *)

Section QRProperties.

Variable toDataURL : JSString -> MergedOptions.t -> Result JSString.
Variable toString : JSString -> MergedOptions.t -> JSString -> Result JSString.

Lemma catch_QR_rejected (A : Type) (body : Promise A) message thrown :
  catch_QR body message = Rejected thrown -> instanceof_JPYCPaymentError thrown = true.
Proof.
  destruct body as [a | [[m c d | m | |] | m c f]]; cbn [catch_QR instanceof_JPYCPaymentError];
    intros [= <-]; reflexivity.
Qed.

Lemma switch_format_unsupported uri format merged :
  ~ supported_format format ->
  switch_format toDataURL toString uri format merged
  = Rejected (JPYCPaymentError_format
                (str "サポートされていない出力フォーマットです: " ++ format)
                QR_GENERATION_FAILED format).
Proof.
  intros H. unfold switch_format. unfold supported_format in H.
  destruct (JSString_eqb format (str "png")) eqn:E1;
    [apply JSString_eqb_eq in E1; tauto |].
  destruct (JSString_eqb format (str "svg")) eqn:E2;
    [apply JSString_eqb_eq in E2; tauto |].
  destruct (JSString_eqb format (str "utf8")) eqn:E3;
    [apply JSString_eqb_eq in E3; tauto |].
  destruct (JSString_eqb format (str "terminal")) eqn:E4;
    [apply JSString_eqb_eq in E4; tauto |].
  reflexivity.
Qed.

(** Every rejection of the four QR functions is a [JPYCPaymentError],
    whatever the package [qrcode] does and whatever the layers below throw:
    a native error, such as the [SyntaxError] that [jpyToWei] lets through,
    is wrapped into [QR_GENERATION_FAILED]. *)
Theorem qr_rejections
  (toBuffer : JSString -> MergedOptions.t -> JSString -> Result (list N))
  (options : PaymentURIOptions.t) (uri : JSString)
  (format : option JSString) (qrOptions : option QRCodeOptions.t) (thrown : QRThrown) :
  (generatePaymentQR toDataURL toString options qrOptions = Rejected thrown ->
   instanceof_JPYCPaymentError thrown = true)
  /\ (generatePaymentQRWithFormat toDataURL toString options format qrOptions
      = Rejected thrown ->
      instanceof_JPYCPaymentError thrown = true)
  /\ (generatePaymentQRBuffer toBuffer options qrOptions = Rejected thrown ->
      instanceof_JPYCPaymentError thrown = true)
  /\ (generateQRFromURI toDataURL toString uri format qrOptions = Rejected thrown ->
      instanceof_JPYCPaymentError thrown = true).
Proof.
  repeat split; apply catch_QR_rejected.
Qed.

(** [generatePaymentQRWithFormat] builds the identifier first: when
    [generatePaymentURI] throws a [JPYCPaymentError] (the validator's
    [VALIDATION_FAILED], or [INVALID_AMOUNT]), the promise is rejected with
    that very error, whatever the format, the QR options and the package;
    when it throws anything else, the rejection is [QR_GENERATION_FAILED]
    with the error caught in its details. *)
Theorem generatePaymentQRWithFormat_uri_error (options : PaymentURIOptions.t)
  (format : option JSString) (qrOptions : option QRCodeOptions.t) (thrown : Thrown) :
  generatePaymentURI options = Throw thrown ->
  generatePaymentQRWithFormat toDataURL toString options format qrOptions
  = Rejected (Below (match thrown with
                     | JPYCPaymentError _ _ _ => thrown
                     | _ => JPYCPaymentError (str "QRコードの生成に失敗しました")
                                             QR_GENERATION_FAILED (DetailsError thrown)
                     end)).
Proof.
  intros H. unfold generatePaymentQRWithFormat. rewrite H.
  destruct thrown; reflexivity.
Qed.


(** [generateQRFromURI] does not look at the string it is given: any string
    goes to the package as it is, and only the format decides a rejection
    before that. *)
Theorem generateQRFromURI_any_string (uri format : JSString)
  (qrOptions : option QRCodeOptions.t) :
  (forall data,
      supported_format format ->
      (if JSString_eqb format (str "png")
       then toDataURL uri (mergedOptions qrOptions)
       else toString uri (mergedOptions qrOptions) format) = Ok data ->
      generateQRFromURI toDataURL toString uri (Some format) qrOptions
      = Fulfilled {| QRCodeResult.data := data;
                     QRCodeResult.format := format;
                     QRCodeResult.uri := uri |})
  /\ (~ supported_format format ->
      generateQRFromURI toDataURL toString uri (Some format) qrOptions
      = Rejected (JPYCPaymentError_format
                    (str "サポートされていない出力フォーマットです: " ++ format)
                    QR_GENERATION_FAILED format)).
Proof.
  unfold generateQRFromURI. cbn [nullish]. split.
  - intros data Hf Hd. unfold switch_format.
    destruct Hf as [-> | [-> | [-> | ->]]];
      repeat match goal with
             | |- context [JSString_eqb (str ?a) (str ?b)] =>
                 let v := eval vm_compute in (JSString_eqb (str a) (str b)) in
                 change (JSString_eqb (str a) (str b)) with v
             | H : context [JSString_eqb (str ?a) (str ?b)] |- _ =>
                 let v := eval vm_compute in (JSString_eqb (str a) (str b)) in
                 change (JSString_eqb (str a) (str b)) with v in H
             end; cbv iota in Hd |- *; rewrite Hd; reflexivity.
  - intros Hf. rewrite (switch_format_unsupported _ _ _ Hf). reflexivity.
Qed.

End QRProperties.

Lemma generatePaymentQRWithFormat_uri_error_witness :
  generatePaymentQRWithFormat
    (fun _ _ => Ok (str "data:image/png;base64,")) (fun _ _ _ => Ok (str "<svg/>"))
    (basic_options (str "0x1234567890123456789012345678901234567890")
                   (AmountString (str "12abc")))
    (Some (str "svg")) None
  = Rejected (Below (JPYCPaymentError (str "QRコードの生成に失敗しました")
                                      QR_GENERATION_FAILED (DetailsError SyntaxError))).
Proof.
  apply (generatePaymentQRWithFormat_uri_error
           (fun _ _ => Ok (str "data:image/png;base64,")) (fun _ _ _ => Ok (str "<svg/>"))
           (basic_options (str "0x1234567890123456789012345678901234567890")
                          (AmountString (str "12abc")))
           (Some (str "svg")) None SyntaxError).
  vm_compute. reflexivity.
Defined.

